(** * Spectacle region editor: geometry, pointer state machine and compositor

    A shallow embedding of the rectangular-region editor of Spectacle
    ([src/QuickEditor/QuickEditor.cpp], [src/Gui/SelectionEditor.cpp]) and
    of the Qt value types it computes with, followed by the properties of
    the specification that concern it and by further properties of the
    gestures, the painting, the compositor and the OpenCV helpers.

    Conventions of the embedding.
    - The Qt value types ([QPoint], [QSize], [QRect], [QRectF], [QImage]) and
      [qRound], [qFuzzyCompare] follow the inline definitions of Qt 5, the
      version both editors are written against.
    - [int] is [Z]; the editor's coordinates are far from the limits of a
      32-bit [int], so wrap-around is not modelled.
    - [qreal] (a C++ [double]) is modelled by the exact rationals [Q].  All
      inputs used in evaluated examples are integers or dyadic fractions, on
      which [double] arithmetic is exact.
    - A method that mutates a Qt value in place is a function returning the
      new value; the editor's fields are threaded through a state record. *)

From Stdlib Require Import ZArith QArith Qround Qabs Qminmax Lia Lqa List Bool.
Import ListNotations.

Local Open Scope Z_scope.

(** ** Qt value types *)

Module Qt.

Definition qreal := Q.

(** [qRound(double)] of Qt 5, [d >= 0 ? int(d + 0.5) : int(d - double(int(d-1)) + 0.5) + int(d-1)]:
    both branches compute the floor of [d + 1/2]. *)
Definition qRound (d : qreal) : Z := Qfloor (d + (1 # 2))%Q.

(** Implicit conversion of a [double] to [int]: truncation toward zero. *)
Definition toInt (d : qreal) : Z :=
  if Qle_bool 0%Q d then Qfloor d else Qceiling d.

Definition ofInt (z : Z) : qreal := inject_Z z.

(** [qFuzzyCompare(double p1, double p2)]:
    [qAbs(p1 - p2) * 1000000000000. <= qMin(qAbs(p1), qAbs(p2))]. *)
Definition qFuzzyCompare (p1 p2 : qreal) : bool :=
  Qle_bool (Qabs (p1 - p2) * inject_Z 1000000000000)%Q
           (Qmin (Qabs p1) (Qabs p2)).

Definition qleb (a b : qreal) : bool := Qle_bool a b.
Definition qltb (a b : qreal) : bool := negb (Qle_bool b a).

(** *** QPoint and QSize *)

Record QPoint := mkPoint { px : Z; py : Z }.
Record QSize := mkSize { wd : Z; ht : Z }.

Definition pt_add (p q : QPoint) : QPoint := mkPoint (px p + px q) (py p + py q).
Definition pt_sub (p q : QPoint) : QPoint := mkPoint (px p - px q) (py p - py q).
Definition pt_neg (p : QPoint) : QPoint := mkPoint (- px p) (- py p).

(** [operator*(const QPoint &, double)]: rounds each coordinate. *)
Definition pt_mul (p : QPoint) (c : qreal) : QPoint :=
  mkPoint (qRound (ofInt (px p) * c)%Q) (qRound (ofInt (py p) * c)%Q).

(** [operator*(const QSize &, qreal)] and [operator/(const QSize &, qreal)]. *)
Definition size_mul (s : QSize) (c : qreal) : QSize :=
  mkSize (qRound (ofInt (wd s) * c)%Q) (qRound (ofInt (ht s) * c)%Q).
Definition size_div (s : QSize) (c : qreal) : QSize :=
  mkSize (qRound (ofInt (wd s) / c)%Q) (qRound (ofInt (ht s) / c)%Q).

Definition size_eqb (a b : QSize) : bool := (wd a =? wd b) && (ht a =? ht b).

(** [QSize::isEmpty]: [wd < 1 || ht < 1]. *)
Definition size_isEmpty (s : QSize) : bool := (wd s <? 1) || (ht s <? 1).

(** *** QRect: stored as the two corners [x1,y1] and [x2,y2], both inclusive *)

Record QRect := mkRect { x1 : Z; y1 : Z; x2 : Z; y2 : Z }.

Module QRect.

(** [QRect()] *)
Definition null : QRect := mkRect 0 0 (-1) (-1).
(** [QRect(int left, int top, int width, int height)] *)
Definition make (l t w h : Z) : QRect := mkRect l t (l + w - 1) (t + h - 1).
(** [QRect(const QPoint &topLeft, const QSize &size)] *)
Definition ofPointSize (p : QPoint) (s : QSize) : QRect :=
  make (px p) (py p) (wd s) (ht s).

Definition left (r : QRect) := x1 r.
Definition top (r : QRect) := y1 r.
Definition right (r : QRect) := x2 r.
Definition bottom (r : QRect) := y2 r.
Definition x (r : QRect) := x1 r.
Definition y (r : QRect) := y1 r.
Definition width (r : QRect) := x2 r - x1 r + 1.
Definition height (r : QRect) := y2 r - y1 r + 1.
Definition size (r : QRect) : QSize := mkSize (width r) (height r).
Definition topLeft (r : QRect) := mkPoint (x1 r) (y1 r).
Definition bottomRight (r : QRect) := mkPoint (x2 r) (y2 r).
Definition topRight (r : QRect) := mkPoint (x2 r) (y1 r).
Definition bottomLeft (r : QRect) := mkPoint (x1 r) (y2 r).

Definition isNull (r : QRect) : bool := (x2 r =? x1 r - 1) && (y2 r =? y1 r - 1).
Definition isEmpty (r : QRect) : bool := (x2 r <? x1 r) || (y2 r <? y1 r).
Definition isValid (r : QRect) : bool := (x1 r <=? x2 r) && (y1 r <=? y2 r).

Definition setRight (r : QRect) (pos : Z) : QRect := mkRect (x1 r) (y1 r) pos (y2 r).
Definition setBottom (r : QRect) (pos : Z) : QRect := mkRect (x1 r) (y1 r) (x2 r) pos.
Definition setWidth (r : QRect) (w : Z) : QRect := mkRect (x1 r) (y1 r) (x1 r + w - 1) (y2 r).
Definition setHeight (r : QRect) (h : Z) : QRect := mkRect (x1 r) (y1 r) (x2 r) (y1 r + h - 1).
Definition setSize (r : QRect) (s : QSize) : QRect :=
  mkRect (x1 r) (y1 r) (wd s + x1 r - 1) (ht s + y1 r - 1).
Definition setRect (ax ay aw ah : Z) : QRect := make ax ay aw ah.

Definition moveLeft (r : QRect) (pos : Z) : QRect :=
  mkRect pos (y1 r) (x2 r + (pos - x1 r)) (y2 r).
Definition moveTop (r : QRect) (pos : Z) : QRect :=
  mkRect (x1 r) pos (x2 r) (y2 r + (pos - y1 r)).
Definition moveRight (r : QRect) (pos : Z) : QRect :=
  mkRect (x1 r + (pos - x2 r)) (y1 r) pos (y2 r).
Definition moveBottom (r : QRect) (pos : Z) : QRect :=
  mkRect (x1 r) (y1 r + (pos - y2 r)) (x2 r) pos.
Definition moveTo (r : QRect) (p : QPoint) : QRect :=
  mkRect (px p) (py p) (x2 r + (px p - x1 r)) (y2 r + (py p - y1 r)).
Definition moveTopLeft (r : QRect) (p : QPoint) : QRect :=
  moveTop (moveLeft r (px p)) (py p).
Definition translated (r : QRect) (p : QPoint) : QRect :=
  mkRect (x1 r + px p) (y1 r + py p) (x2 r + px p) (y2 r + py p).

(** [QRect::normalized] (Qt 5): an axis is swapped only when [x2 < x1 - 1]. *)
Definition normalized (r : QRect) : QRect :=
  let '(a1, a2) := if x2 r <? x1 r - 1 then (x2 r, x1 r) else (x1 r, x2 r) in
  let '(b1, b2) := if y2 r <? y1 r - 1 then (y2 r, y1 r) else (y1 r, y2 r) in
  mkRect a1 b1 a2 b2.

(** The ordered extent of one axis as [contains], [intersects], [operator&]
    and [operator|] compute it: [l = r = x1; if (x2 - x1 + 1 < 0) l = x2; else r = x2]. *)
Definition span (a b : Z) : Z * Z := if b - a + 1 <? 0 then (b, a) else (a, b).

Definition containsPoint (r : QRect) (p : QPoint) : bool :=
  let '(l, rr) := if x2 r <? x1 r - 1 then (x2 r, x1 r) else (x1 r, x2 r) in
  let '(t, b) := if y2 r <? y1 r - 1 then (y2 r, y1 r) else (y1 r, y2 r) in
  negb ((px p <? l) || (rr <? px p)) && negb ((py p <? t) || (b <? py p)).

Definition contains (r s : QRect) : bool :=
  if isNull r || isNull s then false else
  let '(l1, r1) := span (x1 r) (x2 r) in
  let '(l2, r2) := span (x1 s) (x2 s) in
  if (l2 <? l1) || (r1 <? r2) then false else
  let '(t1, b1) := span (y1 r) (y2 r) in
  let '(t2, b2) := span (y1 s) (y2 s) in
  if (t2 <? t1) || (b1 <? b2) then false else true.

Definition intersects (r s : QRect) : bool :=
  if isNull r || isNull s then false else
  let '(l1, r1) := span (x1 r) (x2 r) in
  let '(l2, r2) := span (x1 s) (x2 s) in
  if (r2 <? l1) || (r1 <? l2) then false else
  let '(t1, b1) := span (y1 r) (y2 r) in
  let '(t2, b2) := span (y1 s) (y2 s) in
  if (b2 <? t1) || (b1 <? t2) then false else true.

Definition intersected (r s : QRect) : QRect :=
  if isNull r || isNull s then null else
  let '(l1, r1) := span (x1 r) (x2 r) in
  let '(l2, r2) := span (x1 s) (x2 s) in
  if (r2 <? l1) || (r1 <? l2) then null else
  let '(t1, b1) := span (y1 r) (y2 r) in
  let '(t2, b2) := span (y1 s) (y2 s) in
  if (b2 <? t1) || (b1 <? t2) then null else
  mkRect (Z.max l1 l2) (Z.max t1 t2) (Z.min r1 r2) (Z.min b1 b2).

Definition united (r s : QRect) : QRect :=
  if isNull r then s else
  if isNull s then r else
  let '(l1, r1) := span (x1 r) (x2 r) in
  let '(l2, r2) := span (x1 s) (x2 s) in
  let '(t1, b1) := span (y1 r) (y2 r) in
  let '(t2, b2) := span (y1 s) (y2 s) in
  mkRect (Z.min l1 l2) (Z.min t1 t2) (Z.max r1 r2) (Z.max b1 b2).

Definition eqb (r s : QRect) : bool :=
  (x1 r =? x1 s) && (y1 r =? y1 s) && (x2 r =? x2 s) && (y2 r =? y2 s).

End QRect.

(** *** QPointF and QRectF *)

Record QPointF := mkPointF { fx : qreal; fy : qreal }.

Definition ptF_ofPoint (p : QPoint) : QPointF := mkPointF (ofInt (px p)) (ofInt (py p)).
Definition ptF_add (p q : QPointF) := mkPointF (fx p + fx q)%Q (fy p + fy q)%Q.
Definition ptF_sub (p q : QPointF) := mkPointF (fx p - fx q)%Q (fy p - fy q)%Q.
Definition ptF_mul (p : QPointF) (c : qreal) := mkPointF (fx p * c)%Q (fy p * c)%Q.
(** [QPointF::toPoint] *)
Definition ptF_toPoint (p : QPointF) : QPoint := mkPoint (qRound (fx p)) (qRound (fy p)).

Record QRectF := mkRectF { xp : qreal; yp : qreal; fw : qreal; fh : qreal }.

Module QRectF.

Definition null : QRectF := mkRectF 0%Q 0%Q 0%Q 0%Q.
Definition ofRect (r : QRect) : QRectF :=
  mkRectF (ofInt (x1 r)) (ofInt (y1 r)) (ofInt (QRect.width r)) (ofInt (QRect.height r)).
Definition left (r : QRectF) := xp r.
Definition top (r : QRectF) := yp r.
Definition right (r : QRectF) : qreal := (xp r + fw r)%Q.
Definition bottom (r : QRectF) : qreal := (yp r + fh r)%Q.
Definition width (r : QRectF) := fw r.
Definition height (r : QRectF) := fh r.
Definition topLeft (r : QRectF) := mkPointF (xp r) (yp r).

(** [QRectF::isEmpty]: [w <= 0. || h <= 0.] *)
Definition isEmpty (r : QRectF) : bool := qleb (fw r) 0%Q || qleb (fh r) 0%Q.

(** [QRectF::normalized] *)
Definition normalized (r : QRectF) : QRectF :=
  let '(ax, aw) := if qltb (fw r) 0%Q then ((xp r + fw r)%Q, (- fw r)%Q) else (xp r, fw r) in
  let '(ay, ah) := if qltb (fh r) 0%Q then ((yp r + fh r)%Q, (- fh r)%Q) else (yp r, fh r) in
  mkRectF ax ay aw ah.

(** [QRectF::toRect] (Qt 5):
    [QRect(QPoint(qRound(xp), qRound(yp)), QPoint(qRound(xp + w) - 1, qRound(yp + h) - 1))]. *)
Definition toRect (r : QRectF) : QRect :=
  mkRect (qRound (xp r)) (qRound (yp r))
         (qRound (xp r + fw r)%Q - 1) (qRound (yp r + fh r)%Q - 1).

End QRectF.

End Qt.

Import Qt.

(** ** Images and painted surfaces *)

(** A captured pixel buffer: its pixel size, its device-pixel ratio and the
    colour stored at each pixel. *)
Record QImage := mkImage { img_size : QSize; img_dpr : qreal; img_px : Z -> Z -> Z }.

Module QImage.

Definition null : QImage := mkImage (mkSize 0 0) 1%Q (fun _ _ => 0).

Definition inRange (img : QImage) (x y : Z) : bool :=
  (0 <=? x) && (x <? wd (img_size img)) && (0 <=? y) && (y <? ht (img_size img)).

(** [QImage::pixel], with 0 (transparent) outside the buffer. *)
Definition pixel (img : QImage) (x y : Z) : Z :=
  if inRange img x y then img_px img x y else 0.

Definition setDevicePixelRatio (img : QImage) (d : qreal) : QImage :=
  mkImage (img_size img) d (img_px img).

(** [QImage::copy(const QRect &)]: a null image stays null; the whole image for a null rectangle, a
    null image for a non-positive size, otherwise the pixels of the rectangle
    with the part outside the source left at 0.  The device-pixel ratio is
    carried over. *)
Definition copy (img : QImage) (r : QRect) : QImage :=
  if size_isEmpty (img_size img) then null
  else if QRect.isNull r then img
  else if (QRect.width r <=? 0) || (QRect.height r <=? 0) then null
  else mkImage (QRect.size r) (img_dpr img)
               (fun x y => pixel img (x + QRect.x r) (y + QRect.y r)).

End QImage.

(** One paint call: [drawImage] at a point (unscaled), [drawImage] into a
    target rectangle (the source is stretched over it), or [fillRect] of a
    target rectangle with a brush made of the source scaled by a factor. *)
Inductive Draw :=
| DrawAt (p : QPoint) (src : QImage)
| DrawInto (target : QRect) (src : QImage)
| FillScaled (target : QRect) (src : QImage) (scale : qreal).

(** The area of the canvas that a draw call covers. *)
Definition drawnRect (d : Draw) : QRect :=
  match d with
  | DrawAt p src => QRect.ofPointSize p (img_size src)
  | DrawInto target _ => target
  | FillScaled target _ _ => target
  end.

(** An image that was filled and then painted on: its pixel size, its
    device-pixel ratio and the draw calls in order. *)
Record Canvas := mkCanvas { cv_size : QSize; cv_dpr : qreal; cv_draws : list Draw }.

(** What is handed to [grabDone]. *)
Inductive Grab :=
| GrabImage (img : QImage)
| GrabCanvas (c : Canvas)
| GrabCanvasCopy (c : Canvas) (r : QRect).


Inductive Platform := X11 | Wayland.

(** In-place update of a [QVector] element.  The editor only writes indices
    below the length, so the out-of-range case (no change) is never reached. *)
Fixpoint updateAt {A : Type} (n : nat) (f : A -> A) (l : list A) : list A :=
  match l, n with
  | [], _ => []
  | a :: l', O => f a :: l'
  | a :: l', S n' => a :: updateAt n' f l'
  end.

Definition setX (p : QPoint) (v : Z) : QPoint := mkPoint v (py p).
Definition setY (p : QPoint) (v : Z) : QPoint := mkPoint (px p) v.

(** ** The crop arithmetic that both editors' [acceptSelection] share *)

(** The rectangle [pixelOnScreenIntersected]: a default [QRect] moved to
    [(intersected.topLeft() - pos) * dpr], whose width and height are then set
    to the [int] conversions of [intersected.width() * dpr] and
    [intersected.height() * dpr]. *)
Definition pixelOnScreen (intersected : QRect) (pos : QPoint) (dpr : qreal) : QRect :=
  let r0 := QRect.moveTopLeft QRect.null (pt_mul (pt_sub (QRect.topLeft intersected) pos) dpr) in
  let r1 := QRect.setWidth r0 (toInt (ofInt (QRect.width intersected) * dpr)%Q) in
  QRect.setHeight r1 (toInt (ofInt (QRect.height intersected) * dpr)%Q).

(** Where a screen's part goes in the composite: [intersected] moved to
    [(intersected.topLeft() - selectionRect.topLeft()) * maxDpr] and resized to
    [intersected.size() * maxDpr]. *)
Definition compositeTarget (intersected selectionRect : QRect) (maxDpr : qreal) : QRect :=
  let r0 := QRect.moveTopLeft intersected
              (pt_mul (pt_sub (QRect.topLeft intersected) (QRect.topLeft selectionRect)) maxDpr) in
  QRect.setSize r0 (size_mul (QRect.size r0) maxDpr).

(** ** SelectionEditor (src/Gui/SelectionEditor.cpp) *)

Module SelectionEditor.

(** [CanvasImage]: a captured screen image and its logical placement. *)
Record CanvasImage := mkCanvasImage { ci_image : QImage; ci_rect : QRectF }.

(** What the editor reads from its surroundings: the windowing platform,
    [qGuiApp->devicePixelRatio()] and
    [Settings::rememberLastRectangularRegion() == Settings::Always]. *)
Record Env := mkEnv { platform : Platform; appDpr : qreal; rememberAlways : bool }.

(** Modelled from the spec: class [Selection] (Selection.h) is not among the
    sources; after the specification's data model it is "an axis-aligned
    rectangle in logical (DPI-independent) coordinates", so [d->selection] is
    taken to hold a [QRectF], and its [rectF()], [normalized()] and [width()]
    to be that rectangle's. *)
Definition Selection := QRectF.

(** The fields of [SelectionEditorPrivate] that the modelled methods use. *)
Record State := mkState {
  selection : Selection;
  image : Canvas;
  screenImages : list CanvasImage;
  devicePixelRatio : qreal;
  screensRect : QRectF;
  devicePixel : qreal;
  disableArrowKeys : bool
}.

Definition withScreenImages (st : State) (imgs : list CanvasImage) : State :=
  mkState (selection st) (image st) imgs (devicePixelRatio st) (screensRect st)
          (devicePixel st) (disableArrowKeys st).

Definition withSelection (st : State) (r : QRectF) : State :=
  mkState r (image st) (screenImages st) (devicePixelRatio st) (screensRect st)
          (devicePixel st) (disableArrowKeys st).

Inductive Effect :=
| SetCropRegion (r : QRect)
| CropCanvas (r : QRectF)
| ScreensRectChanged
| ScreenImagesChanged
| GrabDone (g : Grab) (actions : Z).

(** *** setScreenImages *)

Definition screenPos (c : CanvasImage) : QPoint := ptF_toPoint (QRectF.topLeft (ci_rect c)).

Definition virtualScreenRect (pf : Platform) (c : CanvasImage) : QRect :=
  match pf with
  | X11 => QRect.ofPointSize (screenPos c) (img_size (ci_image c))
  | Wayland => QRect.ofPointSize (screenPos c)
                 (size_div (img_size (ci_image c)) (img_dpr (ci_image c)))
  end.

(** First loop: the union of the virtual screen rectangles. *)
Definition unitedScreensRect (pf : Platform) (imgs : list CanvasImage) : QRect :=
  fold_left (fun acc c => QRect.united acc (virtualScreenRect pf c)) imgs QRect.null.

(** Body of the inner loop [for (int i2 = i; ...)]. *)
Definition shiftOne (imgs : list CanvasImage) (p : QPoint)
    (newWidth newHeight deltaX deltaY : Z) (pts : list QPoint) (i2 : nat) : list QPoint :=
  match nth_error imgs i2 with
  | None => pts
  | Some c2 =>
      let point := QRectF.topLeft (ci_rect c2) in
      let pts1 :=
        if qleb (ofInt (newWidth + px p - deltaX)) (fx point)
        then updateAt i2 (fun q => setX q (px q + deltaX)) pts else pts in
      if qleb (ofInt (newHeight + py p - deltaY)) (fy point)
      then updateAt i2 (fun q => setY q (py q + deltaY)) pts1 else pts1
  end.

(** Body of the outer loop of "compute coordinates after scaling". *)
Definition shiftAfter (imgs : list CanvasImage) (pts : list QPoint) (i : nat) : list QPoint :=
  match nth_error imgs i with
  | None => pts
  | Some c =>
      let p := screenPos c in
      let size := img_size (ci_image c) in
      let dpr := img_dpr (ci_image c) in
      if negb (qFuzzyCompare dpr 1%Q) then
        let newWidth := wd size in
        let newHeight := ht size in
        let deltaX := newWidth - wd size in
        let deltaY := newHeight - ht size in
        fold_left (shiftOne imgs p newWidth newHeight deltaX deltaY)
                  (seq i (length imgs - i)) pts
      else pts
  end.

Definition translatedPoints (imgs : list CanvasImage) : list QPoint :=
  fold_left (shiftAfter imgs) (seq 0 (length imgs)) (map screenPos imgs).

(** The draw calls of the last loop: every image, with its device-pixel ratio
    reset to 1, at its translated point relative to the canvas origin. *)
Definition paintScreens (origin : QPoint) (imgs : list CanvasImage) (pts : list QPoint) : list Draw :=
  map (fun '(c, tp) => DrawAt (pt_sub tp origin) (QImage.setDevicePixelRatio (ci_image c) 1%Q))
      (combine imgs pts).

(** [operator==(const QRectF &, const QRectF &)] of Qt 5 compares the four
    components with [qFuzzyCompare]. *)
Definition rectF_eqb (a b : QRectF) : bool :=
  qFuzzyCompare (xp a) (xp b) && qFuzzyCompare (yp a) (yp b)
  && qFuzzyCompare (fw a) (fw b) && qFuzzyCompare (fh a) (fh b).

Definition setScreenImages (pf : Platform) (st : State) (imgs : list CanvasImage)
  : State * list Effect :=
  let sr := unitedScreensRect pf imgs in
  let pts := translatedPoints imgs in
  let img := mkCanvas (QRect.size sr) 1%Q (paintScreens (QRect.topLeft sr) imgs pts) in
  let changed := negb (rectF_eqb (screensRect st) (QRectF.ofRect sr)) in
  (mkState (selection st) img imgs (devicePixelRatio st)
           (if changed then QRectF.ofRect sr else screensRect st)
           (devicePixel st) (disableArrowKeys st),
   (if changed then [ScreensRectChanged] else []) ++ [ScreenImagesChanged]).

(** *** acceptSelection *)

(** [QRectF::toAlignedRect]: floor of the top-left, ceiling of the bottom-right. *)
Definition toAlignedRect (r : QRectF) : QRect :=
  let xmin := Qfloor (xp r) in
  let xmax := Qceiling (xp r + fw r)%Q in
  let ymin := Qfloor (yp r) in
  let ymax := Qceiling (yp r + fh r)%Q in
  QRect.make xmin ymin (xmax - xmin) (ymax - ymin).

(** [QRectF(topLeft * f, size * f)] *)
Definition scaledF (r : QRectF) (f : qreal) : QRectF :=
  mkRectF (xp r * f)%Q (yp r * f)%Q (fw r * f)%Q (fh r * f)%Q.

(** The loop over [d->screenImages] of the Wayland case, with its early
    return; [out] is the [output] image painted so far. *)
Fixpoint cropScreens (selectionRect : QRect) (maxDpr : qreal) (out : Canvas)
    (l : list CanvasImage) : Grab :=
  match l with
  | [] => GrabCanvas out
  | it :: rest =>
      let screenRect := QRectF.toRect (ci_rect it) in
      if QRect.intersects selectionRect screenRect then
        let pos := QRect.topLeft screenRect in
        let dpr := img_dpr (ci_image it) in
        let intersected := QRect.intersected screenRect selectionRect in
        let screenOutput := QImage.copy (ci_image it) (pixelOnScreen intersected pos dpr) in
        if size_eqb (QRect.size intersected) (QRect.size selectionRect) then
          GrabImage (QImage.setDevicePixelRatio screenOutput dpr)
        else
          let out' := mkCanvas (cv_size out) maxDpr
                        (cv_draws out ++ [DrawInto (compositeTarget intersected selectionRect maxDpr)
                                                   screenOutput]) in
          cropScreens selectionRect maxDpr out' rest
      else cropScreens selectionRect maxDpr out rest
  end.

Section WithGeometry.

(** [Geometry::rectClipped] is declared in Geometry.h, which is not among the
    sources; the X11 case takes it as a parameter. *)
Variable rectClipped : QRectF -> QRectF -> QRectF.

Definition acceptSelection (env : Env) (st : State) (actions : Z)
  : bool * State * list Effect :=
  match screenImages st with
  | [] => (false, st, [])
  | _ :: _ =>
      let selectionRect0 := QRectF.normalized (selection st) in
      let e1 := if rememberAlways env then [SetCropRegion (toAlignedRect selectionRect0)] else [] in
      let selectionRect := if QRectF.isEmpty selectionRect0 then screensRect st else selectionRect0 in
      let e2 := [CropCanvas selectionRect] in
      match platform env with
      | X11 =>
          let img := mkCanvas (cv_size (image st)) (appDpr env) (cv_draws (image st)) in
          let st' := mkState (selection st) img (screenImages st) (devicePixelRatio st)
                             (screensRect st) (devicePixel st) (disableArrowKeys st) in
          let imageCropRegion :=
            QRectF.toRect (rectClipped (scaledF selectionRect (devicePixelRatio st))
                                       (scaledF (screensRect st) (devicePixelRatio st))) in
          if negb (size_eqb (QRect.size imageCropRegion) (cv_size img))
          then (true, st', e1 ++ e2 ++ [GrabDone (GrabCanvasCopy img imageCropRegion) actions])
          else (true, st', e1 ++ e2 ++ [GrabDone (GrabCanvas img) actions])
      | Wayland =>
          let maxDpr := appDpr env in
          let selectionRect := QRectF.toRect (QRectF.normalized (selection st)) in
          let selectionSize := QRect.size selectionRect in
          let output := mkCanvas (size_mul selectionSize maxDpr) 1%Q [] in
          (true, st,
           e1 ++ e2 ++ [GrabDone (cropScreens selectionRect maxDpr output (screenImages st)) actions])
      end
  end.

(** *** handleArrowKey *)

(** [Geometry::dprRound(value, dpr)] and [Geometry::rectBounded(rect, bounds)]
    are declared in Geometry.h as well, and are parameters too. *)
Variable dprRound : qreal -> qreal -> qreal.
Variable rectBounded : QRectF -> QRectF -> QRectF.

Definition s_magnifierLargeStep : qreal := 15%Q.

(** [SelectionEditor::width()] and [height()]: [int] conversions of the size
    of [d->screensRect]. *)
Definition width (st : State) : Z := toInt (fw (screensRect st)).
Definition height (st : State) : Z := toInt (fh (screensRect st)).

(** [boundsLeft], [boundsRight], [boundsUp], [boundsDown] as called with
    [mouse = false]: only the returned position, [startPos] is not touched. *)
Definition boundsLeft (newTopLeftX : Z) : Z := if newTopLeftX <? 0 then 0 else newTopLeftX.
Definition boundsUp (newTopLeftY : Z) : Z := if newTopLeftY <? 0 then 0 else newTopLeftY.
Definition boundsRight (st : State) (newTopLeftX : Z) : Z :=
  let realMaxX := qRound ((ofInt (width st) - fw (selection st)) * devicePixelRatio st)%Q in
  if 0 <? newTopLeftX - realMaxX then realMaxX else newTopLeftX.
Definition boundsDown (st : State) (newTopLeftY : Z) : Z :=
  let realMaxY := qRound ((ofInt (height st) - fh (selection st)) * devicePixelRatio st)%Q in
  if 0 <? newTopLeftY - realMaxY then realMaxY else newTopLeftY.

Inductive ArrowKey := Key_Left | Key_Right | Key_Up | Key_Down.

Definition setRightF (r : QRectF) (pos : qreal) : QRectF :=
  mkRectF (xp r) (yp r) (pos - xp r)%Q (fh r).
Definition setBottomF (r : QRectF) (pos : qreal) : QRectF :=
  mkRectF (xp r) (yp r) (fw r) (pos - yp r)%Q.
Definition moveLeftF (r : QRectF) (pos : qreal) : QRectF := mkRectF pos (yp r) (fw r) (fh r).
Definition moveTopF (r : QRectF) (pos : qreal) : QRectF := mkRectF (xp r) pos (fw r) (fh r).

(** The rectangle that [handleArrowKey] hands to [selection->setRect], or
    nothing while the arrow keys are disabled. *)
Definition handleArrowKey (st : State) (key : ArrowKey) (shift alt : bool) : option QRectF :=
  if disableArrowKeys st then Datatypes.None else
  let modifySize := alt in
  let step := if shift then devicePixel st
              else dprRound s_magnifierLargeStep (devicePixelRatio st) in
  let selectionRect := selection st in
  let dpr := devicePixelRatio st in
  let px1 := devicePixel st in
  let selectionRect' :=
    match key with
    | Key_Left =>
        let newPos := boundsLeft (qRound (xp selectionRect * dpr - step)%Q) in
        if modifySize
        then QRectF.normalized (setRightF selectionRect (px1 * ofInt newPos + fw selectionRect)%Q)
        else moveLeftF selectionRect (px1 * ofInt newPos)%Q
    | Key_Right =>
        let newPos := boundsRight st (qRound (xp selectionRect * dpr + step)%Q) in
        if modifySize
        then setRightF selectionRect (px1 * ofInt newPos + fw selectionRect)%Q
        else moveLeftF selectionRect (px1 * ofInt newPos)%Q
    | Key_Up =>
        let newPos := boundsUp (qRound (yp selectionRect * dpr - step)%Q) in
        if modifySize
        then QRectF.normalized (setBottomF selectionRect (px1 * ofInt newPos + fh selectionRect)%Q)
        else moveTopF selectionRect (px1 * ofInt newPos)%Q
    | Key_Down =>
        let newPos := boundsDown st (qRound (yp selectionRect * dpr + step)%Q) in
        if modifySize
        then setBottomF selectionRect (px1 * ofInt newPos + fh selectionRect)%Q
        else moveTopF selectionRect (px1 * ofInt newPos)%Q
    end in
  Some (if modifySize then selectionRect' else rectBounded selectionRect' (screensRect st)).

End WithGeometry.


End SelectionEditor.

(** ** QuickEditor (src/QuickEditor/QuickEditor.cpp) *)

Module QuickEditor.

Definition handleRadiusMouse : Z := 9.
Definition handleRadiusTouch : Z := 12.
Definition increaseDragAreaFactor : qreal := 2%Q.
Definition minSpacingBetweenHandles : Z := 20.
Definition borderDragAreaSize : Z := 10.
Definition magnifierLargeStep : Z := 15.

(** The eleven values of [enum MouseState] that name a location (the four
    remaining enumerators are masks used only to pick a cursor shape). *)
Inductive MouseState :=
| None | Inside | Outside
| TopLeft | Top | TopRight | Right | BottomRight | Bottom | BottomLeft | Left.

Definition MouseState_eqb (a b : MouseState) : bool :=
  match a, b with
  | None, None | Inside, Inside | Outside, Outside | TopLeft, TopLeft | Top, Top
  | TopRight, TopRight | Right, Right | BottomRight, BottomRight | Bottom, Bottom
  | BottomLeft, BottomLeft | Left, Left => true
  | _, _ => false
  end.

(** A [QScreen]: its identity, its geometry and [devicePixelRatio()]. *)
Record Screen := mkScreen { sid : nat; geometry : QRect; screenDpr : qreal }.

(** What the widget reads from its surroundings: [KWindowSystem::isPlatformX11()]
    and [QGuiApplication::screens()]. *)
Record Env := mkEnv { platform : Platform; appScreens : list Screen }.

(** The eight handle midpoints [mHandlePositions[0..7]]. *)
Record Handles := mkHandles {
  h0 : QPointF; h1 : QPointF; h2 : QPointF; h3 : QPointF;
  h4 : QPointF; h5 : QPointF; h6 : QPointF; h7 : QPointF
}.

(** The fields of [QuickEditor] that the modelled methods read or write;
    [width_] and [height_] are the widget's [width()] and [height()].
    Colours, fonts, help texts and the cursor shape are left out. *)
Record State := mkState {
  mSelection : QRect;
  mStartPos : QPointF;
  mInitialTopLeft : QPointF;
  mMouseDragState : MouseState;
  mImages : list (Screen * QImage);
  mScreenToDpr : list (Screen * qreal);
  mPixmap : Canvas;
  devicePixelRatio : qreal;
  devicePixelRatioI : qreal;
  mMousePos : QPointF;
  mMagnifierAllowed : bool;
  mToggleMagnifier : bool;
  mReleaseToCapture : bool;
  mDisableArrowKeys : bool;
  mScreensRect : QRect;
  mHandlePositions : Handles;
  mHandleRadius : Z;
  width_ : Z;
  height_ : Z
}.

Definition withSelection (st : State) (r : QRect) : State :=
  mkState r (mStartPos st) (mInitialTopLeft st) (mMouseDragState st) (mImages st)
          (mScreenToDpr st) (mPixmap st) (devicePixelRatio st) (devicePixelRatioI st)
          (mMousePos st) (mMagnifierAllowed st) (mToggleMagnifier st) (mReleaseToCapture st)
          (mDisableArrowKeys st) (mScreensRect st) (mHandlePositions st) (mHandleRadius st)
          (width_ st) (height_ st).

Definition withHandles (st : State) (h : Handles) : State :=
  mkState (mSelection st) (mStartPos st) (mInitialTopLeft st) (mMouseDragState st) (mImages st)
          (mScreenToDpr st) (mPixmap st) (devicePixelRatio st) (devicePixelRatioI st)
          (mMousePos st) (mMagnifierAllowed st) (mToggleMagnifier st) (mReleaseToCapture st)
          (mDisableArrowKeys st) (mScreensRect st) h (mHandleRadius st)
          (width_ st) (height_ st).

Definition withToggleMagnifier (st : State) (b : bool) : State :=
  mkState (mSelection st) (mStartPos st) (mInitialTopLeft st) (mMouseDragState st) (mImages st)
          (mScreenToDpr st) (mPixmap st) (devicePixelRatio st) (devicePixelRatioI st)
          (mMousePos st) (mMagnifierAllowed st) b (mReleaseToCapture st)
          (mDisableArrowKeys st) (mScreensRect st) (mHandlePositions st) (mHandleRadius st)
          (width_ st) (height_ st).

Inductive Signal :=
| SetCropRegion (r : QRect)
| grabDone (g : Grab)
| grabCancelled.

(** *** mouseLocation *)

Definition sq (a : qreal) : qreal := (a * a)%Q.

(** The lambda [isPointInsideCircle]. *)
Definition isPointInsideCircle (circleCenter : QPointF) (radius : qreal) (point : QPointF) : bool :=
  qleb (sq (fx point - fx circleCenter) + sq (fy point - fy circleCenter))%Q (sq radius).

(** The lambdas [inRange] and [withinThreshold]. *)
Definition inRange (low high value : qreal) : bool := qleb low value && qleb value high.
Definition withinThreshold (offset threshold : qreal) : bool := qleb (Qabs offset) threshold.

Definition hitRadius (st : State) : qreal := (ofInt (mHandleRadius st) * increaseDragAreaFactor)%Q.

Definition insideHandle (st : State) (h : Handles -> QPointF) (pos : QPointF) : bool :=
  isPointInsideCircle (h (mHandlePositions st)) (hitRadius st) pos.

(** The part of [mouseLocation] after the eight handle tests. *)
Definition borderOrBody (sel : QRect) (pos : QPointF) : MouseState :=
  let sx := ofInt (QRect.x sel) in
  let sy := ofInt (QRect.y sel) in
  let sw := ofInt (QRect.width sel) in
  let sh := ofInt (QRect.height sel) in
  let thr := ofInt borderDragAreaSize in
  let body := if QRect.containsPoint sel (ptF_toPoint pos) then Inside else Outside in
  if (100 <=? QRect.width sel) && (100 <=? QRect.height sel) then
    let horizontal :=
      if inRange sy (sy + sh)%Q (fy pos) then
        if withinThreshold (fx pos - sx)%Q thr then Left
        else if withinThreshold (fx pos - sx - sw)%Q thr then Right
        else body
      else body in
    if inRange sx (sx + sw)%Q (fx pos) then
      if withinThreshold (fy pos - sy)%Q thr then Top
      else if withinThreshold (fy pos - sy - sh)%Q thr then Bottom
      else horizontal
    else horizontal
  else body.

Definition mouseLocation (st : State) (pos : QPointF) : MouseState :=
  if insideHandle st h0 pos then TopLeft
  else if insideHandle st h1 pos then TopRight
  else if insideHandle st h2 pos then BottomRight
  else if insideHandle st h3 pos then BottomLeft
  else if insideHandle st h4 pos then Top
  else if insideHandle st h5 pos then Right
  else if insideHandle st h6 pos then Bottom
  else if insideHandle st h7 pos then Left
  else borderOrBody (mSelection st) pos.

(** *** drawDragHandles: the handle midpoints *)

(** [painter.pen().width()] for the pen in use when the handles are drawn. *)
Definition penWidth : Z := 1.

Definition nonPositivePart (a : qreal) : qreal := if qleb 0%Q a then 0%Q else a.

Definition handlePositions (st : State) : Handles :=
  let sel := mSelection st in
  let left := ofInt (QRect.x sel) in
  let centerX := (left + ofInt (QRect.width sel) / 2)%Q in
  let right := (left + ofInt (QRect.width sel))%Q in
  let top := ofInt (QRect.y sel) in
  let centerY := (top + ofInt (QRect.height sel) / 2)%Q in
  let bottom := (top + ofInt (QRect.height sel))%Q in
  let r := ofInt (mHandleRadius st) in
  let minDragHandleSpace := ofInt (4 * mHandleRadius st + 2 * minSpacingBetweenHandles) in
  let minEdgeLength := ofInt (Z.min (QRect.width sel) (QRect.height sel)) in
  let small := qltb minEdgeLength minDragHandleSpace in
  let offset := if small then ((minDragHandleSpace - minEdgeLength) / 2)%Q else 0%Q in
  let tsr := QRect.translated (mScreensRect st) (pt_neg (QRect.topLeft (mScreensRect st))) in
  let offsetTop :=
    if small then 0%Q else nonPositivePart (top - ofInt (QRect.top tsr) - r)%Q in
  let offsetRight :=
    if small then 0%Q else nonPositivePart (ofInt (QRect.right tsr) - right - r + ofInt penWidth)%Q in
  let offsetBottom :=
    if small then 0%Q else nonPositivePart (ofInt (QRect.bottom tsr) - bottom - r + ofInt penWidth)%Q in
  let offsetLeft :=
    if small then 0%Q else nonPositivePart (left - ofInt (QRect.left tsr) - r)%Q in
  mkHandles
    (mkPointF (left - offset - offsetLeft)%Q (top - offset - offsetTop)%Q)
    (mkPointF (right + offset + offsetRight)%Q (top - offset - offsetTop)%Q)
    (mkPointF (right + offset + offsetRight)%Q (bottom + offset + offsetBottom)%Q)
    (mkPointF (left - offset - offsetLeft)%Q (bottom + offset + offsetBottom)%Q)
    (mkPointF centerX (top - offset - offsetTop)%Q)
    (mkPointF (right + offset + offsetRight)%Q centerY)
    (mkPointF centerX (bottom + offset + offsetBottom)%Q)
    (mkPointF (left - offset - offsetLeft)%Q centerY).

(** [paintEvent], as far as the state goes: the handles are laid out when
    there is a selection or a drag, and no drag is in progress. *)
Definition paintEvent (st : State) : State :=
  if negb (size_isEmpty (QRect.size (mSelection st)))
     || negb (MouseState_eqb (mMouseDragState st) None)
  then
    if MouseState_eqb (mMouseDragState st) None
    then withHandles st (handlePositions st) else st
  else st.

(** *** acceptSelection *)

(** [mImages.value(screen)]: a null image when the screen has none. *)
Fixpoint imageOf (imgs : list (Screen * QImage)) (s : Screen) : QImage :=
  match imgs with
  | [] => QImage.null
  | (s', img) :: rest => if Nat.eqb (sid s') (sid s) then img else imageOf rest s
  end.

(** The loop over [QGuiApplication::screens()] that starts from [1.0]. *)
Definition maxScreenDpr (screens : list Screen) : qreal :=
  fold_left (fun maxDpr s => if qltb maxDpr (screenDpr s) then screenDpr s else maxDpr)
            screens 1%Q.

(** The loop over [mScreenToDpr] of the Wayland case, with its early return. *)
Fixpoint cropScreens (imgs : list (Screen * QImage)) (sel : QRect) (maxDpr : qreal)
    (out : Canvas) (l : list (Screen * qreal)) : Grab :=
  match l with
  | [] => GrabCanvas out
  | (screen, dpr) :: rest =>
      let screenRect := geometry screen in
      if QRect.intersects sel screenRect then
        let pos := QRect.topLeft screenRect in
        let intersected := QRect.intersected screenRect sel in
        let screenOutput := QImage.copy (imageOf imgs screen) (pixelOnScreen intersected pos dpr) in
        if size_eqb (QRect.size intersected) (QRect.size sel) then
          GrabImage screenOutput
        else
          let dprI := (maxDpr / dpr)%Q in
          let out' := mkCanvas (cv_size out) (cv_dpr out)
                        (cv_draws out ++ [FillScaled (compositeTarget intersected sel maxDpr)
                                                     screenOutput dprI]) in
          cropScreens imgs sel maxDpr out' rest
      else cropScreens imgs sel maxDpr out rest
  end.

Definition acceptSelection (env : Env) (st : State) : list Signal :=
  let sel := mSelection st in
  if negb (QRect.isEmpty sel) then
    let dpr := devicePixelRatio st in
    let scaledCropRegion :=
      QRect.make (qRound (ofInt (QRect.x sel) * dpr)%Q) (qRound (ofInt (QRect.y sel) * dpr)%Q)
                 (qRound (ofInt (QRect.width sel) * dpr)%Q)
                 (qRound (ofInt (QRect.height sel) * dpr)%Q) in
    SetCropRegion scaledCropRegion ::
    match platform env with
    | X11 => [grabDone (GrabCanvasCopy (mPixmap st) scaledCropRegion)]
    | Wayland =>
        let maxDpr := maxScreenDpr (appScreens env) in
        let output := mkCanvas (size_mul (QRect.size sel) maxDpr) 1%Q [] in
        [grabDone (cropScreens (mImages st) sel maxDpr output (mScreenToDpr st))]
    end
  else [].

(** *** keyPressEvent *)

Inductive Key := Key_Escape | Key_Return | Key_Enter | Key_Up | Key_Left | Key_Down | Key_Right | Key_Other.

(** [(v < 0) ? 0 : v] on [int] and on [qreal], and [qMin] on [qreal]. *)
Definition atLeast0 (v : Z) : Z := if v <? 0 then 0 else v.
Definition atLeast0F (v : qreal) : qreal := if qltb v 0%Q then 0%Q else v.
Definition qMinF (a b : qreal) : qreal := if qltb a b then a else b.

Definition largeStep : qreal := ofInt magnifierLargeStep.

Definition arrowUp (st : State) (shift alt : bool) : QRect :=
  let sel := mSelection st in
  let dpr := devicePixelRatio st in
  let dprI := devicePixelRatioI st in
  if alt then
    let r :=
      if shift then QRect.setBottom sel (atLeast0 (QRect.bottom sel - 1))
      else
        let newScaledBottom := (ofInt (QRect.bottom sel) * dpr - largeStep)%Q in
        QRect.setBottom sel (qRound (dprI * atLeast0F newScaledBottom)%Q) in
    QRect.normalized r
  else
    if shift then QRect.moveTop sel (atLeast0 (QRect.top sel - 1))
    else
      let newScaledTop := (ofInt (QRect.top sel) * dpr - largeStep)%Q in
      QRect.moveTop sel (qRound (dprI * atLeast0F newScaledTop)%Q).

Definition arrowLeft (st : State) (shift alt : bool) : QRect :=
  let sel := mSelection st in
  let dpr := devicePixelRatio st in
  let dprI := devicePixelRatioI st in
  if alt then
    let r :=
      if shift then QRect.setRight sel (atLeast0 (QRect.right sel - 1))
      else
        let newScaledRight := (ofInt (QRect.right sel) * dpr - largeStep)%Q in
        QRect.setRight sel (qRound (dprI * atLeast0F newScaledRight)%Q) in
    QRect.normalized r
  else
    if shift then QRect.moveLeft sel (atLeast0 (QRect.left sel - 1))
    else
      let newScaledLeft := (ofInt (QRect.left sel) * dpr - largeStep)%Q in
      QRect.moveLeft sel (qRound (dprI * atLeast0F newScaledLeft)%Q).

Definition arrowDown (st : State) (shift alt : bool) : QRect :=
  let sel := mSelection st in
  let dpr := devicePixelRatio st in
  let dprI := devicePixelRatioI st in
  let newBottom := QRect.bottom sel + 1 in
  let newScaledBottom := (ofInt (QRect.bottom sel) * dpr + largeStep)%Q in
  let scaledHeight := (ofInt (height_ st) * dpr)%Q in
  if alt then
    let r :=
      if shift then QRect.setBottom sel (Z.min (height_ st) newBottom)
      else QRect.setBottom sel (qRound (dprI * qMinF scaledHeight newScaledBottom)%Q) in
    QRect.normalized r
  else
    if shift then QRect.moveBottom sel (Z.min (height_ st) newBottom)
    else QRect.moveBottom sel (qRound (dprI * qMinF scaledHeight newScaledBottom)%Q).

Definition arrowRight (st : State) (shift alt : bool) : QRect :=
  let sel := mSelection st in
  let dpr := devicePixelRatio st in
  let dprI := devicePixelRatioI st in
  let newRight := QRect.right sel + 1 in
  let newScaledRight := (ofInt (QRect.right sel) * dpr + largeStep)%Q in
  let scaledWidth := (ofInt (width_ st) * dpr)%Q in
  if alt then
    let r :=
      if shift then QRect.setRight sel (Z.min (width_ st) newRight)
      else QRect.setRight sel (qRound (dprI * qMinF scaledWidth newScaledRight)%Q) in
    QRect.normalized r
  else
    if shift then QRect.moveRight sel (Z.min (width_ st) newRight)
    else QRect.moveRight sel (qRound (dprI * qMinF scaledWidth newScaledRight)%Q).

Definition arrowKey (st : State) (arrow : State -> bool -> bool -> QRect) (shift alt : bool)
  : State :=
  if mDisableArrowKeys st then st else withSelection st (arrow st shift alt).

Definition keyPressEvent (env : Env) (st : State) (key : Key) (shift alt : bool)
  : State * list Signal :=
  let st1 := if shift then withToggleMagnifier st true else st in
  match key with
  | Key_Escape => (st1, [grabCancelled])
  | Key_Return | Key_Enter => (st1, acceptSelection env st1)
  | Key_Up => (arrowKey st1 arrowUp shift alt, [])
  | Key_Left => (arrowKey st1 arrowLeft shift alt, [])
  | Key_Down => (arrowKey st1 arrowDown shift alt, [])
  | Key_Right => (arrowKey st1 arrowRight shift alt, [])
  | Key_Other => (st1, [])
  end.

Definition keyReleaseEvent (st : State) (shift : bool) : State :=
  if mToggleMagnifier st && negb shift then withToggleMagnifier st false else st.

(** *** Mouse events *)

Inductive Button := LeftButton | RightButton | OtherButton.

Definition mousePressEvent (st : State) (button : Button) (synthesized : bool) (pos : QPoint)
  : State :=
  let radius := if synthesized then handleRadiusTouch else handleRadiusMouse in
  let st0 :=
    mkState (mSelection st) (mStartPos st) (mInitialTopLeft st) (mMouseDragState st) (mImages st)
            (mScreenToDpr st) (mPixmap st) (devicePixelRatio st) (devicePixelRatioI st)
            (mMousePos st) (mMagnifierAllowed st) (mToggleMagnifier st) (mReleaseToCapture st)
            (mDisableArrowKeys st) (mScreensRect st) (mHandlePositions st) radius
            (width_ st) (height_ st) in
  match button with
  | LeftButton =>
      let mousePos := ptF_ofPoint pos in
      let sel := mSelection st0 in
      let drag := mouseLocation st0 mousePos in
      let startPos :=
        match drag with
        | Outside | Inside => mousePos
        | Top | Left | TopLeft => ptF_ofPoint (QRect.bottomRight sel)
        | Bottom | Right | BottomRight => ptF_ofPoint (QRect.topLeft sel)
        | TopRight => ptF_ofPoint (QRect.bottomLeft sel)
        | BottomLeft => ptF_ofPoint (QRect.topRight sel)
        | None => mStartPos st0
        end in
      let initialTopLeft :=
        match drag with
        | Inside => ptF_ofPoint (QRect.topLeft sel)
        | _ => mInitialTopLeft st0
        end in
      let magnifierAllowed := match drag with Inside => false | _ => true end in
      mkState sel startPos initialTopLeft drag (mImages st0)
              (mScreenToDpr st0) (mPixmap st0) (devicePixelRatio st0) (devicePixelRatioI st0)
              mousePos magnifierAllowed (mToggleMagnifier st0) (mReleaseToCapture st0)
              true (mScreensRect st0) (mHandlePositions st0) radius
              (width_ st0) (height_ st0)
  | _ => st0
  end.

(** The selection that [mouseMoveEvent] computes for a corner drag. *)
Definition dragCorner (st : State) (mousePos : QPointF) : QRect :=
  let start := mStartPos st in
  let afterX := qleb (fx start) (fx mousePos) in
  let afterY := qleb (fy start) (fy mousePos) in
  QRect.setRect
    (toInt (if afterX then fx start else fx mousePos))
    (toInt (if afterY then fy start else fy mousePos))
    (toInt (Qabs (fx mousePos - fx start) + (if afterX then devicePixelRatioI st else 0))%Q)
    (toInt (Qabs (fy mousePos - fy start) + (if afterY then devicePixelRatioI st else 0))%Q).

(** ... for drawing a new selection ([MouseState::Outside]). *)
Definition dragOutside (st : State) (mousePos : QPointF) : QRect :=
  let start := mStartPos st in
  QRect.setRect
    (toInt (qMinF (fx mousePos) (fx start)))
    (toInt (qMinF (fy mousePos) (fy start)))
    (toInt (Qabs (fx mousePos - fx start) + devicePixelRatioI st)%Q)
    (toInt (Qabs (fy mousePos - fy start) + devicePixelRatioI st)%Q).

(** ... for dragging the top or bottom edge. *)
Definition dragVertical (st : State) (mousePos : QPointF) : QRect :=
  let start := mStartPos st in
  let afterY := qleb (fy start) (fy mousePos) in
  QRect.setRect
    (QRect.x (mSelection st))
    (toInt (if afterY then fy start else fy mousePos))
    (QRect.width (mSelection st))
    (toInt (Qabs (fy mousePos - fy start) + (if afterY then devicePixelRatioI st else 0))%Q).

(** ... for dragging the left or right edge. *)
Definition dragHorizontal (st : State) (mousePos : QPointF) : QRect :=
  let start := mStartPos st in
  let afterX := qleb (fx start) (fx mousePos) in
  QRect.setRect
    (toInt (if afterX then fx start else fx mousePos))
    (QRect.y (mSelection st))
    (toInt (Qabs (fx mousePos - fx start) + (if afterX then devicePixelRatioI st else 0))%Q)
    (QRect.height (mSelection st)).

Definition translatedScreensRect (st : State) : QRect :=
  QRect.translated (mScreensRect st) (pt_neg (QRect.topLeft (mScreensRect st))).

(** ... for moving the selection ([MouseState::Inside]). *)
Definition dragInside (st : State) (mousePos : QPointF) : QRect :=
  let newTopLeft :=
    ptF_toPoint (ptF_mul (ptF_add (ptF_sub mousePos (mStartPos st)) (mInitialTopLeft st))
                         (devicePixelRatio st)) in
  let newRect :=
    QRect.ofPointSize newTopLeft (size_mul (QRect.size (mSelection st)) (devicePixelRatio st)) in
  let tsr := translatedScreensRect st in
  let newTopLeft' :=
    if negb (QRect.contains tsr newRect) then
      mkPoint (Z.min (QRect.right tsr - QRect.width newRect) (Z.max (px newTopLeft) (QRect.left tsr)))
              (Z.min (QRect.bottom tsr - QRect.height newRect) (Z.max (py newTopLeft) (QRect.top tsr)))
    else newTopLeft in
  QRect.moveTo (mSelection st) (pt_mul newTopLeft' (devicePixelRatioI st)).

Definition mouseMoveEvent (st : State) (pos : QPoint) : State :=
  let mousePos := ptF_ofPoint pos in
  let sel :=
    match mMouseDragState st with
    | None => mSelection st
    | TopLeft | TopRight | BottomRight | BottomLeft => dragCorner st mousePos
    | Outside => dragOutside st mousePos
    | Top | Bottom => dragVertical st mousePos
    | Right | Left => dragHorizontal st mousePos
    | Inside => dragInside st mousePos
    end in
  let magnifierAllowed :=
    match mMouseDragState st with None | Inside => false | _ => true end in
  mkState sel (mStartPos st) (mInitialTopLeft st) (mMouseDragState st) (mImages st)
          (mScreenToDpr st) (mPixmap st) (devicePixelRatio st) (devicePixelRatioI st)
          mousePos magnifierAllowed (mToggleMagnifier st) (mReleaseToCapture st)
          (mDisableArrowKeys st) (mScreensRect st) (mHandlePositions st) (mHandleRadius st)
          (width_ st) (height_ st).

Definition mouseReleaseEvent (env : Env) (st : State) (button : Button) : State * list Signal :=
  let finish (sel : QRect) (disableArrowKeys : bool) :=
    mkState sel (mStartPos st) (mInitialTopLeft st) None (mImages st)
            (mScreenToDpr st) (mPixmap st) (devicePixelRatio st) (devicePixelRatioI st)
            (mMousePos st) (mMagnifierAllowed st) (mToggleMagnifier st) (mReleaseToCapture st)
            disableArrowKeys (mScreensRect st) (mHandlePositions st) (mHandleRadius st)
            (width_ st) (height_ st) in
  match button with
  | LeftButton =>
      if MouseState_eqb (mMouseDragState st) Outside && mReleaseToCapture st
      then (st, acceptSelection env st)
      else (finish (mSelection st) false, [])
  | RightButton =>
      (finish (QRect.setHeight (QRect.setWidth (mSelection st) 0) 0) (mDisableArrowKeys st), [])
  | OtherButton => (finish (mSelection st) (mDisableArrowKeys st), [])
  end.

Definition mouseDoubleClickEvent (env : Env) (st : State) (button : Button) (pos : QPoint)
  : list Signal :=
  match button with
  | LeftButton => if QRect.containsPoint (mSelection st) pos then acceptSelection env st else []
  | _ => []
  end.

(** *** computeCoordinatesAfterScaling and the construction of the widget *)

Section Construction.

(** [ComparableQPoint::operator<] orders the keys of the two [QMap]s; its
    header is not among the sources, so the order is a parameter. *)
Variable pointLt : QPoint -> QPoint -> bool.

(** A [QMap<ComparableQPoint, V>] as the list of its entries in key order. *)
Fixpoint qmapInsert {V : Type} (k : QPoint) (v : V) (m : list (QPoint * V)) : list (QPoint * V) :=
  match m with
  | [] => [(k, v)]
  | (k', v') :: rest =>
      if pointLt k k' then (k, v) :: m
      else if pointLt k' k then (k', v') :: qmapInsert k v rest
      else (k, v) :: rest
  end.

Definition sameKey (a b : QPoint) : bool := negb (pointLt a b) && negb (pointLt b a).

(** [QMap::value(key)] with the default-constructed point for a missing key. *)
Fixpoint qmapValue (m : list (QPoint * QPoint)) (k : QPoint) : QPoint :=
  match m with
  | [] => mkPoint 0 0
  | (k', v) :: rest => if sameKey k' k then v else qmapValue rest k
  end.

(** [QMap::constFind(key)]: the entries from that key to the end. *)
Fixpoint qmapFrom {V : Type} (m : list (QPoint * V)) (k : QPoint) : list (QPoint * V) :=
  match m with
  | [] => []
  | (k', v) :: rest => if sameKey k' k then m else qmapFrom rest k
  end.

(** Body of the inner loop [for (auto i2 = outputsRect.constFind(p); ...)]. *)
Definition shiftOne (p : QPoint) (newWidth newHeight deltaX deltaY : Z)
    (translationMap : list (QPoint * QPoint)) (e2 : QPoint * (qreal * QSize))
  : list (QPoint * QPoint) :=
  let point := fst e2 in
  let finalPoint := qmapValue translationMap point in
  let finalPoint1 :=
    if newWidth + px p - deltaX <=? px point
    then setX finalPoint (px finalPoint + deltaX) else finalPoint in
  let finalPoint2 :=
    if newHeight + py p - deltaY <=? py point
    then setY finalPoint1 (py finalPoint1 + deltaY) else finalPoint1 in
  qmapInsert point finalPoint2 translationMap.

Definition shiftAfter (outputsRect : list (QPoint * (qreal * QSize)))
    (translationMap : list (QPoint * QPoint)) (e : QPoint * (qreal * QSize))
  : list (QPoint * QPoint) :=
  let p := fst e in
  let size := snd (snd e) in
  let dpr := fst (snd e) in
  if negb (qFuzzyCompare dpr 1%Q) then
    let newWidth := wd size in
    let newHeight := ht size in
    let deltaX := newWidth - wd size in
    let deltaY := newHeight - ht size in
    fold_left (shiftOne p newWidth newHeight deltaX deltaY) (qmapFrom outputsRect p) translationMap
  else translationMap.

Definition computeCoordinatesAfterScaling (outputsRect : list (QPoint * (qreal * QSize)))
  : list (QPoint * QPoint) :=
  let translationMap :=
    fold_left (fun m e => qmapInsert (fst e) (fst e) m) outputsRect [] in
  fold_left (shiftAfter outputsRect) outputsRect translationMap.

(** [preparePaint]: the ratio of every screen and the union of the virtual
    screen rectangles.  The ratio is the exact quotient; the code's
    [double] quotient and the roundings after it are the same when the
    image's width and height are whole multiples of the screen's (ratios 1,
    2, ...), as in every evaluated scenario.  [preparePaintWith] below
    leaves the two floating-point steps open. *)
Definition imageDpr (s : Screen) (img : QImage) : qreal :=
  (ofInt (wd (img_size img)) / ofInt (QRect.width (geometry s)))%Q.

Definition virtualScreenRect (pf : Platform) (s : Screen) (img : QImage) : QRect :=
  match pf with
  | X11 => QRect.ofPointSize (QRect.topLeft (geometry s)) (img_size img)
  | Wayland => QRect.ofPointSize (QRect.topLeft (geometry s))
                 (size_div (img_size img) (imageDpr s img))
  end.

Definition preparePaint (pf : Platform) (images : list (Screen * QImage))
  : list (Screen * qreal) * QRect :=
  (map (fun '(s, img) => (s, imageDpr s img)) images,
   fold_left (fun acc '(s, img) => QRect.united acc (virtualScreenRect pf s img))
             images QRect.null).

(** [createPixmapFromScreens]: the map handed to
    [computeCoordinatesAfterScaling] and the draw calls on [mPixmap]. *)
Definition scalingInput (images : list (Screen * QImage)) : list (QPoint * (qreal * QSize)) :=
  fold_left (fun m '(s, img) =>
               qmapInsert (QRect.topLeft (geometry s)) (imageDpr s img, img_size img) m)
            images [].

Definition createPixmapFromScreens (screensRect : QRect) (images : list (Screen * QImage))
  : Canvas :=
  let pointsTranslationMap := computeCoordinatesAfterScaling (scalingInput images) in
  mkCanvas (QRect.size screensRect) 1%Q
    (map (fun '(s, img) =>
            DrawAt (pt_sub (qmapValue pointsTranslationMap (QRect.topLeft (geometry s)))
                           (QRect.topLeft screensRect)) img)
         images).

(** The constructor's inputs: the captured images, whether a PlasmaShell is
    present, the widget's [devicePixelRatioF()], and the settings it reads.
    [savedRegion] is [QRect(savedRect[0], ..., savedRect[3])] as built from
    [Settings::cropRegion()]; the rectangles of the restoring step are
    computed without wrap-around, so they are the code's as long as every
    coordinate and extent fits an [int] ([QuickNotions.fitsInt]). *)
Record Config := mkConfig {
  images : list (Screen * QImage);
  plasmashell : bool;
  widgetDpr : qreal;
  rememberRegion : bool;
  savedRegion : QRect;
  useReleaseToCapture : bool
}.

Definition origin : QPointF := mkPointF 0%Q 0%Q.

Definition construct (env : Env) (cfg : Config) : State :=
  let dpr := if plasmashell cfg then 1%Q else widgetDpr cfg in
  let dprI := (1 / dpr)%Q in
  let '(screenToDpr, screensRect) := preparePaint (platform env) (images cfg) in
  let pixmap := createPixmapFromScreens screensRect (images cfg) in
  let '(w, h) :=
    match platform env with
    | X11 => (qRound (ofInt (QRect.width screensRect) / dpr)%Q,
              qRound (ofInt (QRect.height screensRect) / dpr)%Q)
    | Wayland => (QRect.width screensRect, QRect.height screensRect)
    end in
  let cropRegion := savedRegion cfg in
  let sel :=
    if rememberRegion cfg && negb (QRect.isEmpty cropRegion) then
      QRect.intersected
        (QRect.make (toInt (ofInt (QRect.x cropRegion) * dprI)%Q)
                    (toInt (ofInt (QRect.y cropRegion) * dprI)%Q)
                    (toInt (ofInt (QRect.width cropRegion) * dprI)%Q)
                    (toInt (ofInt (QRect.height cropRegion) * dprI)%Q))
        (QRect.make 0 0 w h)
    else QRect.null in
  mkState sel origin origin None (images cfg) screenToDpr pixmap dpr dprI origin
          false false (useReleaseToCapture cfg) false screensRect
          (mkHandles origin origin origin origin origin origin origin origin)
          handleRadiusMouse w h.

End Construction.

(** [preparePaint] with its two floating-point steps left open: [ratio w gw]
    stands for [w / static_cast<qreal>(gw)] and [sizeOver] for
    [operator/(const QSize &, qreal)], as the code computes them in
    [double].  With the exact quotient and [size_div] it is [preparePaint]. *)
Section Doubles.

Variable ratio : Z -> Z -> qreal.
Variable sizeOver : QSize -> qreal -> QSize.

Definition imageDprWith (s : Screen) (img : QImage) : qreal :=
  ratio (wd (img_size img)) (QRect.width (geometry s)).

Definition virtualScreenRectWith (pf : Platform) (s : Screen) (img : QImage) : QRect :=
  match pf with
  | X11 => QRect.ofPointSize (QRect.topLeft (geometry s)) (img_size img)
  | Wayland => QRect.ofPointSize (QRect.topLeft (geometry s))
                 (sizeOver (img_size img) (imageDprWith s img))
  end.

Definition preparePaintWith (pf : Platform) (images : list (Screen * QImage))
  : list (Screen * qreal) * QRect :=
  (map (fun '(s, img) => (s, imageDprWith s img)) images,
   fold_left (fun acc '(s, img) => QRect.united acc (virtualScreenRectWith pf s img))
             images QRect.null).

End Doubles.

Definition exactRatio (w gw : Z) : qreal := (ofInt w / ofInt gw)%Q.

(** *** The editor as a machine driven by events *)

Inductive Event :=
| KeyPress (key : Key) (shift alt : bool)
| KeyRelease (shift : bool)
| MousePress (button : Button) (synthesized : bool) (pos : QPoint)
| MouseMove (pos : QPoint)
| MouseRelease (button : Button)
| MouseDoubleClick (button : Button) (pos : QPoint)
| Paint.

Definition handle (env : Env) (st : State) (e : Event) : State * list Signal :=
  match e with
  | KeyPress key shift alt => keyPressEvent env st key shift alt
  | KeyRelease shift => (keyReleaseEvent st shift, [])
  | MousePress button synthesized pos => (mousePressEvent st button synthesized pos, [])
  | MouseMove pos => (mouseMoveEvent st pos, [])
  | MouseRelease button => mouseReleaseEvent env st button
  | MouseDoubleClick button pos => (st, mouseDoubleClickEvent env st button pos)
  | Paint => (paintEvent st, [])
  end.

(** The state after a sequence of events (the signals are dropped). *)
Definition run (env : Env) (st : State) (es : list Event) : State :=
  fold_left (fun s e => fst (handle env s e)) es st.

(** *** setMouseCursor *)

(** The enumerators of [enum MouseState : short] as the header gives them, and
    the four masks built from them with [&]. *)
Definition code (m : MouseState) : Z :=
  match m with
  | None => 0 | Inside => 1 | Outside => 2
  | TopLeft => 5 | Top => 17 | TopRight => 9 | Right => 33
  | BottomRight => 6 | Bottom => 18 | BottomLeft => 10 | Left => 34
  end.

Definition TopLeftOrBottomRight : Z := Z.land (code TopLeft) (code BottomRight).
Definition TopRightOrBottomLeft : Z := Z.land (code TopRight) (code BottomLeft).
Definition TopOrBottom : Z := Z.land (code Top) (code Bottom).
Definition RightOrLeft : Z := Z.land (code Right) (code Left).

Inductive CursorShape :=
| CrossCursor | SizeFDiagCursor | SizeBDiagCursor | SizeVerCursor | SizeHorCursor
| OpenHandCursor | ClosedHandCursor.

(** The shape that [setMouseCursor] passes to [setCursor]; a mask test
    [mask & mouseState] is true when the result is not 0. *)
Definition cursorFor (mouseState : MouseState) : CursorShape :=
  if MouseState_eqb mouseState Outside then CrossCursor
  else if negb (Z.land TopLeftOrBottomRight (code mouseState) =? 0) then SizeFDiagCursor
  else if negb (Z.land TopRightOrBottomLeft (code mouseState) =? 0) then SizeBDiagCursor
  else if negb (Z.land TopOrBottom (code mouseState) =? 0) then SizeVerCursor
  else if negb (Z.land RightOrLeft (code mouseState) =? 0) then SizeHorCursor
  else OpenHandCursor.

Definition setMouseCursor (st : State) (pos : QPointF) : CursorShape :=
  cursorFor (mouseLocation st pos).

(** *** drawMagnifier: the magnified source square *)

Definition magZoom : Z := 5.
Definition magPixels : Z := 16.
Definition magOffset : Z := 32.

(** One axis of the source square: from the pointer coordinate and the
    pixmap's extent, the start ([magX], [magY]) and the offset ([offsetX],
    [offsetY]) by which it was pushed back into the pixmap. *)
Definition magnifierAxis (st : State) (mouse : qreal) (extent : Z) : Z * Z :=
  let pixels := 2 * magPixels + 1 in
  let mag := toInt (mouse * devicePixelRatio st - ofInt magPixels)%Q in
  if mag <? 0 then (0, mag)
  else
    let maxV := extent - pixels in
    if maxV <? mag then (maxV, mag - maxV) else (mag, 0).

Definition magnifierX (st : State) : Z * Z :=
  magnifierAxis st (fx (mMousePos st)) (wd (cv_size (mPixmap st))).
Definition magnifierY (st : State) : Z * Z :=
  magnifierAxis st (fy (mMousePos st)) (ht (cv_size (mPixmap st))).

(** One axis of the place the magnifier is drawn at ([drawPosX], [drawPosY]);
    [pixels * magZoom / 2] is an [int] division. *)
Definition magnifierDrawPos (mouse : qreal) (extent : Z) : qreal :=
  let pixels := 2 * magPixels + 1 in
  let half := Z.quot (pixels * magZoom) 2 in
  let drawPos := (mouse + ofInt magOffset + ofInt half)%Q in
  if qltb (ofInt (extent - half)) drawPos
  then (mouse - ofInt magOffset - ofInt half)%Q
  else drawPos.

(** *** drawSelectionSizeTooltip: the place of the size label *)

Definition selectionSizeThreshold : Z := 100.
Definition selectionBoxPaddingX : Z := 5.
Definition selectionBoxPaddingY : Z := 4.
Definition selectionBoxMarginY : Z := 5.

(** [qBound(min, val, max)] of Qt: [qMax(min, qMin(max, val))]. *)
Definition qBound (lo val hi : Z) : Z := Z.max lo (Z.min hi val).

(** [textW] and [textH] are the width and height of [selectionSizeTextRect],
    which the painter's font metrics give. *)
Definition selectionBoxX (st : State) (textW : Z) : Z :=
  let selectionBoxWidth := textW + selectionBoxPaddingX * 2 in
  qBound 0
         (QRect.x (mSelection st) + Z.quot (QRect.width (mSelection st) - textW) 2
          - selectionBoxPaddingX)
         (width_ st - selectionBoxWidth).

Definition selectionBoxY (st : State) (textH : Z) (dragHandlesVisible : bool) : Z :=
  let sel := mSelection st in
  let selectionBoxHeight := textH + selectionBoxPaddingY * 2 in
  if (selectionSizeThreshold <=? QRect.width sel) && (selectionSizeThreshold <=? QRect.height sel)
  then QRect.y sel + Z.quot (QRect.height sel - textH) 2
  else if dragHandlesVisible then
    let above := toInt (fy (h4 (mHandlePositions st)) - ofInt (mHandleRadius st)
                        - ofInt selectionBoxHeight - ofInt selectionBoxMarginY)%Q in
    if above <? 0
    then toInt (fy (h6 (mHandlePositions st)) + ofInt (mHandleRadius st)
                + ofInt selectionBoxMarginY)%Q
    else above
  else
    let above := QRect.y sel - selectionBoxHeight - selectionBoxMarginY in
    if above <? 0 then QRect.y sel + QRect.height sel + selectionBoxMarginY else above.

End QuickEditor.

(** ** QtCV (the OpenCV helpers that follow QuickEditor.cpp) *)

Module QtCV.

Definition INVALID_MAT_TYPE : Z := -1.

(** OpenCV's depth codes, and [CV_MAKETYPE(depth, cn)]:
    [(depth & CV_MAT_DEPTH_MASK) + ((cn - 1) << CV_CN_SHIFT)] with
    [CV_CN_SHIFT = 3] and [CV_MAT_DEPTH_MASK = (1 << CV_CN_SHIFT) - 1]. *)
Definition CV_8U : Z := 0.
Definition CV_16U : Z := 2.
Definition CV_32F : Z := 5.
Definition CV_CN_SHIFT : Z := 3.
Definition CV_MAT_DEPTH_MASK : Z := Z.shiftl 1 CV_CN_SHIFT - 1.
Definition CV_MAKETYPE (depth cn : Z) : Z :=
  Z.land depth CV_MAT_DEPTH_MASK + Z.shiftl (cn - 1) CV_CN_SHIFT.

(** [QPixelFormat::TypeInterpretation], and the two fields of a
    [QPixelFormat] that [matType] reads. *)
Inductive TypeInterpretation := UnsignedInteger | UnsignedShort | UnsignedByte | FloatingPoint.
Record QPixelFormat := mkPixelFormat {
  typeInterpretation : TypeInterpretation;
  channelCount : Z
}.

(** [matType(QPixelFormat::TypeInterpretation)] *)
Definition matTypeOf (t : TypeInterpretation) : Z :=
  match t with
  | UnsignedByte => CV_8U
  | UnsignedShort => CV_16U
  | FloatingPoint => CV_32F
  | _ => INVALID_MAT_TYPE
  end.

(** [matType(QPixelFormat)] *)
Definition matType (pixelFormat : QPixelFormat) : Z :=
  let baseType := matTypeOf (typeInterpretation pixelFormat) in
  if baseType =? INVALID_MAT_TYPE then INVALID_MAT_TYPE
  else CV_MAKETYPE baseType (channelCount pixelFormat).

(** [qImageToMat], as far as the description of the matrix goes: nothing for
    an invalid type, otherwise the size, the type and the stride of the
    image ([image.width()], [image.height()], [image.bytesPerLine()]). *)
Record MatHeader := mkMatHeader { cols : Z; rows : Z; type_ : Z; step : Z }.

Definition qImageToMat (width height bytesPerLine : Z) (pixelFormat : QPixelFormat)
  : option MatHeader :=
  let type := matType pixelFormat in
  if type =? INVALID_MAT_TYPE then Datatypes.None
  else Some (mkMatHeader width height type bytesPerLine).

Section Rounding.

(** [cvRound] is OpenCV's rounding of a floating-point number to an [int];
    [sigmaToKSize] is taken over any such function. *)
Variable cvRound : qreal -> Z.

(** [sigmaToKSize]: [cvRound(value + 1) | 1]. *)
Definition sigmaToKSize (value : qreal) : Z := Z.lor (cvRound (value + 1)%Q) 1.

End Rounding.

End QtCV.

(** * Notions used to state the properties *)

Module Notions.

(** The ordered horizontal and vertical extents of a rectangle. *)
Definition xspan (r : QRect) : Z * Z := QRect.span (x1 r) (x2 r).
Definition yspan (r : QRect) : Z * Z := QRect.span (y1 r) (y2 r).

(** [SelectionEditor::acceptSelection], Wayland case: a screen's rectangle,
    the rectangle the selection is committed as, the image cut straight out
    of one screen, and the draw call that paints one screen's part of a
    composite. *)
Definition screenRect (it : SelectionEditor.CanvasImage) : QRect :=
  QRectF.toRect (SelectionEditor.ci_rect it).






(** The same for [QuickEditor::acceptSelection], over the entries of
    [mScreenToDpr]. *)
Definition cropRectQ (sel : QRect) (e : QuickEditor.Screen * qreal) : QRect :=
  pixelOnScreen sel (QRect.topLeft (QuickEditor.geometry (fst e))) (snd e).

Definition directCropQ (imgs : list (QuickEditor.Screen * QImage)) (sel : QRect)
    (e : QuickEditor.Screen * qreal) : QImage :=
  QImage.copy (QuickEditor.imageOf imgs (fst e)) (cropRectQ sel e).




(** The handle zones in the order the specification gives: the four corner
    handles, then the four edge handles, each with the location it stands
    for; and the first zone of that order that holds the pointer. *)
Definition handleOrder : list ((QuickEditor.Handles -> QPointF) * QuickEditor.MouseState) :=
  [ (QuickEditor.h0, QuickEditor.TopLeft); (QuickEditor.h1, QuickEditor.TopRight);
    (QuickEditor.h2, QuickEditor.BottomRight); (QuickEditor.h3, QuickEditor.BottomLeft);
    (QuickEditor.h4, QuickEditor.Top); (QuickEditor.h5, QuickEditor.Right);
    (QuickEditor.h6, QuickEditor.Bottom); (QuickEditor.h7, QuickEditor.Left) ].

Definition firstHit (st : QuickEditor.State) (pos : QPointF) : option QuickEditor.MouseState :=
  option_map snd (find (fun hz => QuickEditor.insideHandle st (fst hz) pos) handleOrder).

Definition inCornerZone (st : QuickEditor.State) (pos : QPointF) : bool :=
  QuickEditor.insideHandle st QuickEditor.h0 pos || QuickEditor.insideHandle st QuickEditor.h1 pos
  || QuickEditor.insideHandle st QuickEditor.h2 pos || QuickEditor.insideHandle st QuickEditor.h3 pos.

Definition inEdgeHandleZone (st : QuickEditor.State) (pos : QPointF) : bool :=
  QuickEditor.insideHandle st QuickEditor.h4 pos || QuickEditor.insideHandle st QuickEditor.h5 pos
  || QuickEditor.insideHandle st QuickEditor.h6 pos || QuickEditor.insideHandle st QuickEditor.h7 pos.

Definition isCorner (m : QuickEditor.MouseState) : bool :=
  match m with
  | QuickEditor.TopLeft | QuickEditor.TopRight
  | QuickEditor.BottomRight | QuickEditor.BottomLeft => true
  | _ => false
  end.

Definition isEdge (m : QuickEditor.MouseState) : bool :=
  match m with
  | QuickEditor.Top | QuickEditor.Right | QuickEditor.Bottom | QuickEditor.Left => true
  | _ => false
  end.

(** Containment of the pointer in the selection: Inside or Outside. *)
Definition body (sel : QRect) (pos : QPointF) : QuickEditor.MouseState :=
  if QRect.containsPoint sel (ptF_toPoint pos) then QuickEditor.Inside else QuickEditor.Outside.

(** A rectangle that is not inverted. *)
Definition wellFormed (r : QRect) : Prop := 0 <= QRect.width r /\ 0 <= QRect.height r.

(** The widget's own rectangle, [rect()]. *)
Definition widgetRect (st : QuickEditor.State) : QRect :=
  QRect.make 0 0 (QuickEditor.width_ st) (QuickEditor.height_ st).

(** What every handler of [QuickEditor] preserves: the reciprocal ratio is
    not negative and the selection is not inverted. *)
Definition sound (st : QuickEditor.State) : Prop :=
  (0 <= QuickEditor.devicePixelRatioI st)%Q /\ wellFormed (QuickEditor.mSelection st).

(** The four arrow keys; the edge a press without Alt moves, the edge a
    press with Alt sets, the bound of the widget on the side the key points
    to, and the step. *)
Inductive Arrow := ArrowUp | ArrowLeft | ArrowDown | ArrowRight.

Definition keyOf (a : Arrow) : QuickEditor.Key :=
  match a with
  | ArrowUp => QuickEditor.Key_Up
  | ArrowLeft => QuickEditor.Key_Left
  | ArrowDown => QuickEditor.Key_Down
  | ArrowRight => QuickEditor.Key_Right
  end.

Definition movedEdge (a : Arrow) (r : QRect) : Z :=
  match a with
  | ArrowUp => QRect.top r
  | ArrowLeft => QRect.left r
  | ArrowDown => QRect.bottom r
  | ArrowRight => QRect.right r
  end.

Definition resizedEdge (a : Arrow) (r : QRect) : Z :=
  match a with
  | ArrowUp | ArrowDown => QRect.bottom r
  | ArrowLeft | ArrowRight => QRect.right r
  end.

Definition setResizedEdge (a : Arrow) (r : QRect) (v : Z) : QRect :=
  match a with
  | ArrowUp | ArrowDown => QRect.setBottom r v
  | ArrowLeft | ArrowRight => QRect.setRight r v
  end.

Definition towardsOrigin (a : Arrow) : bool :=
  match a with ArrowUp | ArrowLeft => true | ArrowDown | ArrowRight => false end.

Definition farBound (a : Arrow) (st : QuickEditor.State) : Z :=
  match a with
  | ArrowUp | ArrowDown => QuickEditor.height_ st
  | ArrowLeft | ArrowRight => QuickEditor.width_ st
  end.

Definition stepOf (shift : bool) : Z := if shift then 1 else QuickEditor.magnifierLargeStep.

(** The images that a list of effects or signals hands to [grabDone]. *)
Definition grabbedQ (sigs : list QuickEditor.Signal) : list Grab :=
  flat_map (fun e => match e with QuickEditor.grabDone g => [g] | _ => [] end) sigs.

(** The rectangle cut from a screen's image, written out: the corner of the
    part relative to the screen's corner [pos], times the ratio and rounded;
    the part's width and height times the ratio, cut to an [int]. *)
Definition nativeRect (part : QRect) (pos : QPoint) (dpr : qreal) : QRect :=
  QRect.make (qRound (ofInt (x1 part - px pos) * dpr)%Q)
             (qRound (ofInt (y1 part - py pos) * dpr)%Q)
             (toInt (ofInt (QRect.width part) * dpr)%Q)
             (toInt (ofInt (QRect.height part) * dpr)%Q).




End Notions.

(** * Notions used to state the properties of the gestures, the painting
      and the compositor *)

Module QuickNotions.
Import QuickEditor.

(** A left press, as [mousePressEvent] handles it. *)
Definition pressed (st : State) (synthesized : bool) (p : QPoint) : State :=
  mousePressEvent st LeftButton synthesized p.

(** The smallest rectangle that holds two pixels. *)
Definition boxOf (p q : QPoint) : QRect :=
  mkRect (Z.min (px p) (px q)) (Z.min (py p) (py q)) (Z.max (px p) (px q)) (Z.max (py p) (py q)).

(** The rectangle between an anchor pixel [a] and the pointer [q]: on each
    axis it runs from the smaller to the larger coordinate, and stops one
    short of the anchor when the pointer is before the anchor. *)
Definition cornerBox (a q : QPoint) : QRect :=
  mkRect (Z.min (px a) (px q)) (Z.min (py a) (py q))
         (if px a <=? px q then px q else px a - 1)
         (if py a <=? py q then py q else py a - 1).

(** The corner of the selection that stays in place while a handle or an
    edge is dragged. *)
Definition anchorOf (drag : MouseState) (sel : QRect) : QPoint :=
  match drag with
  | Top | Left | TopLeft => QRect.bottomRight sel
  | Bottom | Right | BottomRight => QRect.topLeft sel
  | TopRight => QRect.bottomLeft sel
  | BottomLeft => QRect.topRight sel
  | _ => mkPoint 0 0
  end.

Definition isVerticalEdge (m : MouseState) : bool :=
  match m with Top | Bottom => true | _ => false end.

(** The result of dragging an edge: [cornerBox] on the axis of the edge, the
    selection's own extent on the other. *)
Definition edgeBox (drag : MouseState) (sel : QRect) (q : QPoint) : QRect :=
  let cb := cornerBox (anchorOf drag sel) q in
  if isVerticalEdge drag then mkRect (x1 sel) (y1 cb) (x2 sel) (y2 cb)
  else mkRect (x1 cb) (y1 sel) (x2 cb) (y2 sel).

Definition isKeyEvent (e : Event) : bool :=
  match e with KeyPress _ _ _ | KeyRelease _ => true | _ => false end.

Definition isLeft (b : Button) : bool := match b with LeftButton => true | _ => false end.

(** [drawDragHandles]: the room the handles need along an edge and the
    shorter edge of the selection. *)
Definition minDragHandleSpace (st : State) : Z :=
  4 * mHandleRadius st + 2 * minSpacingBetweenHandles.

Definition minEdgeLength (st : State) : Z :=
  Z.min (QRect.width (mSelection st)) (QRect.height (mSelection st)).

(** [drawMagnifier]: the side of the magnified square in source pixels
    ([pixels]) and half its side on the widget ([pixels * magZoom / 2]). *)
Definition magSide : Z := 2 * magPixels + 1.
Definition magHalf : Z := Z.quot (magSide * magZoom) 2.

(** [drawSelectionSizeTooltip]: the size of the label's box. *)
Definition selectionBoxWidth (textW : Z) : Z := textW + selectionBoxPaddingX * 2.
Definition selectionBoxHeight (textH : Z) : Z := textH + selectionBoxPaddingY * 2.

(** A [QMap] as a list of entries: a key that is present, a map that sends
    every key to itself, and a map that has every key of another one. *)
Definition hasKey {V : Type} (m : list (QPoint * V)) (k : QPoint) : Prop :=
  exists v, In (k, v) m.

Definition identityMap (m : list (QPoint * QPoint)) : Prop :=
  forall k v, In (k, v) m -> v = k.

Definition covers {V : Type} (m : list (QPoint * QPoint)) (keys : list (QPoint * V)) : Prop :=
  forall e, In e keys -> hasKey m (fst e).

(** The rectangle of a canvas, [QRect(QPoint(0, 0), size)], and a draw call
    that stays within it (a call that covers no pixel is not counted). *)
Definition canvasRect (c : Canvas) : QRect := QRect.ofPointSize (mkPoint 0 0) (cv_size c).

Definition drawnInside (c : Canvas) (d : Draw) : Prop :=
  QRect.isEmpty (drawnRect d) = false -> QRect.contains (canvasRect c) (drawnRect d) = true.

(** [SelectionEditorPrivate::boundsRight] and [boundsDown]: the largest
    position of the top-left corner, in device pixels, that they let
    through ([realMaxX], [realMaxY]). *)
Definition realMaxX (st : SelectionEditor.State) : Z :=
  qRound ((ofInt (SelectionEditor.width st) - fw (SelectionEditor.selection st))
          * SelectionEditor.devicePixelRatio st)%Q.
Definition realMaxY (st : SelectionEditor.State) : Z :=
  qRound ((ofInt (SelectionEditor.height st) - fh (SelectionEditor.selection st))
          * SelectionEditor.devicePixelRatio st)%Q.

(** The range of a 32-bit [int]; a rectangle whose corners and extents fit
    it; and the rectangle that the constructor builds from the remembered
    region before it clips it to the widget. *)
Definition isInt (z : Z) : bool := (-2147483648 <=? z) && (z <=? 2147483647).

Definition fitsInt (r : QRect) : bool :=
  isInt (x1 r) && isInt (y1 r) && isInt (x2 r) && isInt (y2 r)
  && isInt (QRect.width r) && isInt (QRect.height r).

Definition scaledRegion (dprI : qreal) (r : QRect) : QRect :=
  QRect.make (toInt (ofInt (QRect.x r) * dprI)%Q) (toInt (ofInt (QRect.y r) * dprI)%Q)
             (toInt (ofInt (QRect.width r) * dprI)%Q) (toInt (ofInt (QRect.height r) * dprI)%Q).

End QuickNotions.

(** * Inputs of the evaluated scenarios *)

Module Scenario.
Import SelectionEditor.

(** A 3840x2160 capture of a screen of logical size 1920x1080 (ratio 2) at
    the origin, and a 1920x1080 capture (ratio 1) of the screen to its right. *)
Definition hiDpi : CanvasImage :=
  mkCanvasImage (mkImage (mkSize 3840 2160) 2%Q (fun _ _ => 1))
                (mkRectF 0%Q 0%Q 1920%Q 1080%Q).
Definition loDpi : CanvasImage :=
  mkCanvasImage (mkImage (mkSize 1920 1080) 1%Q (fun _ _ => 2))
                (mkRectF 1920%Q 0%Q 1920%Q 1080%Q).

Definition blank : State :=
  mkState QRectF.null (mkCanvas (mkSize 0 0) 1%Q []) [] 1%Q QRectF.null 1%Q false.

(** A single 1920x1080 screen of ratio 1 at the origin. *)
Definition fullHd : CanvasImage :=
  mkCanvasImage (mkImage (mkSize 1920 1080) 1%Q (fun x y => x + 1920 * y))
                (mkRectF 0%Q 0%Q 1920%Q 1080%Q).

(** The editor after [setScreenImages] with that screen, holding the
    zero-area selection (500, 500, 0, 0). *)
Definition emptyOnFullHd (pf : Platform) : State :=
  fst (setScreenImages pf
         (withSelection blank (mkRectF 500%Q 500%Q 0%Q 0%Q))
         [fullHd]).

(** The same screen with the selection (100, 100, 50, 50). *)
Definition regionOnFullHd : State :=
  fst (setScreenImages Wayland
         (withSelection blank (mkRectF 100%Q 100%Q 50%Q 50%Q))
         [fullHd]).

(** The key order used when a [QuickEditor] is constructed in a scenario:
    by x, then by y. *)
Definition byXThenY (a b : QPoint) : bool :=
  (px a <? px b) || ((px a =? px b) && (py a <? py b)).

(** Three screens of logical size 1920x1080 side by side; the first two have
    ratio 1 and the third has ratio 2. *)
Definition screenA := QuickEditor.mkScreen 0 (QRect.make 0 0 1920 1080) 1%Q.
Definition screenB := QuickEditor.mkScreen 1 (QRect.make 1920 0 1920 1080) 1%Q.
Definition imageA := mkImage (mkSize 1920 1080) 1%Q (fun _ _ => 1).
Definition imageB := mkImage (mkSize 1920 1080) 1%Q (fun _ _ => 2).



(** Two screens side by side, ratio 1 and ratio 2, and the region
    (1900, 0, 100, 100) across them. *)
Definition screenB2 := QuickEditor.mkScreen 1 (QRect.make 1920 0 1920 1080) 2%Q.
Definition imageB2 := mkImage (mkSize 3840 2160) 2%Q (fun _ _ => 2).
Definition twoScreens : QuickEditor.Env := QuickEditor.mkEnv Wayland [screenA; screenB2].

(** One 1000x1000 screen of ratio 1 at the origin, under a PlasmaShell. *)
Definition square := QuickEditor.mkScreen 0 (QRect.make 0 0 1000 1000) 1%Q.
Definition squareImage := mkImage (mkSize 1000 1000) 1%Q (fun x y => x + 1000 * y).
Definition oneScreen : QuickEditor.Env := QuickEditor.mkEnv Wayland [square].

(** The editor on that screen, started with a remembered region. *)
Definition startedWith (region : QRect) : QuickEditor.State :=
  QuickEditor.construct byXThenY oneScreen
    (QuickEditor.mkConfig [(square, squareImage)] true 1%Q true region false).

(** ... with the 100x100 region (200, 200, 100, 100), after the first paint. *)
Definition hundredSquare : QuickEditor.State :=
  QuickEditor.run oneScreen (startedWith (QRect.make 200 200 100 100)) [QuickEditor.Paint].

(** A pointer on the top border of that region, between two handles. *)
Definition onTopBorder : QPointF := mkPointF 225%Q 200%Q.

(** The editor started with the whole screen as remembered region, after the
    first paint and a left press at (500, 300). *)
Definition pressedInsideFull : QuickEditor.State :=
  QuickEditor.run oneScreen (startedWith (QRect.make 0 0 1000 1000))
    [QuickEditor.Paint; QuickEditor.MousePress QuickEditor.LeftButton false (mkPoint 500 300)].

(** The editor started with a 10x10 region that touches the bottom edge. *)
Definition atBottomEdge : QuickEditor.State := startedWith (QRect.make 0 990 10 10).

(** A ratio-2 screen (3840x2160 pixels) followed by a ratio-1 screen to its
    right, for [QuickEditor]. *)
Definition screenHi := QuickEditor.mkScreen 0 (QRect.make 0 0 1920 1080) 2%Q.
Definition imageHi := mkImage (mkSize 3840 2160) 2%Q (fun _ _ => 1).
Definition mixedStart : QuickEditor.State :=
  QuickEditor.construct byXThenY (QuickEditor.mkEnv Wayland [screenHi; screenB])
    (QuickEditor.mkConfig [(screenHi, imageHi); (screenB, imageB)]
                          true 1%Q false QRect.null false).

(** The 1000x1000 screen on X11. *)
Definition oneScreenX11 : QuickEditor.Env := QuickEditor.mkEnv X11 [square].

(** [hundredSquare] after a left press at (600, 700), outside the region,
    and a move of the pointer to (450, 820). *)
Definition afterOutsideDrag : QuickEditor.State :=
  QuickEditor.mouseMoveEvent (QuickNotions.pressed hundredSquare false (mkPoint 600 700))
                             (mkPoint 450 820).

(** [hundredSquare] after a left press at (250, 250), inside the region. *)
Definition pressedInsideHundred : QuickEditor.State :=
  QuickNotions.pressed hundredSquare false (mkPoint 250 250).

(** Two ratio-1 screens side by side on X11, without a PlasmaShell. *)
Definition sideBySideX11 : QuickEditor.State :=
  QuickEditor.construct byXThenY (QuickEditor.mkEnv X11 [screenA; screenB])
    (QuickEditor.mkConfig [(screenA, imageA); (screenB, imageB)]
                          false 1%Q false QRect.null false).




(** [QuickEditor] on the ratio-1 and the ratio-2 screen, with the remembered
    region (2000, 100, 50, 50), which lies on the ratio-2 screen. *)
Definition withinB2 : QuickEditor.State :=
  QuickEditor.construct byXThenY twoScreens
    (QuickEditor.mkConfig [(screenA, imageA); (screenB2, imageB2)]
                          true 1%Q true (QRect.make 2000 100 50 50) false).

(** The editor started with a 10x10 region that touches the right edge. *)
Definition atRightEdge : QuickEditor.State := startedWith (QRect.make 990 0 10 10).

End Scenario.

(** * Properties *)

(** ** Generic facts *)

Lemma fold_left_fixed {A B : Type} (f : A -> B -> A) (l : list B) (a : A) :
  (forall x b, f x b = x) -> fold_left f l a = a.
Proof.
  intros Hf; induction l as [|b l IH]; simpl; [reflexivity|].
  rewrite Hf; exact IH.
Qed.

Lemma updateAt_fixed {A : Type} (f : A -> A) (n : nat) (l : list A) :
  (forall a, f a = a) -> updateAt n f l = l.
Proof.
  intros Hf; revert n; induction l as [|a l IH]; intros [|n]; simpl;
    try reflexivity; [rewrite Hf | rewrite IH]; reflexivity.
Qed.

Lemma setX_same (q : QPoint) : setX q (px q + 0) = q.
Proof. destruct q; unfold setX; simpl; f_equal; lia. Qed.

Lemma setY_same (q : QPoint) : setY q (py q + 0) = q.
Proof. destruct q; unfold setY; simpl; f_equal; lia. Qed.

Lemma qleb_true a b : qleb a b = true <-> (a <= b)%Q.
Proof. apply Qle_bool_iff. Qed.

Lemma qleb_false a b : qleb a b = false <-> (b < a)%Q.
Proof.
  unfold qleb. split; intros H.
  - apply Qnot_le_lt. intro Hc. apply Qle_bool_iff in Hc. congruence.
  - destruct (Qle_bool a b) eqn:E; [|reflexivity].
    apply Qle_bool_iff in E. exfalso. apply (Qlt_not_le _ _ H E).
Qed.

Lemma qltb_true a b : qltb a b = true <-> (a < b)%Q.
Proof. unfold qltb. rewrite negb_true_iff. apply (qleb_false b a). Qed.

Lemma qltb_false a b : qltb a b = false <-> (b <= a)%Q.
Proof. unfold qltb. rewrite negb_false_iff. apply (qleb_true b a). Qed.

Lemma Qfloor_unique q z : (inject_Z z <= q)%Q -> (q < inject_Z (z + 1))%Q -> Qfloor q = z.
Proof.
  intros H1 H2.
  pose proof (Qfloor_le q) as F1. pose proof (Qlt_floor q) as F2.
  assert (Qfloor q < z + 1) by (rewrite Zlt_Qlt; eapply Qle_lt_trans; eauto).
  assert (z < Qfloor q + 1) by (rewrite Zlt_Qlt; eapply Qle_lt_trans; eauto).
  lia.
Qed.

Lemma qRound_int q z : (q == inject_Z z)%Q -> qRound q = z.
Proof.
  intros H. unfold qRound. apply Qfloor_unique; rewrite H.
  - lra.
  - rewrite inject_Z_plus. change (inject_Z 1) with 1%Q. lra.
Qed.

Lemma qRound_nonneg q : (0 <= q)%Q -> 0 <= qRound q.
Proof.
  intros H. unfold qRound. change 0 with (Qfloor 0). apply Qfloor_resp_le. lra.
Qed.

Ltac zbool :=
  repeat match goal with
  | H : context [?a <? ?b] |- _ => destruct (Z.ltb_spec a b)
  | |- context [?a <? ?b] => destruct (Z.ltb_spec a b)
  | H : context [?a =? ?b] |- _ => destruct (Z.eqb_spec a b)
  | |- context [?a =? ?b] => destruct (Z.eqb_spec a b)
  | H : context [?a <=? ?b] |- _ => destruct (Z.leb_spec a b)
  | |- context [?a <=? ?b] => destruct (Z.leb_spec a b)
  end.

(** ** Containment and intersection of integer rectangles *)

Module RectFacts.
Import Notions.

Lemma span_valid a b : a <= b + 1 -> QRect.span a b = (a, b).
Proof. unfold QRect.span. intros. zbool; [lia | reflexivity]. Qed.

Lemma nonEmpty_bounds s : QRect.isEmpty s = false -> x1 s <= x2 s /\ y1 s <= y2 s.
Proof. unfold QRect.isEmpty. intros H. zbool; simpl in *; try discriminate; lia. Qed.

Lemma nonEmpty_notNull s : QRect.isEmpty s = false -> QRect.isNull s = false.
Proof.
  intros H; apply nonEmpty_bounds in H. unfold QRect.isNull.
  zbool; simpl; try reflexivity; lia.
Qed.

Lemma contains_spec r s :
  QRect.isEmpty s = false ->
  QRect.contains r s = true <->
  (QRect.isNull r = false
   /\ fst (xspan r) <= x1 s /\ x2 s <= snd (xspan r)
   /\ fst (yspan r) <= y1 s /\ y2 s <= snd (yspan r)).
Proof.
  intros Hs. pose proof (nonEmpty_notNull s Hs) as Hn. apply nonEmpty_bounds in Hs.
  unfold QRect.contains, xspan, yspan. rewrite Hn, orb_false_r.
  rewrite (span_valid (x1 s) (x2 s)), (span_valid (y1 s) (y2 s)) by lia.
  destruct (QRect.span (x1 r) (x2 r)) as [l1 r1], (QRect.span (y1 r) (y2 r)) as [t1 b1].
  destruct (QRect.isNull r); simpl; [split; [discriminate | intros [? _]; discriminate]|].
  zbool; simpl; split; intros; try discriminate; try lia; auto; repeat split; try lia.
Qed.

Lemma intersects_spec s r :
  QRect.isEmpty s = false ->
  QRect.intersects s r = true <->
  (QRect.isNull r = false
   /\ fst (xspan r) <= x2 s /\ x1 s <= snd (xspan r)
   /\ fst (yspan r) <= y2 s /\ y1 s <= snd (yspan r)).
Proof.
  intros Hs. pose proof (nonEmpty_notNull s Hs) as Hn. apply nonEmpty_bounds in Hs.
  unfold QRect.intersects, xspan, yspan. rewrite Hn. simpl.
  rewrite (span_valid (x1 s) (x2 s)), (span_valid (y1 s) (y2 s)) by lia.
  destruct (QRect.span (x1 r) (x2 r)) as [l1 r1], (QRect.span (y1 r) (y2 r)) as [t1 b1].
  destruct (QRect.isNull r); simpl; [split; [discriminate | intros [? _]; discriminate]|].
  zbool; simpl; split; intros; try discriminate; try lia; auto; repeat split; try lia.
Qed.

Lemma intersected_spec r s :
  QRect.isEmpty s = false -> QRect.intersects s r = true ->
  QRect.intersected r s
  = mkRect (Z.max (fst (xspan r)) (x1 s)) (Z.max (fst (yspan r)) (y1 s))
           (Z.min (snd (xspan r)) (x2 s)) (Z.min (snd (yspan r)) (y2 s)).
Proof.
  intros Hs Hi. apply (intersects_spec s r Hs) in Hi.
  destruct Hi as (Hr & Hx1 & Hx2 & Hy1 & Hy2).
  pose proof (nonEmpty_notNull s Hs) as Hn. apply nonEmpty_bounds in Hs.
  unfold QRect.intersected, xspan, yspan in *. rewrite Hn, Hr. simpl.
  rewrite (span_valid (x1 s) (x2 s)), (span_valid (y1 s) (y2 s)) by lia.
  destruct (QRect.span (x1 r) (x2 r)) as [l1 r1], (QRect.span (y1 r) (y2 r)) as [t1 b1].
  simpl in *. zbool; simpl; try lia. reflexivity.
Qed.

Lemma contains_intersects r s :
  QRect.isEmpty s = false -> QRect.contains r s = true -> QRect.intersects s r = true.
Proof.
  intros Hs Hc. apply (contains_spec r s Hs) in Hc. apply (intersects_spec s r Hs).
  apply nonEmpty_bounds in Hs. intuition lia.
Qed.

Lemma contains_intersected r s :
  QRect.isEmpty s = false -> QRect.contains r s = true -> QRect.intersected r s = s.
Proof.
  intros Hs Hc. rewrite (intersected_spec r s Hs (contains_intersects r s Hs Hc)).
  apply (contains_spec r s Hs) in Hc. destruct s; simpl in *. f_equal; lia.
Qed.

(** A screen that meets the selection without containing it yields an
    intersection of another size, so the short path is not taken for it. *)
Lemma partial_intersection_differs r s :
  QRect.isEmpty s = false -> QRect.intersects s r = true -> QRect.contains r s = false ->
  size_eqb (QRect.size (QRect.intersected r s)) (QRect.size s) = false.
Proof.
  intros Hs Hi Hc. rewrite (intersected_spec r s Hs Hi).
  apply (intersects_spec s r Hs) in Hi.
  destruct (size_eqb _ _) eqn:E; [|reflexivity].
  exfalso. rewrite <- not_true_iff_false in Hc. apply Hc. apply (contains_spec r s Hs).
  unfold size_eqb, QRect.size, QRect.width, QRect.height in E. simpl in E.
  apply andb_prop in E. destruct E as [E1 E2].
  apply Z.eqb_eq in E1, E2. intuition lia.
Qed.

Lemma size_eqb_refl s : size_eqb s s = true.
Proof. unfold size_eqb. rewrite !Z.eqb_refl. reflexivity. Qed.

End RectFacts.

(** ** The build step of the compositor *)

Module BuildStep.
Import SelectionEditor Scenario.

(** The inner loop adds [deltaX] and [deltaY], and both are [size - size]. *)
Lemma shiftOne_zero imgs p w h pts i2 :
  shiftOne imgs p w h 0 0 pts i2 = pts.
Proof.
  unfold shiftOne. destruct (nth_error imgs i2) as [c2|]; [|reflexivity].
  destruct (qleb _ _), (qleb _ _);
    rewrite ?(updateAt_fixed _ i2 _ setX_same), ?(updateAt_fixed _ i2 _ setY_same);
    reflexivity.
Qed.

Lemma shiftAfter_fixed imgs pts i : shiftAfter imgs pts i = pts.
Proof.
  unfold shiftAfter. destruct (nth_error imgs i) as [c|]; [|reflexivity].
  destruct (negb _); [|reflexivity].
  rewrite !Z.sub_diag. apply fold_left_fixed. intros; apply shiftOne_zero.
Qed.

(** Whatever the device-pixel ratios, no screen is ever moved: the
    translated points are the screens' own positions. *)
Lemma translatedPoints_unshifted imgs : translatedPoints imgs = map screenPos imgs.
Proof. unfold translatedPoints. apply fold_left_fixed. intros; apply shiftAfter_fixed. Qed.

(** C1 (the code departs from the claim).  On Wayland, for a ratio-2 screen
    followed by a ratio-1 screen to its right, [setScreenImages] shifts
    nothing: the second image is painted at its logical position x = 1920
    while the first one, painted at its full pixel size on a 3840x1080 canvas,
    covers x = 0..3839; the two painted areas overlap. *)
Theorem mixed_dpr_images_overlap :
  let st := fst (setScreenImages Wayland blank [hiDpi; loDpi]) in
  translatedPoints [hiDpi; loDpi] = [mkPoint 0 0; mkPoint 1920 0]
  /\ cv_size (image st) = mkSize 3840 1080
  /\ map drawnRect (cv_draws (image st))
     = [mkRect 0 0 3839 2159; mkRect 1920 0 3839 1079]
  /\ QRect.intersects (mkRect 0 0 3839 2159) (mkRect 1920 0 3839 1079) = true.
Proof. vm_compute. repeat split; reflexivity. Qed.

(** [QuickEditor::computeCoordinatesAfterScaling] has the same two lines, and
    [createPixmapFromScreens] paints the same overlap. *)
Lemma mixed_dpr_images_overlap_quick :
  QuickEditor.mScreensRect mixedStart = mkRect 0 0 3839 1079
  /\ map drawnRect (cv_draws (QuickEditor.mPixmap mixedStart))
     = [mkRect 0 0 3839 2159; mkRect 1920 0 3839 1079].
Proof. vm_compute. split; reflexivity. Qed.

End BuildStep.

(** ** Committing a selection (SelectionEditor) *)

Module Commit.
Import SelectionEditor Scenario.

(** C2 (the code departs from the claim).  On Wayland, committing the
    zero-area selection (500, 500, 0, 0) on a single 1920x1080 screen hands
    the full canvas to [cropCanvas], but the image given to [grabDone] is
    built from the selection read anew: no screen is painted and its size
    is 0x0, not 1920x1080. *)
Theorem empty_commit_on_wayland_grabs_nothing (rectClipped : QRectF -> QRectF -> QRectF) :
  let st := emptyOnFullHd Wayland in
  screensRect st = mkRectF 0%Q 0%Q 1920%Q 1080%Q
  /\ acceptSelection rectClipped (mkEnv Wayland 1%Q false) st 0
     = (true, st,
        [CropCanvas (mkRectF 0%Q 0%Q 1920%Q 1080%Q);
         GrabDone (GrabCanvas (mkCanvas (mkSize 0 0) 1%Q [])) 0]).
Proof. vm_compute. split; reflexivity. Qed.

(** The X11 case of the same method does use the substituted rectangle:
    with a zero-area selection the region cut from the combined image is the
    scaled canvas rectangle clipped by itself. *)
Lemma empty_commit_on_x11_uses_canvas rectClipped env st actions :
  platform env = X11 ->
  screenImages st <> [] ->
  QRectF.isEmpty (QRectF.normalized (selection st)) = true ->
  exists st' pre g,
    acceptSelection rectClipped env st actions
      = (true, st', pre ++ [CropCanvas (screensRect st); GrabDone g actions])
    /\ (g = GrabCanvas (image st')
        \/ g = GrabCanvasCopy (image st')
                 (QRectF.toRect (rectClipped (scaledF (screensRect st) (devicePixelRatio st))
                                             (scaledF (screensRect st) (devicePixelRatio st))))).
Proof.
  intros Hpf Hne Hemp. unfold acceptSelection.
  destruct (screenImages st) as [|c cs] eqn:Hs; [congruence|].
  rewrite Hpf, Hemp.
  destruct (negb (size_eqb _ _)); do 3 eexists; (split; [reflexivity|]); auto.
Qed.

(** [QuickEditor::acceptSelection] is guarded by [!mSelection.isEmpty()]: an
    empty selection emits nothing at all. *)
Lemma empty_commit_is_ignored_quick env st :
  QRect.isEmpty (QuickEditor.mSelection st) = true -> QuickEditor.acceptSelection env st = [].
Proof. intros H. unfold QuickEditor.acceptSelection. rewrite H. reflexivity. Qed.

(** C10.  With no screen images stored, [acceptSelection] returns false,
    emits nothing and leaves the editor as it was; with at least one screen
    image it returns true. *)
Theorem acceptSelection_needs_screen_images
    (rectClipped : QRectF -> QRectF -> QRectF) (env : Env) (st : State) (actions : Z) :
  acceptSelection rectClipped env (withScreenImages st []) actions
    = (false, withScreenImages st [], [])
  /\ forall c cs,
       fst (fst (acceptSelection rectClipped env (withScreenImages st (c :: cs)) actions))
       = true.
Proof.
  split; [reflexivity|]. intros c cs. unfold acceptSelection; simpl.
  destruct (platform env); [destruct (negb _)|]; reflexivity.
Qed.

End Commit.

(** ** The crop step of the compositor *)

Module Crop.
Import Notions RectFacts.


(** *** SelectionEditor *)



(** *** QuickEditor *)

Lemma cropScreensQ_direct imgs sel maxDpr l1 e l2 :
  QRect.isEmpty sel = false ->
  Forall (fun t => QRect.contains (QuickEditor.geometry (fst t)) sel = false) l1 ->
  QRect.contains (QuickEditor.geometry (fst e)) sel = true ->
  forall out,
    QuickEditor.cropScreens imgs sel maxDpr out (l1 ++ e :: l2)
    = GrabImage (directCropQ imgs sel e).
Proof.
  intros Hs Hl1 Hc. induction Hl1 as [|t l1 Ht _ IH]; intros out; simpl.
  - destruct e as [screen dpr]; simpl in *. rewrite (contains_intersects _ _ Hs Hc).
    rewrite (contains_intersected _ _ Hs Hc), size_eqb_refl. reflexivity.
  - destruct t as [screen dpr]; simpl in *.
    destruct (QRect.intersects sel (QuickEditor.geometry screen)) eqn:Hi.
    + rewrite (partial_intersection_differs _ _ Hs Hi Ht). apply IH.
    + apply IH.
Qed.




(** The two rectangles of the crop step, written out. *)
Lemma pixelOnScreen_written_out part pos dpr :
  pixelOnScreen part pos dpr = nativeRect part pos dpr.
Proof.
  unfold pixelOnScreen, nativeRect, QRect.setHeight, QRect.setWidth, QRect.moveTopLeft,
    QRect.moveTop, QRect.moveLeft, QRect.null, QRect.make, pt_mul, pt_sub, QRect.topLeft.
  cbn [x1 y1 x2 y2 px py]. reflexivity.
Qed.





End Crop.

(** ** Committing a selection on Wayland: composite and direct crop *)

Module CommitCrop.
Import Notions RectFacts Crop Scenario.







(** The same in [QuickEditor]: the image of the first screen that contains
    the selection, cut at the rectangle the code computes. *)
Lemma contained_selection_is_cut_from_its_screen_quick env st l1 e l2 :
  QuickEditor.platform env = Wayland ->
  QuickEditor.mScreenToDpr st = l1 ++ e :: l2 ->
  QRect.isEmpty (QuickEditor.mSelection st) = false ->
  QRect.contains (QuickEditor.geometry (fst e)) (QuickEditor.mSelection st) = true ->
  Forall (fun t => QRect.contains (QuickEditor.geometry (fst t)) (QuickEditor.mSelection st) = false)
         l1 ->
  grabbedQ (QuickEditor.acceptSelection env st)
  = [GrabImage (directCropQ (QuickEditor.mImages st) (QuickEditor.mSelection st) e)].
Proof.
  intros Hpf Hl Hs Hc Hl1. unfold QuickEditor.acceptSelection.
  rewrite Hs, Hpf, Hl. simpl.
  rewrite (cropScreensQ_direct _ _ _ l1 e l2 Hs Hl1 Hc). reflexivity.
Qed.

End CommitCrop.

(** ** The pointer location classifier (QuickEditor) *)

Module Classifier.
Import Notions Scenario QuickEditor.

Lemma borderOrBody_not_corner sel pos : isCorner (borderOrBody sel pos) = false.
Proof.
  unfold borderOrBody.
  repeat match goal with |- context [if ?c then _ else _] => destruct c end; reflexivity.
Qed.

Lemma borderOrBody_not_None sel pos : MouseState_eqb (borderOrBody sel pos) None = false.
Proof.
  unfold borderOrBody.
  repeat match goal with |- context [if ?c then _ else _] => destruct c end; reflexivity.
Qed.

(** Without a hit in any of the eight handle zones the answer is that of
    the border-or-body test. *)
Lemma mouseLocation_outside_handles st pos :
  inCornerZone st pos = false -> inEdgeHandleZone st pos = false ->
  mouseLocation st pos = borderOrBody (mSelection st) pos.
Proof.
  unfold mouseLocation, inCornerZone, inEdgeHandleZone. intros Hc He.
  repeat (apply orb_false_iff in Hc; destruct Hc as [Hc ?]).
  repeat (apply orb_false_iff in He; destruct He as [He ?]).
  repeat match goal with H : insideHandle _ _ _ = false |- _ => rewrite H; clear H end.
  reflexivity.
Qed.

(** C8.  [mouseLocation] is a total function into the location states and
    never answers [None]; it is the first hit of the handle zones taken in
    corner-then-edge order, and only without a hit the border-or-body test.
    So a pointer in a corner zone always gets a corner, and a pointer in an
    edge-handle zone but in no corner zone always gets an edge. *)
Theorem handles_shadow_edges_shadow_body (st : State) (pos : QPointF) :
  mouseLocation st pos
  = match firstHit st pos with
    | Some m => m
    | Datatypes.None => borderOrBody (mSelection st) pos
    end
  /\ MouseState_eqb (mouseLocation st pos) None = false
  /\ isCorner (mouseLocation st pos) = inCornerZone st pos
  /\ (inCornerZone st pos = false -> inEdgeHandleZone st pos = true ->
      isEdge (mouseLocation st pos) = true)
  /\ (inCornerZone st pos = false -> inEdgeHandleZone st pos = false ->
      mouseLocation st pos = borderOrBody (mSelection st) pos).
Proof.
  unfold mouseLocation, firstHit, handleOrder, inCornerZone, inEdgeHandleZone. simpl.
  pose proof (borderOrBody_not_corner (mSelection st) pos) as Hc.
  pose proof (borderOrBody_not_None (mSelection st) pos) as Hn.
  destruct (insideHandle st h0 pos), (insideHandle st h1 pos), (insideHandle st h2 pos),
    (insideHandle st h3 pos); simpl; try (repeat split; intros; (reflexivity || discriminate));
  destruct (insideHandle st h4 pos), (insideHandle st h5 pos), (insideHandle st h6 pos),
    (insideHandle st h7 pos); simpl; repeat split; intros;
    try reflexivity; try discriminate; assumption.
Qed.

Lemma handles_shadow_edges_shadow_body_witness :
  isEdge (mouseLocation hundredSquare (mkPointF 250%Q 195%Q)) = true.
Proof.
  apply (proj1 (proj2 (proj2 (proj2
           (handles_shadow_edges_shadow_body hundredSquare (mkPointF 250%Q 195%Q))))));
    reflexivity.
Defined.

(** C9, as the claim states it, fails: the selection is 100x100, so its
    smaller side does not exceed 100; the pointer is in no handle zone; and
    the answer is the border zone [Top]. *)
Lemma border_zone_at_exactly_100 :
  QRect.size (mSelection hundredSquare) = mkSize 100 100
  /\ inCornerZone hundredSquare onTopBorder = false
  /\ inEdgeHandleZone hundredSquare onTopBorder = false
  /\ mouseLocation hundredSquare onTopBorder = Top.
Proof. vm_compute. repeat split; reflexivity. Qed.

(** C9, amended.  For a pointer in no handle zone: when the width or the
    height of the selection is below 100 the answer is Inside or Outside by
    containment; an edge is answered only when both are at least 100; and
    then the strips are tested, the top one first. *)
Theorem border_zones_from_100_on (st : State) (pos : QPointF) :
  inCornerZone st pos = false ->
  inEdgeHandleZone st pos = false ->
  let sel := mSelection st in
  (Z.min (QRect.width sel) (QRect.height sel) < 100 ->
   mouseLocation st pos = body sel pos)
  /\ (isEdge (mouseLocation st pos) = true ->
      100 <= Z.min (QRect.width sel) (QRect.height sel))
  /\ (100 <= Z.min (QRect.width sel) (QRect.height sel) ->
      inRange (ofInt (QRect.x sel)) (ofInt (QRect.x sel) + ofInt (QRect.width sel))%Q (fx pos) = true ->
      withinThreshold (fy pos - ofInt (QRect.y sel))%Q (ofInt borderDragAreaSize) = true ->
      mouseLocation st pos = Top).
Proof.
  intros Hc He sel.
  rewrite (mouseLocation_outside_handles st pos Hc He). fold sel. unfold borderOrBody, body.
  destruct ((100 <=? QRect.width sel) && (100 <=? QRect.height sel)) eqn:E.
  - apply andb_prop in E. destruct E as [E1 E2]. apply Z.leb_le in E1, E2.
    split; [intros; lia|]. split; [intros; lia|].
    intros _ Hx Hy. rewrite Hx, Hy. reflexivity.
  - assert (Z.min (QRect.width sel) (QRect.height sel) < 100) as Hlt.
    { apply andb_false_iff in E. destruct E as [E|E]; apply Z.leb_gt in E; lia. }
    split; [reflexivity|]. split; [|intros; lia].
    destruct (QRect.containsPoint sel (ptF_toPoint pos)); discriminate.
Qed.

Lemma border_zones_from_100_on_witness :
  mouseLocation hundredSquare onTopBorder = Top.
Proof.
  apply (proj2 (proj2 (border_zones_from_100_on hundredSquare onTopBorder
                         eq_refl eq_refl)));
    [vm_compute; congruence | reflexivity | reflexivity].
Defined.

End Classifier.

(** ** The drag state machine (QuickEditor) *)

Module Drag.
Import Notions Scenario QuickEditor RectFacts.

Lemma toInt_nonneg q : (0 <= q)%Q -> 0 <= toInt q.
Proof.
  intros H. unfold toInt. rewrite (proj2 (Qle_bool_iff 0 q) H).
  change 0 with (Qfloor 0). apply Qfloor_resp_le, H.
Qed.

Lemma drag_extent_nonneg a b (c : bool) (dprI : qreal) :
  (0 <= dprI)%Q -> 0 <= toInt (Qabs (a - b) + (if c then dprI else 0))%Q.
Proof.
  intros H. apply toInt_nonneg.
  pose proof (Qabs_nonneg (a - b)). destruct c; lra.
Qed.

Lemma make_width l t w h : QRect.width (QRect.make l t w h) = w.
Proof. unfold QRect.width, QRect.make; simpl; lia. Qed.

Lemma make_height l t w h : QRect.height (QRect.make l t w h) = h.
Proof. unfold QRect.height, QRect.make; simpl; lia. Qed.

Lemma normalized_wellFormed r : wellFormed (QRect.normalized r).
Proof.
  unfold wellFormed, QRect.normalized, QRect.width, QRect.height.
  destruct (x2 r <? x1 r - 1) eqn:Ex, (y2 r <? y1 r - 1) eqn:Ey; simpl;
    rewrite ?Z.ltb_lt, ?Z.ltb_ge in *; lia.
Qed.

Lemma span_ordered a b : fst (QRect.span a b) <= snd (QRect.span a b) + 1.
Proof. unfold QRect.span. destruct (b - a + 1 <? 0) eqn:E; simpl;
  rewrite ?Z.ltb_lt, ?Z.ltb_ge in *; lia. Qed.

Lemma null_wellFormed : wellFormed QRect.null.
Proof. unfold wellFormed, QRect.width, QRect.height; simpl; lia. Qed.

Lemma intersected_wellFormed r s : wellFormed (QRect.intersected r s).
Proof.
  unfold QRect.intersected.
  destruct (QRect.isNull r || QRect.isNull s); [apply null_wellFormed|].
  pose proof (span_ordered (x1 r) (x2 r)) as Hxr. pose proof (span_ordered (x1 s) (x2 s)) as Hxs.
  pose proof (span_ordered (y1 r) (y2 r)) as Hyr. pose proof (span_ordered (y1 s) (y2 s)) as Hys.
  destruct (QRect.span (x1 r) (x2 r)) as [l1 r1], (QRect.span (x1 s) (x2 s)) as [l2 r2],
    (QRect.span (y1 r) (y2 r)) as [t1 b1], (QRect.span (y1 s) (y2 s)) as [t2 b2].
  simpl in *.
  destruct ((r2 <? l1) || (r1 <? l2)) eqn:Ex; [apply null_wellFormed|].
  destruct ((b2 <? t1) || (b1 <? t2)) eqn:Ey; [apply null_wellFormed|].
  apply orb_false_iff in Ex, Ey. destruct Ex as [Ex1 Ex2], Ey as [Ey1 Ey2].
  rewrite Z.ltb_ge in *.
  unfold wellFormed, QRect.width, QRect.height; simpl. lia.
Qed.

Lemma arrowUp_wellFormed st shift alt :
  wellFormed (mSelection st) -> wellFormed (arrowUp st shift alt).
Proof.
  intros [Hw Hh]. unfold arrowUp. destruct alt; [apply normalized_wellFormed|].
  destruct shift; unfold wellFormed, QRect.moveTop, QRect.width, QRect.height in *; simpl; lia.
Qed.

Lemma arrowLeft_wellFormed st shift alt :
  wellFormed (mSelection st) -> wellFormed (arrowLeft st shift alt).
Proof.
  intros [Hw Hh]. unfold arrowLeft. destruct alt; [apply normalized_wellFormed|].
  destruct shift; unfold wellFormed, QRect.moveLeft, QRect.width, QRect.height in *; simpl; lia.
Qed.

Lemma arrowDown_wellFormed st shift alt :
  wellFormed (mSelection st) -> wellFormed (arrowDown st shift alt).
Proof.
  intros [Hw Hh]. unfold arrowDown. destruct alt; [apply normalized_wellFormed|].
  destruct shift; unfold wellFormed, QRect.moveBottom, QRect.width, QRect.height in *; simpl; lia.
Qed.

Lemma arrowRight_wellFormed st shift alt :
  wellFormed (mSelection st) -> wellFormed (arrowRight st shift alt).
Proof.
  intros [Hw Hh]. unfold arrowRight. destruct alt; [apply normalized_wellFormed|].
  destruct shift; unfold wellFormed, QRect.moveRight, QRect.width, QRect.height in *; simpl; lia.
Qed.

Lemma arrowKey_sound st arrow shift alt :
  (forall s, wellFormed (mSelection s) -> wellFormed (arrow s shift alt)) ->
  sound st -> sound (arrowKey st arrow shift alt).
Proof.
  intros Ha [Hd Hw]. unfold arrowKey. destruct (mDisableArrowKeys st); [split; assumption|].
  split; [exact Hd | apply Ha, Hw].
Qed.

Lemma keyPressEvent_sound env st key shift alt :
  sound st -> sound (fst (keyPressEvent env st key shift alt)).
Proof.
  intros H. unfold keyPressEvent.
  assert (sound (if shift then withToggleMagnifier st true else st)) as H1
    by (destruct shift; exact H).
  destruct key; simpl; try exact H1; apply arrowKey_sound; auto using
    arrowUp_wellFormed, arrowLeft_wellFormed, arrowDown_wellFormed, arrowRight_wellFormed.
Qed.

(** After a pointer move the selection is not inverted: the corner and
    outside drags rebuild both extents as an absolute difference plus a
    non-negative term, the edge drags rebuild one extent and keep the other,
    and the inside drag keeps both. *)
Lemma mouseMoveEvent_sound st pos : sound st -> sound (mouseMoveEvent st pos).
Proof.
  intros [Hd [Hw Hh]]. unfold sound, mouseMoveEvent. simpl. split; [exact Hd|].
  unfold wellFormed.
  destruct (mMouseDragState st);
    unfold dragCorner, dragOutside, dragVertical, dragHorizontal, dragInside, QRect.setRect;
    rewrite ?make_width, ?make_height;
    try (split; (assumption || apply drag_extent_nonneg; assumption)).
  - (* Inside *)
    unfold QRect.moveTo, QRect.width, QRect.height in *; simpl; lia.
  - (* Outside *)
    split; apply (drag_extent_nonneg _ _ true); assumption.
Qed.

Lemma handle_sound env st e : sound st -> sound (fst (handle env st e)).
Proof.
  intros H. destruct e; simpl.
  - apply keyPressEvent_sound, H.
  - unfold keyReleaseEvent. destruct (_ && _); exact H.
  - destruct H as [Hd Hw]. unfold mousePressEvent. destruct button; split; assumption.
  - apply mouseMoveEvent_sound, H.
  - destruct H as [Hd Hw]. unfold mouseReleaseEvent.
    destruct button; [destruct (_ && _)| |]; simpl; split; try assumption.
    unfold wellFormed, QRect.setHeight, QRect.setWidth, QRect.width, QRect.height; simpl; lia.
  - exact H.
  - unfold paintEvent. destruct (_ || _); [destruct (MouseState_eqb _ _)|]; exact H.
Qed.

Lemma run_sound env es : forall st, sound st -> sound (run env st es).
Proof.
  unfold run. induction es as [|e es IH]; intros st H; simpl; [exact H|].
  apply IH, handle_sound, H.
Qed.

Lemma construct_sound pointLt env cfg :
  (0 < widgetDpr cfg)%Q -> sound (construct pointLt env cfg).
Proof.
  intros Hd. unfold construct.
  destruct (preparePaint (platform env) (images cfg)) as [screenToDpr screensRect].
  set (dpr := if plasmashell cfg then 1%Q else widgetDpr cfg).
  assert (0 < dpr)%Q as Hdpr by (subst dpr; destruct (plasmashell cfg); [reflexivity | exact Hd]).
  destruct (match platform env with
            | X11 => _
            | Wayland => _
            end) as [w h].
  split; simpl.
  - apply Qlt_le_weak. unfold Qdiv. rewrite Qmult_1_l. apply Qinv_lt_0_compat, Hdpr.
  - destruct (_ && _); [apply intersected_wellFormed | apply null_wellFormed].
Qed.

(** C6.  From the constructed editor, whatever the events so far and
    whatever the drag state they left, after a pointer-move event the
    selection has non-negative width and height. *)
Theorem selection_never_inverted
    (pointLt : QPoint -> QPoint -> bool) (env : Env) (cfg : Config)
    (es : list Event) (pos : QPoint) :
  (0 < widgetDpr cfg)%Q ->
  let st := run env (construct pointLt env cfg) (es ++ [MouseMove pos]) in
  0 <= QRect.width (mSelection st) /\ 0 <= QRect.height (mSelection st).
Proof.
  intros Hd st. apply (run_sound env (es ++ [MouseMove pos])), construct_sound, Hd.
Qed.

Lemma selection_never_inverted_witness :
  let st := run oneScreen (startedWith (QRect.make 200 200 100 100))
                ([Paint; MousePress LeftButton false (mkPoint 200 200)]
                 ++ [MouseMove (mkPoint 700 650)]) in
  0 <= QRect.width (mSelection st) /\ 0 <= QRect.height (mSelection st).
Proof.
  apply (selection_never_inverted byXThenY oneScreen
           (mkConfig [(square, squareImage)] true 1%Q true (QRect.make 200 200 100 100) false)
           [Paint; MousePress LeftButton false (mkPoint 200 200)] (mkPoint 700 650)).
  reflexivity.
Defined.

Lemma pt_mul_one p c : (c == 1)%Q -> pt_mul p c = p.
Proof.
  intros H. destruct p as [a b]. unfold pt_mul; simpl.
  rewrite (qRound_int _ a), (qRound_int _ b); [reflexivity| |]; unfold ofInt; rewrite H; ring.
Qed.

Lemma size_mul_one s c : (c == 1)%Q -> size_mul s c = s.
Proof.
  intros H. destruct s as [a b]. unfold size_mul; simpl.
  rewrite (qRound_int _ a), (qRound_int _ b); [reflexivity| |]; unfold ofInt; rewrite H; ring.
Qed.

(** X5.  Away from the boundary case the clamp does its work: at ratio 1, a
    non-empty selection that is narrower and lower than the screens'
    rectangle stays within it under an inside drag. *)
Lemma inside_drag_stays_within_when_smaller st pos :
  (devicePixelRatio st == 1)%Q -> (devicePixelRatioI st == 1)%Q ->
  QRect.isEmpty (mSelection st) = false ->
  QRect.width (mSelection st) < QRect.width (mScreensRect st) ->
  QRect.height (mSelection st) < QRect.height (mScreensRect st) ->
  QRect.contains (translatedScreensRect st) (dragInside st pos) = true.
Proof.
  intros Hd Hi Hs Hw Hh. unfold dragInside.
  rewrite (size_mul_one _ _ Hd).
  set (p := ptF_toPoint _).
  set (tsr := translatedScreensRect st).
  set (sel := mSelection st) in *.
  pose proof (nonEmpty_bounds _ Hs) as [Bx By].
  assert (Htsr : tsr = mkRect 0 0 (QRect.width (mScreensRect st) - 1)
                              (QRect.height (mScreensRect st) - 1)).
  { subst tsr. unfold translatedScreensRect, QRect.translated, pt_neg, QRect.topLeft,
      QRect.width, QRect.height. simpl. f_equal; lia. }
  unfold QRect.width, QRect.height in Hw, Hh.
  destruct (QRect.contains tsr (QRect.ofPointSize p (QRect.size sel))) eqn:Hc; simpl;
    rewrite (pt_mul_one _ _ Hi).
  - (* already within: the selection is moved onto newRect *)
    replace (QRect.moveTo sel p) with (QRect.ofPointSize p (QRect.size sel)); [exact Hc|].
    unfold QRect.moveTo, QRect.ofPointSize, QRect.make, QRect.size, QRect.width, QRect.height.
    simpl. f_equal; lia.
  - (* clamped *)
    apply contains_spec.
    + unfold QRect.isEmpty, QRect.moveTo; simpl. zbool; simpl; try reflexivity; lia.
    + rewrite Htsr. unfold xspan, yspan, QRect.isNull, QRect.span, QRect.moveTo,
        QRect.ofPointSize, QRect.make, QRect.size, QRect.right, QRect.bottom, QRect.left,
        QRect.top, QRect.width, QRect.height; simpl.
      unfold QRect.width, QRect.height.
      zbool; simpl; repeat split; try lia.
Qed.

(** C7 (the code departs from the claim).  With the whole 1000x1000 screen
    selected and an inside drag started at (500, 300), moving the pointer one
    unit to the right makes the clamp compute
    [min(right() - width, ...)] = [min(999 - 1000, 1)] = -1 on both axes: the
    selection is moved to (-1, -1) and no longer lies within the screens. *)
Theorem inside_drag_pushes_full_selection_out :
  let moved := mouseMoveEvent pressedInsideFull (mkPoint 501 300) in
  mMouseDragState pressedInsideFull = Inside
  /\ mSelection pressedInsideFull = mkRect 0 0 999 999
  /\ translatedScreensRect moved = mkRect 0 0 999 999
  /\ mSelection moved = mkRect (-1) (-1) 998 998
  /\ QRect.contains (translatedScreensRect moved) (mSelection moved) = false.
Proof. vm_compute. repeat split; reflexivity. Qed.

End Drag.

(** ** Arrow keys (QuickEditor) *)

Module Keys.
Import Notions Scenario QuickEditor.

Lemma atLeast0F_nonneg v : (0 <= atLeast0F v)%Q.
Proof.
  unfold atLeast0F. destruct (qltb v 0%Q) eqn:E; [apply Qle_refl|].
  apply qltb_false in E. exact E.
Qed.

Lemma towards_origin_large dpr dprI e :
  (dpr == 1)%Q -> (dprI == 1)%Q ->
  qRound (dprI * atLeast0F (ofInt e * dpr - largeStep))%Q = Z.max 0 (e - 15).
Proof.
  intros Hd Hi. apply qRound_int. unfold atLeast0F, largeStep, magnifierLargeStep, ofInt.
  destruct (qltb _ _) eqn:E.
  - apply qltb_true in E. rewrite Hd in E.
    assert (e < 15). { rewrite Zlt_Qlt. change (inject_Z 15) with 15%Q in *. lra. }
    rewrite Z.max_l by lia. change (inject_Z 0) with 0%Q. ring.
  - apply qltb_false in E. rewrite Hd in E.
    assert (15 <= e). { rewrite Zle_Qle. change (inject_Z 15) with 15%Q in *. lra. }
    rewrite Z.max_r by lia. rewrite Hd, Hi. unfold Z.sub.
    rewrite inject_Z_plus, inject_Z_opp. change (inject_Z 15) with 15%Q. ring.
Qed.

Lemma away_from_origin_large dpr dprI e bound :
  (dpr == 1)%Q -> (dprI == 1)%Q ->
  qRound (dprI * qMinF (ofInt bound * dpr) (ofInt e * dpr + largeStep))%Q = Z.min bound (e + 15).
Proof.
  intros Hd Hi. apply qRound_int. unfold qMinF, largeStep, magnifierLargeStep, ofInt.
  destruct (qltb _ _) eqn:E.
  - apply qltb_true in E. rewrite Hd in E.
    assert (bound < e + 15).
    { rewrite Zlt_Qlt, inject_Z_plus. change (inject_Z 15) with 15%Q in *. lra. }
    rewrite Z.min_l by lia. rewrite Hd, Hi. ring.
  - apply qltb_false in E. rewrite Hd in E.
    assert (e + 15 <= bound).
    { rewrite Zle_Qle, inject_Z_plus. change (inject_Z 15) with 15%Q in *. lra. }
    rewrite Z.min_r by lia. rewrite Hd, Hi, inject_Z_plus. change (inject_Z 15) with 15%Q. ring.
Qed.

Lemma atLeast0_max v : atLeast0 v = Z.max 0 v.
Proof. unfold atLeast0. destruct (v <? 0) eqn:E; rewrite ?Z.ltb_lt, ?Z.ltb_ge in E; lia. Qed.

Lemma selection_after_arrow env st a shift alt :
  mDisableArrowKeys st = false ->
  mSelection (fst (keyPressEvent env st (keyOf a) shift alt))
  = match a with
    | ArrowUp => arrowUp st shift alt
    | ArrowLeft => arrowLeft st shift alt
    | ArrowDown => arrowDown st shift alt
    | ArrowRight => arrowRight st shift alt
    end.
Proof.
  intros Hen. unfold keyPressEvent, arrowKey.
  destruct a, shift; simpl; rewrite Hen; reflexivity.
Qed.

(** What the arrow keys do guarantee.  For an arrow key pressed while the
    arrow keys are enabled, there is a coordinate [v] such that: without Alt
    the selection is moved, its edge on the side of the key lands on [v] and
    its size is unchanged; with Alt only the bottom edge (Up, Down) or the
    right edge (Left, Right) is set to [v], and the result is then
    normalized.  With Shift, and without Shift at device-pixel ratio 1, [v]
    is the old edge moved by the step (1 with Shift, 15 without): towards
    the origin cut off at 0, away from it as long as the result stays below
    the widget's height or width.  Towards the origin [v] is never
    negative. *)
Lemma arrow_keys_move_or_resize (env : Env) (st : State) (a : Arrow) (shift alt : bool) :
  mDisableArrowKeys st = false ->
  let sel := mSelection st in
  let sel' := mSelection (fst (keyPressEvent env st (keyOf a) shift alt)) in
  exists v : Z,
    (if alt then sel' = QRect.normalized (setResizedEdge a sel v)
     else movedEdge a sel' = v /\ QRect.size sel' = QRect.size sel)
    /\ (shift = true \/ ((devicePixelRatio st == 1)%Q /\ (devicePixelRatioI st == 1)%Q) ->
        let e := if alt then resizedEdge a sel else movedEdge a sel in
        if towardsOrigin a then v = Z.max 0 (e - stepOf shift)
        else (e + stepOf shift < farBound a st -> v = e + stepOf shift))
    /\ ((0 <= devicePixelRatioI st)%Q -> towardsOrigin a = true -> 0 <= v).
Proof.
  intros Hen sel sel'. subst sel sel'. rewrite (selection_after_arrow env st a shift alt Hen).
  destruct a, alt, shift; cbn [arrowUp arrowLeft arrowDown arrowRight setResizedEdge movedEdge
                               resizedEdge towardsOrigin farBound stepOf];
    eexists; (split; [first [reflexivity | split; [reflexivity|]] | ]).
  all: try (unfold QRect.size, QRect.width, QRect.height; simpl; f_equal; lia).
  all: cbn [QRect.top QRect.left QRect.bottom QRect.right QRect.moveTop QRect.moveLeft
              QRect.moveBottom QRect.moveRight x1 y1 x2 y2].
  all: split.
  all: try (intros Hd Ht; try discriminate; rewrite ?atLeast0_max;
            first [ clear Hd; lia
                  | apply qRound_nonneg, Qmult_le_0_compat;
                    [exact Hd | apply atLeast0F_nonneg] ]).
  all: intros [Hs | [Hd Hi]]; try discriminate;
       rewrite ?atLeast0_max, ?(towards_origin_large _ _ _ Hd Hi),
              ?(away_from_origin_large _ _ _ _ Hd Hi);
       unfold magnifierLargeStep; try reflexivity; intros; lia.
Qed.

(** C5 (the code departs from the claim).  Down and Right are clamped with
    [qMin(height(), bottom() + 1)] and [qMin(width(), right() + 1)],
    although [bottom()] and [right()] are the last row and column of the
    selection.  On the 1000x1000 widget, a region that touches the bottom
    row (rows 990..999) is moved by Down to rows 991..1000, with or without
    Shift, and resized by Alt+Down to rows 990..1000; a region that touches
    the right edge is moved by Right to columns 991..1000.  Each result
    leaves the widget, while Up and Left on regions at the top and left
    edges stay at 0. *)
Theorem arrow_down_steps_past_the_bottom_edge :
  let down := fun shift alt =>
    mSelection (fst (keyPressEvent oneScreen atBottomEdge Key_Down shift alt)) in
  let right := fun shift =>
    mSelection (fst (keyPressEvent oneScreen atRightEdge Key_Right shift false)) in
  (mDisableArrowKeys atBottomEdge = false
   /\ widgetRect atBottomEdge = mkRect 0 0 999 999
   /\ mSelection atBottomEdge = mkRect 0 990 9 999
   /\ QRect.contains (widgetRect atBottomEdge) (mSelection atBottomEdge) = true)
  /\ (down true false = mkRect 0 991 9 1000
      /\ down false false = mkRect 0 991 9 1000
      /\ down true true = mkRect 0 990 9 1000
      /\ QRect.contains (widgetRect atBottomEdge) (down true false) = false
      /\ QRect.contains (widgetRect atBottomEdge) (down true true) = false)
  /\ (mSelection atRightEdge = mkRect 990 0 999 9
      /\ right true = mkRect 991 0 1000 9
      /\ QRect.contains (widgetRect atRightEdge) (right true) = false)
  /\ (mSelection (fst (keyPressEvent oneScreen atRightEdge Key_Up true false))
      = mkRect 990 0 999 9
      /\ mSelection (fst (keyPressEvent oneScreen atBottomEdge Key_Left true false))
         = mkRect 0 990 9 999).
Proof. vm_compute. repeat split; reflexivity. Qed.

(** [SelectionEditorPrivate::handleArrowKey] is laid out the same way: a
    press without Alt hands [Geometry::rectBounded] a moved rectangle of the
    same size and does not normalize; a press with Alt hands over the resized
    rectangle itself, normalized for Left and Up. *)
Lemma normalizedF_nonneg r :
  (0 <= fw (QRectF.normalized r))%Q /\ (0 <= fh (QRectF.normalized r))%Q.
Proof.
  unfold QRectF.normalized.
  destruct (qltb (fw r) 0%Q) eqn:Ew, (qltb (fh r) 0%Q) eqn:Eh; simpl;
    rewrite ?qltb_true, ?qltb_false in *; split; lra.
Qed.

Lemma handleArrowKey_paths dprRound rectBounded st key shift :
  SelectionEditor.disableArrowKeys st = false ->
  (exists moved,
     SelectionEditor.handleArrowKey dprRound rectBounded st key shift false
     = Some (rectBounded moved (SelectionEditor.screensRect st))
     /\ fw moved = fw (SelectionEditor.selection st)
     /\ fh moved = fh (SelectionEditor.selection st))
  /\ (exists resized,
        SelectionEditor.handleArrowKey dprRound rectBounded st key shift true = Some resized
        /\ (key = SelectionEditor.Key_Left \/ key = SelectionEditor.Key_Up ->
            (0 <= fw resized)%Q /\ (0 <= fh resized)%Q)).
Proof.
  intros Hen. unfold SelectionEditor.handleArrowKey. rewrite Hen. split.
  - destruct key; eexists; (split; [reflexivity|]); split; reflexivity.
  - destruct key; eexists; (split; [reflexivity|]);
      intros [H|H]; try discriminate; apply normalizedF_nonneg.
Qed.

End Keys.

(** ** Gestures: press, move, release (QuickEditor) *)

Module Gesture.
Import Notions QuickNotions Scenario QuickEditor RectFacts.

Lemma toInt_int q z : (q == inject_Z z)%Q -> toInt q = z.
Proof.
  intros H. unfold toInt.
  assert (Qfloor q = z) as -> by (rewrite H; apply Qfloor_Z).
  assert (Qceiling q = z) as -> by (rewrite H; apply Qceiling_Z).
  destruct (Qle_bool 0 q); reflexivity.
Qed.

Lemma Qabs_inject a b : (Qabs (inject_Z a - inject_Z b) == inject_Z (Z.abs (a - b)))%Q.
Proof.
  unfold Qminus. rewrite <- inject_Z_opp, <- inject_Z_plus.
  unfold inject_Z. rewrite <- Zabs_Qabs. reflexivity.
Qed.

Lemma outside_drag_is_bounding_box st p q :
  (devicePixelRatioI st == 1)%Q ->
  mStartPos st = ptF_ofPoint p ->
  dragOutside st (ptF_ofPoint q) = boxOf p q.
Proof.
  intros Hi Hs. unfold dragOutside, boxOf, QRect.setRect, QRect.make. rewrite Hs.
  destruct p as [sx sy], q as [mx my]. unfold ptF_ofPoint, ofInt; cbn [fx fy px py].
  assert (Hmin : forall a b, toInt (qMinF (inject_Z a) (inject_Z b)) = Z.min a b).
  { intros a b. unfold qMinF. destruct (qltb _ _) eqn:E.
    - apply qltb_true in E. rewrite <- Zlt_Qlt in E. rewrite (toInt_int _ a) by reflexivity. lia.
    - apply qltb_false in E. rewrite <- Zle_Qle in E. rewrite (toInt_int _ b) by reflexivity. lia. }
  assert (Habs : forall a b, toInt (Qabs (inject_Z a - inject_Z b) + devicePixelRatioI st)%Q
                             = Z.abs (a - b) + 1).
  { intros a b. apply toInt_int. rewrite Qabs_inject, Hi, inject_Z_plus. reflexivity. }
  rewrite !Hmin, !Habs. f_equal; lia.
Qed.

Lemma extent_at_ratio_one (dprI : qreal) a b (c : bool) :
  (dprI == 1)%Q ->
  toInt (Qabs (inject_Z a - inject_Z b) + (if c then dprI else 0))%Q
  = Z.abs (a - b) + (if c then 1 else 0).
Proof.
  intros Hi. apply toInt_int. rewrite Qabs_inject, inject_Z_plus.
  destruct c; [rewrite Hi|]; reflexivity.
Qed.

Lemma pick_coordinate a b :
  toInt (if qleb (inject_Z a) (inject_Z b) then inject_Z a else inject_Z b) = Z.min a b
  /\ qleb (inject_Z a) (inject_Z b) = (a <=? b).
Proof.
  destruct (qleb (inject_Z a) (inject_Z b)) eqn:E.
  - apply qleb_true in E. rewrite <- Zle_Qle in E.
    rewrite (toInt_int _ a) by reflexivity. split; [lia|]. symmetry. apply Z.leb_le, E.
  - apply qleb_false in E. rewrite <- Zlt_Qlt in E.
    rewrite (toInt_int _ b) by reflexivity. split; [lia|]. symmetry. apply Z.leb_gt, E.
Qed.

Lemma corner_drag_at_ratio_one st a q :
  (devicePixelRatioI st == 1)%Q ->
  mStartPos st = ptF_ofPoint a ->
  dragCorner st (ptF_ofPoint q) = cornerBox a q.
Proof.
  intros Hi Hs. unfold dragCorner, cornerBox, QRect.setRect, QRect.make. rewrite Hs.
  destruct a as [ax ay], q as [mx my]. unfold ptF_ofPoint, ofInt; cbn [fx fy px py].
  rewrite !(extent_at_ratio_one _ _ _ _ Hi).
  destruct (pick_coordinate ax mx) as [Hx Ex], (pick_coordinate ay my) as [Hy Ey].
  rewrite Hx, Hy, Ex, Ey.
  destruct (ax <=? mx) eqn:E1, (ay <=? my) eqn:E2;
    rewrite ?Z.leb_le, ?Z.leb_gt in *; f_equal; lia.
Qed.

Lemma press_fields st syn p :
  let st1 := pressed st syn p in
  mSelection st1 = mSelection st
  /\ devicePixelRatioI st1 = devicePixelRatioI st
  /\ devicePixelRatio st1 = devicePixelRatio st
  /\ mDisableArrowKeys st1 = true
  /\ (mMouseDragState st1 = Outside -> mStartPos st1 = ptF_ofPoint p)
  /\ (isCorner (mMouseDragState st1) = true \/ isEdge (mMouseDragState st1) = true ->
      mStartPos st1 = ptF_ofPoint (anchorOf (mMouseDragState st1) (mSelection st))).
Proof.
  unfold pressed, mousePressEvent. cbn [mSelection devicePixelRatioI devicePixelRatio
    mDisableArrowKeys mMouseDragState mStartPos].
  repeat split.
  - intros H. rewrite H. reflexivity.
  - destruct (mouseLocation _ _); intros [H|H]; try discriminate; reflexivity.
Qed.

Lemma outside_move_selection st syn p q :
  (devicePixelRatioI st == 1)%Q ->
  mMouseDragState (pressed st syn p) = Outside ->
  mSelection (mouseMoveEvent (pressed st syn p) q) = boxOf p q.
Proof.
  intros Hi Hd. destruct (press_fields st syn p) as (_ & HdI & _ & _ & Hstart & _).
  unfold mouseMoveEvent. cbn [mSelection]. rewrite Hd.
  apply outside_drag_is_bounding_box; [rewrite HdI; exact Hi | apply Hstart, Hd].
Qed.

(** X1.  A left press outside the selection and its handles, followed by a pointer
    move, selects at ratio 1 the smallest rectangle that holds the pressed
    pixel and the pointer's pixel, both included, in whichever direction the
    pointer went. *)
Theorem outside_gesture_selects_bounding_box st syn p q :
  (devicePixelRatioI st == 1)%Q ->
  mMouseDragState (pressed st syn p) = Outside ->
  mSelection (mouseMoveEvent (pressed st syn p) q) = boxOf p q
  /\ QRect.containsPoint (mSelection (mouseMoveEvent (pressed st syn p) q)) p = true
  /\ QRect.containsPoint (mSelection (mouseMoveEvent (pressed st syn p) q)) q = true.
Proof.
  intros Hi Hd. rewrite (outside_move_selection st syn p q Hi Hd).
  split; [reflexivity|].
  unfold boxOf, QRect.containsPoint; cbn [x1 y1 x2 y2]. split; zbool; simpl; try reflexivity; lia.
Qed.

Lemma outside_gesture_selects_bounding_box_witness :
  mSelection (mouseMoveEvent (pressed hundredSquare false (mkPoint 600 700)) (mkPoint 450 820))
  = mkRect 450 700 600 820.
Proof.
  apply (proj1 (outside_gesture_selects_bounding_box hundredSquare false
                  (mkPoint 600 700) (mkPoint 450 820) (Qeq_refl 1) eq_refl)).
Defined.

(** X2.  A left press on a corner handle, followed by a pointer move, selects at
    ratio 1 the rectangle between the opposite corner of the old selection
    (the anchor) and the pointer: the pointer's pixel is included, and on an
    axis where the pointer has passed before the anchor the rectangle stops
    one pixel short of the anchor. *)
Theorem corner_gesture_spans_anchor_and_pointer st syn p q :
  (devicePixelRatioI st == 1)%Q ->
  isCorner (mMouseDragState (pressed st syn p)) = true ->
  mSelection (mouseMoveEvent (pressed st syn p) q)
  = cornerBox (anchorOf (mMouseDragState (pressed st syn p)) (mSelection st)) q.
Proof.
  intros Hi Hc. destruct (press_fields st syn p) as (_ & HdI & _ & _ & _ & Hstart).
  specialize (Hstart (or_introl Hc)).
  unfold mouseMoveEvent. cbn [mSelection].
  destruct (mMouseDragState (pressed st syn p)); try discriminate;
    apply corner_drag_at_ratio_one; try (rewrite HdI; exact Hi); exact Hstart.
Qed.

Lemma corner_gesture_spans_anchor_and_pointer_witness :
  mMouseDragState (pressed hundredSquare false (mkPoint 203 198)) = TopLeft
  /\ mSelection (mouseMoveEvent (pressed hundredSquare false (mkPoint 203 198)) (mkPoint 150 120))
     = mkRect 150 120 298 298.
Proof.
  split; [reflexivity|].
  apply (corner_gesture_spans_anchor_and_pointer hundredSquare false
           (mkPoint 203 198) (mkPoint 150 120) (Qeq_refl 1) eq_refl).
Defined.

(** X3.  A left press on an edge handle or border, followed by a pointer move,
    resizes at ratio 1 only the axis of that edge, between the opposite
    edge and the pointer; the extent on the other axis is the old one. *)
Theorem edge_gesture_resizes_one_axis st syn p q :
  (devicePixelRatioI st == 1)%Q ->
  isEdge (mMouseDragState (pressed st syn p)) = true ->
  mSelection (mouseMoveEvent (pressed st syn p) q)
  = edgeBox (mMouseDragState (pressed st syn p)) (mSelection st) q.
Proof.
  intros Hi Hc. destruct (press_fields st syn p) as (Hsel & HdI & _ & _ & _ & Hstart).
  specialize (Hstart (or_intror Hc)).
  unfold mouseMoveEvent. cbn [mSelection].
  destruct (mMouseDragState (pressed st syn p)) eqn:Ed; try discriminate;
    unfold dragVertical, dragHorizontal, edgeBox, cornerBox, QRect.setRect, QRect.make;
    rewrite Hstart, Hsel;
    destruct (anchorOf _ (mSelection st)) as [ax ay], q as [mx my];
    unfold ptF_ofPoint, ofInt; cbn [fx fy px py isVerticalEdge x1 y1 x2 y2];
    rewrite !(extent_at_ratio_one (devicePixelRatioI (pressed st syn p)) _ _ _
                (eq_ind_r (fun d => (d == 1)%Q) Hi HdI));
    [ destruct (pick_coordinate ay my) as [Hy Ey]
    | destruct (pick_coordinate ax mx) as [Hy Ey]
    | destruct (pick_coordinate ay my) as [Hy Ey]
    | destruct (pick_coordinate ax mx) as [Hy Ey] ];
    rewrite Hy, Ey; unfold QRect.x, QRect.y, QRect.width, QRect.height;
    match goal with |- context [?a <=? ?b] =>
      destruct (a <=? b) eqn:E; rewrite ?Z.leb_le, ?Z.leb_gt in E end;
    f_equal; lia.
Qed.

Lemma edge_gesture_resizes_one_axis_witness :
  mMouseDragState (pressed hundredSquare false (mkPoint 250 195)) = Top
  /\ mSelection (mouseMoveEvent (pressed hundredSquare false (mkPoint 250 195)) (mkPoint 400 150))
     = mkRect 200 150 299 298.
Proof.
  split; [reflexivity|].
  apply (edge_gesture_resizes_one_axis hundredSquare false
           (mkPoint 250 195) (mkPoint 400 150) (Qeq_refl 1) eq_refl).
Defined.

Lemma key_event_while_pressed env s e :
  mDisableArrowKeys s = true -> isKeyEvent e = true ->
  mSelection (fst (handle env s e)) = mSelection s
  /\ mMouseDragState (fst (handle env s e)) = mMouseDragState s
  /\ mDisableArrowKeys (fst (handle env s e)) = true.
Proof.
  intros Hd He. destruct e; try discriminate; simpl.
  - unfold keyPressEvent, arrowKey.
    destruct key, shift; simpl; rewrite ?Hd; repeat split; assumption.
  - unfold keyReleaseEvent. destruct (_ && _); repeat split; assumption.
Qed.

(** X7.  Between a left press and the release, key presses and releases, whatever
    the keys and modifiers, change neither the selection nor the drag state:
    the arrow keys are disabled while the button is down. *)
Theorem keys_ignored_while_pressed env st syn p ks :
  forallb isKeyEvent ks = true ->
  mSelection (run env (pressed st syn p) ks) = mSelection st
  /\ mMouseDragState (run env (pressed st syn p) ks) = mMouseDragState (pressed st syn p).
Proof.
  intros Hk. destruct (press_fields st syn p) as (Hsel & _ & _ & Hdis & _).
  rewrite <- Hsel. revert Hdis Hk. generalize (pressed st syn p) as s.
  unfold run. induction ks as [|e ks IH]; intros s Hdis Hk; simpl; [split; reflexivity|].
  apply andb_prop in Hk. destruct Hk as [He Hk].
  destruct (key_event_while_pressed env s e Hdis He) as (H1 & H2 & H3).
  destruct (IH _ H3 Hk) as [I1 I2]. split; congruence.
Qed.

Lemma keys_ignored_while_pressed_witness :
  mSelection (run oneScreen (pressed hundredSquare false (mkPoint 250 250))
                  [KeyPress Key_Left false false; KeyPress Key_Down true true; KeyRelease false])
  = mkRect 200 200 299 299.
Proof.
  apply (proj1 (keys_ignored_while_pressed oneScreen hundredSquare false (mkPoint 250 250)
                  [KeyPress Key_Left false false; KeyPress Key_Down true true; KeyRelease false]
                  eq_refl)).
Defined.

Lemma accept_nonempty env st :
  QRect.isEmpty (mSelection st) = false ->
  exists region g, acceptSelection env st = [SetCropRegion region; grabDone g].
Proof.
  intros H. unfold acceptSelection. rewrite H. simpl.
  destruct (platform env); do 2 eexists; reflexivity.
Qed.

Lemma contains_point_nonempty sel pos :
  wellFormed sel -> QRect.containsPoint sel pos = true -> QRect.isEmpty sel = false.
Proof.
  intros [Hw Hh]. unfold QRect.containsPoint, QRect.isEmpty, QRect.width, QRect.height in *.
  intros H. zbool; simpl in *; try discriminate; try reflexivity; lia.
Qed.

(** X10.  A double click hands over exactly one image when the button is the left
    one and the pointer is on the (not inverted) selection, and none
    otherwise. *)
Theorem double_click_commits_inside env st b pos :
  wellFormed (mSelection st) ->
  length (grabbedQ (mouseDoubleClickEvent env st b pos))
  = if isLeft b && QRect.containsPoint (mSelection st) pos then 1%nat else 0%nat.
Proof.
  intros Hw. unfold mouseDoubleClickEvent. destruct b; simpl; try reflexivity.
  destruct (QRect.containsPoint (mSelection st) pos) eqn:E; [|reflexivity].
  destruct (accept_nonempty env st (contains_point_nonempty _ _ Hw E)) as (r & g & ->).
  reflexivity.
Qed.

Lemma double_click_commits_inside_witness :
  length (grabbedQ (mouseDoubleClickEvent oneScreen hundredSquare LeftButton (mkPoint 250 250)))
  = 1%nat.
Proof.
  apply (double_click_commits_inside oneScreen hundredSquare LeftButton (mkPoint 250 250)).
  split; vm_compute; congruence.
Defined.

(** X9.  Releasing the right button keeps the selection's top-left corner, sets
    its size to 0x0 and ends any drag; after that neither Return or Enter
    nor a double click hands anything over. *)
Theorem right_click_reset_disarms_commit env st shift alt :
  let st' := fst (mouseReleaseEvent env st RightButton) in
  QRect.topLeft (mSelection st') = QRect.topLeft (mSelection st)
  /\ QRect.size (mSelection st') = mkSize 0 0
  /\ mMouseDragState st' = None
  /\ snd (keyPressEvent env st' Key_Return shift alt) = []
  /\ snd (keyPressEvent env st' Key_Enter shift alt) = []
  /\ forall b pos, mouseDoubleClickEvent env st' b pos = [].
Proof.
  cbn [mouseReleaseEvent fst mSelection mMouseDragState].
  set (sel' := QRect.setHeight (QRect.setWidth (mSelection st) 0) 0).
  assert (Hsz : QRect.size sel' = mkSize 0 0).
  { unfold sel', QRect.size, QRect.width, QRect.height; simpl. f_equal; lia. }
  assert (He : QRect.isEmpty sel' = true).
  { unfold sel', QRect.isEmpty; simpl. zbool; simpl; try reflexivity; lia. }
  assert (Hc : forall pos, QRect.containsPoint sel' pos = false).
  { intros pos. unfold sel', QRect.containsPoint; simpl. zbool; simpl; try reflexivity; lia. }
  repeat split; try assumption.
  - unfold keyPressEvent, acceptSelection. destruct shift; cbn [snd mSelection withToggleMagnifier];
      fold sel'; rewrite He; reflexivity.
  - unfold keyPressEvent, acceptSelection. destruct shift; cbn [snd mSelection withToggleMagnifier];
      fold sel'; rewrite He; reflexivity.
  - intros b pos. unfold mouseDoubleClickEvent. cbn [mSelection]. fold sel'. rewrite Hc.
    destruct b; reflexivity.
Qed.

Lemma make_of_rect r : QRect.make (QRect.x r) (QRect.y r) (QRect.width r) (QRect.height r) = r.
Proof.
  destruct r. unfold QRect.make, QRect.x, QRect.y, QRect.width, QRect.height; simpl.
  f_equal; lia.
Qed.

Lemma scaled_by_one r (c : qreal) (f : qreal -> Z) :
  (forall q z, (q == inject_Z z)%Q -> f q = z) -> (c == 1)%Q ->
  QRect.make (f (ofInt (QRect.x r) * c)%Q) (f (ofInt (QRect.y r) * c)%Q)
             (f (ofInt (QRect.width r) * c)%Q) (f (ofInt (QRect.height r) * c)%Q) = r.
Proof.
  intros Hf Hc.
  rewrite (Hf _ (QRect.x r)), (Hf _ (QRect.y r)), (Hf _ (QRect.width r)),
    (Hf _ (QRect.height r)); try (unfold ofInt; rewrite Hc; ring).
  apply make_of_rect.
Qed.

Lemma accept_at_ratio_one env st :
  (devicePixelRatio st == 1)%Q -> QRect.isEmpty (mSelection st) = false ->
  exists g, acceptSelection env st = [SetCropRegion (mSelection st); grabDone g]
            /\ (platform env = X11 -> g = GrabCanvasCopy (mPixmap st) (mSelection st)).
Proof.
  intros Hd He. unfold acceptSelection. rewrite He.
  cbn [negb]. rewrite (scaled_by_one _ _ qRound qRound_int Hd).
  destruct (platform env); eexists; (split; [reflexivity|]); intros; try discriminate; reflexivity.
Qed.

(** X11.  At ratio 1 [acceptSelection] emits nothing for an empty selection, and
    for any other one it saves the selection itself as the crop region and
    then emits one [grabDone]; on X11 the image is the pixmap cut at the
    selection. *)
Theorem commit_at_ratio_one env st :
  (devicePixelRatio st == 1)%Q ->
  (QRect.isEmpty (mSelection st) = true -> acceptSelection env st = [])
  /\ (QRect.isEmpty (mSelection st) = false ->
      exists g, acceptSelection env st = [SetCropRegion (mSelection st); grabDone g]
                /\ (platform env = X11 -> g = GrabCanvasCopy (mPixmap st) (mSelection st))).
Proof.
  intros Hd. split; intros He.
  - unfold acceptSelection. rewrite He. reflexivity.
  - apply accept_at_ratio_one; assumption.
Qed.

Lemma commit_at_ratio_one_witness :
  exists g, acceptSelection oneScreen hundredSquare = [SetCropRegion (mkRect 200 200 299 299); grabDone g].
Proof.
  destruct (proj2 (commit_at_ratio_one oneScreen hundredSquare (Qeq_refl 1)) eq_refl)
    as [g [H _]].
  exists g. exact H.
Defined.

Lemma intersected_inside a b :
  QRect.isEmpty (QRect.intersected a b) = false ->
  QRect.contains b (QRect.intersected a b) = true /\ QRect.contains a (QRect.intersected a b) = true.
Proof.
  intros He. pose proof (nonEmpty_bounds _ He) as Hb.
  pose proof (contains_spec a _ He) as Ha. pose proof (contains_spec b _ He) as Hs.
  unfold QRect.intersected, xspan, yspan in *.
  destruct (QRect.isNull a) eqn:Na; [discriminate He|].
  destruct (QRect.isNull b) eqn:Nb; [discriminate He|].
  cbn [orb] in *.
  destruct (QRect.span (x1 a) (x2 a)) as [l1 r1], (QRect.span (x1 b) (x2 b)) as [l2 r2],
           (QRect.span (y1 a) (y2 a)) as [t1 b1], (QRect.span (y1 b) (y2 b)) as [t2 b2].
  destruct ((r2 <? l1) || (r1 <? l2)); [discriminate He|].
  destruct ((b2 <? t1) || (b1 <? t2)); [discriminate He|].
  cbn [x1 x2 y1 y2 fst snd] in *.
  split; [apply Hs | apply Ha]; repeat split; lia.
Qed.

Lemma intersected_comm a b : QRect.intersected a b = QRect.intersected b a.
Proof.
  unfold QRect.intersected.
  destruct (QRect.isNull a), (QRect.isNull b); cbn [orb]; try reflexivity.
  destruct (QRect.span (x1 a) (x2 a)) as [l1 r1], (QRect.span (x1 b) (x2 b)) as [l2 r2],
           (QRect.span (y1 a) (y2 a)) as [t1 b1], (QRect.span (y1 b) (y2 b)) as [t2 b2].
  rewrite (orb_comm (r2 <? l1)), (orb_comm (b2 <? t1)).
  destruct (_ || _); [reflexivity|]. destruct (_ || _); [reflexivity|].
  f_equal; lia.
Qed.

Lemma construct_selection lt env cfg :
  mSelection (construct lt env cfg)
  = if rememberRegion cfg && negb (QRect.isEmpty (savedRegion cfg)) then
      QRect.intersected
        (QRect.make (toInt (ofInt (QRect.x (savedRegion cfg)) * devicePixelRatioI (construct lt env cfg))%Q)
                    (toInt (ofInt (QRect.y (savedRegion cfg)) * devicePixelRatioI (construct lt env cfg))%Q)
                    (toInt (ofInt (QRect.width (savedRegion cfg)) * devicePixelRatioI (construct lt env cfg))%Q)
                    (toInt (ofInt (QRect.height (savedRegion cfg)) * devicePixelRatioI (construct lt env cfg))%Q))
        (widgetRect (construct lt env cfg))
    else QRect.null.
Proof.
  unfold construct, widgetRect.
  destruct (preparePaint (platform env) (images cfg)) as [screenToDpr screensRect].
  destruct (match platform env with X11 => _ | Wayland => _ end) as [w h].
  reflexivity.
Qed.

Lemma construct_ratios lt env cfg :
  devicePixelRatio (construct lt env cfg) = (if plasmashell cfg then 1%Q else widgetDpr cfg)
  /\ devicePixelRatioI (construct lt env cfg)
     = (1 / (if plasmashell cfg then 1%Q else widgetDpr cfg))%Q
  /\ mReleaseToCapture (construct lt env cfg) = useReleaseToCapture cfg
  /\ mMouseDragState (construct lt env cfg) = None
  /\ mDisableArrowKeys (construct lt env cfg) = false.
Proof.
  unfold construct.
  destruct (preparePaint (platform env) (images cfg)) as [screenToDpr screensRect].
  destruct (match platform env with X11 => _ | Wayland => _ end) as [w h].
  repeat split.
Qed.

(** X13.  For a remembered region such that the region, its scaled copy and
    the widget's rectangle fit the range of an [int] (nothing overflows in
    building them), and whatever the ratio, the selection of a newly
    constructed editor is either empty or lies within the widget's
    rectangle. *)
Theorem restored_selection_is_clipped_to_widget lt env cfg :
  let st := construct lt env cfg in
  fitsInt (savedRegion cfg) = true ->
  fitsInt (scaledRegion (devicePixelRatioI st) (savedRegion cfg)) = true ->
  fitsInt (widgetRect st) = true ->
  QRect.isEmpty (mSelection st) = true
  \/ QRect.contains (widgetRect st) (mSelection st) = true.
Proof.
  intros st _ _ _. subst st. rewrite construct_selection.
  destruct (_ && _); [|left; reflexivity].
  match goal with |- context [QRect.intersected ?a ?b] =>
    destruct (QRect.isEmpty (QRect.intersected a b)) eqn:E;
      [left; reflexivity | right; apply (intersected_inside a b E)] end.
Qed.

Lemma restored_selection_is_clipped_to_widget_witness :
  QRect.contains (widgetRect (startedWith (QRect.make 900 900 300 300)))
                 (mSelection (startedWith (QRect.make 900 900 300 300))) = true.
Proof.
  destruct (restored_selection_is_clipped_to_widget byXThenY oneScreen
              (mkConfig [(square, squareImage)] true 1%Q true (QRect.make 900 900 300 300) false)
              eq_refl eq_refl eq_refl) as [H|H].
  - discriminate H.
  - exact H.
Defined.

Lemma remembered_region_is_restored lt env cfg :
  plasmashell cfg = true -> rememberRegion cfg = true ->
  QRect.isEmpty (savedRegion cfg) = false ->
  QRect.contains (widgetRect (construct lt env cfg)) (savedRegion cfg) = true ->
  mSelection (construct lt env cfg) = savedRegion cfg.
Proof.
  intros Hp Hr He Hc. rewrite construct_selection, Hr, He. cbn [negb andb].
  destruct (construct_ratios lt env cfg) as (_ & -> & _). rewrite Hp.
  rewrite (scaled_by_one _ _ toInt toInt_int) by reflexivity.
  rewrite intersected_comm. apply contains_intersected; assumption.
Qed.

(** X14.  The region that [acceptSelection] saves at ratio 1 is restored as the
    same selection by an editor constructed under a PlasmaShell whose
    widget contains it. *)
Theorem remembered_region_round_trip lt env env' st cfg region g :
  (devicePixelRatio st == 1)%Q ->
  acceptSelection env st = [SetCropRegion region; grabDone g] ->
  plasmashell cfg = true -> rememberRegion cfg = true -> savedRegion cfg = region ->
  QRect.contains (widgetRect (construct lt env' cfg)) region = true ->
  mSelection (construct lt env' cfg) = mSelection st.
Proof.
  intros Hd Ha Hp Hr Hs Hc.
  destruct (QRect.isEmpty (mSelection st)) eqn:E.
  - unfold acceptSelection in Ha. rewrite E in Ha. discriminate.
  - destruct (accept_at_ratio_one env st Hd E) as (g' & Hg & _). rewrite Hg in Ha.
    injection Ha as Hreg _. rewrite <- Hreg in Hs, Hc. rewrite <- Hs in *.
    apply remembered_region_is_restored; assumption.
Qed.

Lemma remembered_region_round_trip_witness :
  mSelection (construct byXThenY oneScreen
                (mkConfig [(square, squareImage)] true 1%Q true (mkRect 450 700 600 820) false))
  = mkRect 450 700 600 820.
Proof.
  apply (remembered_region_round_trip byXThenY oneScreenX11 oneScreen afterOutsideDrag
           (mkConfig [(square, squareImage)] true 1%Q true (mkRect 450 700 600 820) false)
           (mkRect 450 700 600 820)
           (GrabCanvasCopy (mPixmap afterOutsideDrag) (mkRect 450 700 600 820))
           (Qeq_refl 1) eq_refl eq_refl eq_refl eq_refl eq_refl).
Defined.

Lemma boxOf_nonEmpty p q : QRect.isEmpty (boxOf p q) = false.
Proof. unfold QRect.isEmpty, boxOf; simpl. zbool; simpl; try reflexivity; lia. Qed.

(** X8.  Releasing the left button after a new selection was drawn (ratio 1):
    with release-to-capture the drawn rectangle is saved and handed over and
    the editor is left as it was; without it nothing is emitted, the
    rectangle stays selected, the drag ends and the arrow keys work again. *)
Theorem left_release_after_drawing env st syn p q :
  (devicePixelRatio st == 1)%Q -> (devicePixelRatioI st == 1)%Q ->
  mMouseDragState (pressed st syn p) = Outside ->
  let moved := mouseMoveEvent (pressed st syn p) q in
  let released := mouseReleaseEvent env moved LeftButton in
  if mReleaseToCapture st
  then fst released = moved
       /\ exists g, snd released = [SetCropRegion (boxOf p q); grabDone g]
  else snd released = []
       /\ mSelection (fst released) = boxOf p q
       /\ mMouseDragState (fst released) = None
       /\ mDisableArrowKeys (fst released) = false.
Proof.
  intros Hd Hi Ho moved released.
  pose proof (outside_move_selection st syn p q Hi Ho) as Hsel.
  fold moved in Hsel.
  assert (Hm : mMouseDragState moved = Outside) by exact Ho.
  assert (Hr : mReleaseToCapture moved = mReleaseToCapture st) by (destruct syn; reflexivity).
  assert (Hdm : (devicePixelRatio moved == 1)%Q) by (destruct syn; exact Hd).
  subst released. unfold mouseReleaseEvent. rewrite Hm, Hr. cbn [MouseState_eqb andb].
  destruct (mReleaseToCapture st).
  - split; [reflexivity|]. cbn [snd].
    assert (He : QRect.isEmpty (mSelection moved) = false)
      by (rewrite Hsel; apply boxOf_nonEmpty).
    destruct (accept_at_ratio_one env moved Hdm He) as (g & Hg & _).
    exists g. rewrite <- Hsel. exact Hg.
  - cbn [fst snd mSelection mMouseDragState mDisableArrowKeys]. repeat split. exact Hsel.
Qed.

Lemma left_release_after_drawing_witness :
  snd (mouseReleaseEvent oneScreen afterOutsideDrag LeftButton) = []
  /\ mSelection (fst (mouseReleaseEvent oneScreen afterOutsideDrag LeftButton))
     = mkRect 450 700 600 820
  /\ mMouseDragState (fst (mouseReleaseEvent oneScreen afterOutsideDrag LeftButton)) = None
  /\ mDisableArrowKeys (fst (mouseReleaseEvent oneScreen afterOutsideDrag LeftButton)) = false.
Proof.
  apply (left_release_after_drawing oneScreen hundredSquare false (mkPoint 600 700)
           (mkPoint 450 820) (Qeq_refl 1) (Qeq_refl 1) eq_refl).
Defined.

Lemma borderOrBody_body sel pos :
  (borderOrBody sel pos = Inside -> QRect.containsPoint sel (ptF_toPoint pos) = true)
  /\ (borderOrBody sel pos = Outside -> QRect.containsPoint sel (ptF_toPoint pos) = false).
Proof.
  unfold borderOrBody.
  destruct (QRect.containsPoint sel (ptF_toPoint pos));
    destruct (_ && _); repeat destruct (inRange _ _ _); repeat destruct (withinThreshold _ _);
    split; intros; try discriminate; reflexivity.
Qed.

Lemma mouseLocation_body st pos :
  (mouseLocation st pos = Inside -> QRect.containsPoint (mSelection st) (ptF_toPoint pos) = true)
  /\ (mouseLocation st pos = Outside
      -> QRect.containsPoint (mSelection st) (ptF_toPoint pos) = false).
Proof.
  unfold mouseLocation.
  repeat (destruct (insideHandle st _ pos); [split; discriminate|]).
  apply borderOrBody_body.
Qed.

Lemma toPoint_ofPoint p : ptF_toPoint (ptF_ofPoint p) = p.
Proof.
  destruct p as [a b]. unfold ptF_toPoint, ptF_ofPoint; cbn [fx fy px py].
  rewrite (qRound_int _ a), (qRound_int _ b) by reflexivity. reflexivity.
Qed.

(** X6.  A left press starts a move only on the selection: when the press is
    classified Inside, the pressed pixel is within the selection, the drag
    starts there with the selection's top-left corner recorded, and the
    magnifier is off; when it is classified Outside, the pixel is not within
    the selection and the magnifier is on. *)
Theorem move_drag_starts_on_the_selection st syn p :
  let st1 := pressed st syn p in
  (mMouseDragState st1 = Inside ->
     QRect.containsPoint (mSelection st) p = true
     /\ mStartPos st1 = ptF_ofPoint p
     /\ mInitialTopLeft st1 = ptF_ofPoint (QRect.topLeft (mSelection st))
     /\ mMagnifierAllowed st1 = false)
  /\ (mMouseDragState st1 = Outside ->
        QRect.containsPoint (mSelection st) p = false
        /\ mStartPos st1 = ptF_ofPoint p /\ mMagnifierAllowed st1 = true).
Proof.
  unfold pressed, mousePressEvent.
  cbn [mMouseDragState mStartPos mInitialTopLeft mMagnifierAllowed mSelection].
  match goal with |- context [mouseLocation ?s ?q] =>
    pose proof (mouseLocation_body s q) as [Hi Ho]; destruct (mouseLocation s q) end;
    split; intros H; try discriminate.
  - rewrite toPoint_ofPoint in Hi. repeat split. apply Hi. reflexivity.
  - rewrite toPoint_ofPoint in Ho. repeat split. apply Ho. reflexivity.
Qed.

Lemma press_inside_fields st syn p :
  mMouseDragState (pressed st syn p) = Inside ->
  mStartPos (pressed st syn p) = ptF_ofPoint p
  /\ mInitialTopLeft (pressed st syn p) = ptF_ofPoint (QRect.topLeft (mSelection st)).
Proof.
  unfold pressed, mousePressEvent. cbn [mMouseDragState mStartPos mInitialTopLeft mSelection].
  destruct (mouseLocation _ _); intros H; try discriminate. split; reflexivity.
Qed.

(** X4.  A left press on the selection's body followed by a pointer move
    translates the selection (ratio 1) by exactly the pointer's
    displacement, as long as the translated rectangle stays within the
    screens' rectangle. *)
Theorem move_gesture_translates_the_selection st syn p q :
  (devicePixelRatio st == 1)%Q -> (devicePixelRatioI st == 1)%Q ->
  mMouseDragState (pressed st syn p) = Inside ->
  QRect.contains (translatedScreensRect st)
                 (QRect.translated (mSelection st) (pt_sub q p)) = true ->
  mSelection (mouseMoveEvent (pressed st syn p) q)
  = QRect.translated (mSelection st) (pt_sub q p).
Proof.
  intros Hd Hi Hin Hc.
  destruct (press_inside_fields st syn p Hin) as [Hs Ht].
  destruct (press_fields st syn p) as (Hsel & HdI & HdP & _).
  unfold mouseMoveEvent. rewrite Hin. cbn [mSelection].
  unfold dragInside. rewrite Hs, Ht, Hsel, HdI, HdP.
  assert (Htsr : translatedScreensRect (pressed st syn p) = translatedScreensRect st)
    by (destruct syn; reflexivity).
  rewrite Htsr. rewrite (Drag.size_mul_one _ _ Hd).
  assert (Hp : ptF_toPoint (ptF_mul (ptF_add (ptF_sub (ptF_ofPoint q) (ptF_ofPoint p))
                                             (ptF_ofPoint (QRect.topLeft (mSelection st))))
                                    (devicePixelRatio st))
               = pt_add (pt_sub q p) (QRect.topLeft (mSelection st))).
  { unfold ptF_toPoint, ptF_mul, ptF_add, ptF_sub, ptF_ofPoint, pt_add, pt_sub, QRect.topLeft, ofInt.
    cbn [fx fy px py].
    rewrite (qRound_int _ (px q - px p + x1 (mSelection st))),
            (qRound_int _ (py q - py p + y1 (mSelection st))); [reflexivity| |];
      rewrite Hd; unfold Zminus; rewrite !inject_Z_plus, inject_Z_opp; ring. }
  rewrite Hp.
  assert (Hr : QRect.ofPointSize (pt_add (pt_sub q p) (QRect.topLeft (mSelection st)))
                                 (QRect.size (mSelection st))
               = QRect.translated (mSelection st) (pt_sub q p)).
  { unfold QRect.ofPointSize, QRect.make, QRect.translated, QRect.size, QRect.width, QRect.height,
      pt_add, pt_sub, QRect.topLeft. cbn [px py wd ht]. f_equal; lia. }
  rewrite Hr, Hc. cbn [negb]. rewrite (Drag.pt_mul_one _ _ Hi).
  unfold QRect.moveTo, QRect.translated, pt_add, pt_sub, QRect.topLeft. cbn [px py].
  f_equal; lia.
Qed.

Lemma move_gesture_translates_the_selection_witness :
  mSelection (mouseMoveEvent (pressed hundredSquare false (mkPoint 250 250)) (mkPoint 300 240))
  = mkRect 250 190 349 289.
Proof.
  apply (move_gesture_translates_the_selection hundredSquare false (mkPoint 250 250)
           (mkPoint 300 240) (Qeq_refl 1) (Qeq_refl 1) eq_refl eq_refl).
Defined.

End Gesture.

(** ** Handles, cursor, magnifier and size label (QuickEditor) *)

Module Painting.
Import Notions QuickNotions Scenario QuickEditor RectFacts.

Lemma small_test st :
  qltb (ofInt (minEdgeLength st)) (ofInt (minDragHandleSpace st))
  = (minEdgeLength st <? minDragHandleSpace st).
Proof.
  unfold ofInt. destruct (Z.ltb_spec (minEdgeLength st) (minDragHandleSpace st)) as [H|H].
  - apply qltb_true. rewrite <- Zlt_Qlt. exact H.
  - apply qltb_false. rewrite <- Zle_Qle. exact H.
Qed.

Lemma nonPositivePart_min a : (nonPositivePart a <= 0)%Q /\ (nonPositivePart a <= a)%Q
  /\ (0 <= a -> nonPositivePart a == 0)%Q.
Proof.
  unfold nonPositivePart. destruct (qleb 0%Q a) eqn:E.
  - apply qleb_true in E. repeat split; try lra; intros; reflexivity.
  - apply qleb_false in E. repeat split; try lra.
Qed.

(** X15.  When the shorter edge of the selection is below
    [4 * mHandleRadius + 2 * minSpacingBetweenHandles], the handles float
    outside the selection, and on each of the four sides a corner handle
    and the edge handle next to it have their midpoints at least
    [2 * mHandleRadius + minSpacingBetweenHandles] apart. *)
Theorem floating_handles_keep_their_spacing st :
  minEdgeLength st < minDragHandleSpace st ->
  let h := handlePositions st in
  let sel := mSelection st in
  let gap := ofInt (2 * mHandleRadius st + minSpacingBetweenHandles) in
  ((gap <= fx (h4 h) - fx (h0 h))%Q /\ (gap <= fx (h1 h) - fx (h4 h))%Q
   /\ (gap <= fx (h6 h) - fx (h3 h))%Q /\ (gap <= fx (h2 h) - fx (h6 h))%Q
   /\ (gap <= fy (h7 h) - fy (h0 h))%Q /\ (gap <= fy (h3 h) - fy (h7 h))%Q
   /\ (gap <= fy (h5 h) - fy (h1 h))%Q /\ (gap <= fy (h2 h) - fy (h5 h))%Q)
  /\ ((fx (h0 h) < ofInt (QRect.x sel))%Q
      /\ (ofInt (QRect.x sel + QRect.width sel) < fx (h1 h))%Q
      /\ (fy (h0 h) < ofInt (QRect.y sel))%Q
      /\ (ofInt (QRect.y sel + QRect.height sel) < fy (h2 h))%Q).
Proof.
  intros Hs h sel gap. subst h gap. unfold handlePositions.
  fold (minEdgeLength st). change (4 * mHandleRadius st + 2 * minSpacingBetweenHandles)
    with (minDragHandleSpace st).
  rewrite small_test. apply Z.ltb_lt in Hs. rewrite Hs. apply Z.ltb_lt in Hs.
  cbn [h0 h1 h2 h3 h4 h5 h6 h7 fx fy]. fold sel.
  assert (Hw : (ofInt (minEdgeLength st) <= ofInt (QRect.width sel))%Q)
    by (unfold ofInt; rewrite <- Zle_Qle; unfold minEdgeLength; fold sel; lia).
  assert (Hh : (ofInt (minEdgeLength st) <= ofInt (QRect.height sel))%Q)
    by (unfold ofInt; rewrite <- Zle_Qle; unfold minEdgeLength; fold sel; lia).
  assert (Hm : (ofInt (minEdgeLength st) < ofInt (minDragHandleSpace st))%Q)
    by (unfold ofInt; rewrite <- Zlt_Qlt; exact Hs).
  assert (Hg : (ofInt (minDragHandleSpace st)
                == 2 * ofInt (2 * mHandleRadius st + minSpacingBetweenHandles))%Q).
  { unfold ofInt, minDragHandleSpace. change 2%Q with (inject_Z 2). rewrite <- inject_Z_mult.
    apply inject_Z_injective. lia. }
  assert (Hx : (ofInt (QRect.x sel + QRect.width sel)
                == ofInt (QRect.x sel) + ofInt (QRect.width sel))%Q)
    by (unfold ofInt; rewrite inject_Z_plus; reflexivity).
  assert (Hy : (ofInt (QRect.y sel + QRect.height sel)
                == ofInt (QRect.y sel) + ofInt (QRect.height sel))%Q)
    by (unfold ofInt; rewrite inject_Z_plus; reflexivity).
  rewrite Hx, Hy.
  generalize dependent (ofInt (minDragHandleSpace st)).
  generalize (ofInt (2 * mHandleRadius st + minSpacingBetweenHandles)).
  generalize dependent (ofInt (minEdgeLength st)).
  generalize (ofInt (QRect.x sel)) (ofInt (QRect.y sel))
             (ofInt (QRect.width sel)) (ofInt (QRect.height sel)).
  intros x y w hh m Hw Hh g S Hm Hg.
  clear - Hw Hh Hm Hg. unfold Qdiv. change (/ 2)%Q with (1 # 2)%Q. repeat split; lra.
Qed.

(** X16.  When the selection is large enough for its handles, the handles of its
    left and top sides have their midpoints at least the handle radius
    inside the left and top edges of the screens' rectangle, and those of
    its right and bottom sides at least the radius less the pen width
    inside the right and bottom edges: near an edge the handles move into
    the selection, never out of it, and the three handles of a side stay
    aligned. *)
Theorem anchored_handles_stay_on_screen st :
  minDragHandleSpace st <= minEdgeLength st ->
  let h := handlePositions st in
  let sel := mSelection st in
  let tsr := translatedScreensRect st in
  let r := ofInt (mHandleRadius st) in
  ((ofInt (QRect.left tsr) + r <= fx (h0 h))%Q /\ (ofInt (QRect.x sel) <= fx (h0 h))%Q
   /\ (ofInt (QRect.top tsr) + r <= fy (h0 h))%Q /\ (ofInt (QRect.y sel) <= fy (h0 h))%Q)
  /\ ((fx (h2 h) <= ofInt (QRect.right tsr) - r + ofInt penWidth)%Q
      /\ (fx (h2 h) <= ofInt (QRect.x sel + QRect.width sel))%Q
      /\ (fy (h2 h) <= ofInt (QRect.bottom tsr) - r + ofInt penWidth)%Q
      /\ (fy (h2 h) <= ofInt (QRect.y sel + QRect.height sel))%Q)
  /\ (fx (h3 h) = fx (h0 h) /\ fx (h7 h) = fx (h0 h) /\ fy (h1 h) = fy (h0 h)
      /\ fy (h4 h) = fy (h0 h) /\ fx (h1 h) = fx (h2 h) /\ fx (h5 h) = fx (h2 h)
      /\ fy (h3 h) = fy (h2 h) /\ fy (h6 h) = fy (h2 h)).
Proof.
  intros Hs h sel tsr r. subst h r. unfold handlePositions.
  fold (minEdgeLength st). change (4 * mHandleRadius st + 2 * minSpacingBetweenHandles)
    with (minDragHandleSpace st).
  rewrite small_test. apply Z.ltb_ge in Hs. rewrite Hs.
  cbn [h0 h1 h2 h3 h4 h5 h6 h7 fx fy]. fold sel. fold (translatedScreensRect st). fold tsr.
  assert (Hx : (ofInt (QRect.x sel + QRect.width sel)
                == ofInt (QRect.x sel) + ofInt (QRect.width sel))%Q)
    by (unfold ofInt; rewrite inject_Z_plus; reflexivity).
  assert (Hy : (ofInt (QRect.y sel + QRect.height sel)
                == ofInt (QRect.y sel) + ofInt (QRect.height sel))%Q)
    by (unfold ofInt; rewrite inject_Z_plus; reflexivity).
  rewrite Hx, Hy.
  repeat match goal with |- context [nonPositivePart ?a] =>
    destruct (nonPositivePart_min a) as (? & ? & _);
    generalize dependent (nonPositivePart a); intros
  end.
  repeat split; try reflexivity; lra.
Qed.

Lemma floating_handles_keep_their_spacing_witness :
  (38 <= fx (h4 (handlePositions atBottomEdge)) - fx (h0 (handlePositions atBottomEdge)))%Q
  /\ (fx (h0 (handlePositions atBottomEdge)) < 0)%Q.
Proof.
  destruct (floating_handles_keep_their_spacing atBottomEdge eq_refl) as ((H1 & _) & (H2 & _)).
  split; [exact H1 | exact H2].
Defined.

Lemma anchored_handles_stay_on_screen_witness :
  (0 + 9 <= fx (h0 (handlePositions (startedWith (QRect.make 0 0 100 100)))))%Q
  /\ (0 + 9 <= fy (h0 (handlePositions (startedWith (QRect.make 0 0 100 100)))))%Q.
Proof.
  destruct (anchored_handles_stay_on_screen (startedWith (QRect.make 0 0 100 100)))
    as ((H1 & _ & H2 & _) & _).
  - vm_compute. congruence.
  - split; [exact H1 | exact H2].
Defined.

(** X17.  The bit masks of [setMouseCursor] pick the cross for a pointer outside
    the selection, the same diagonal cursor for opposite corners, the
    vertical one for top and bottom, the horizontal one for left and right,
    and the open hand on the selection's body. *)
Theorem cursor_follows_location st pos :
  setMouseCursor st pos
  = match mouseLocation st pos with
    | Outside => CrossCursor
    | TopLeft | BottomRight => SizeFDiagCursor
    | TopRight | BottomLeft => SizeBDiagCursor
    | Top | Bottom => SizeVerCursor
    | Right | Left => SizeHorCursor
    | Inside | None => OpenHandCursor
    end.
Proof. unfold setMouseCursor. destruct (mouseLocation st pos); reflexivity. Qed.

(** X18.  On a pixmap at least 33 pixels wide (or high), the 33-pixel source span
    of the magnifier lies within the pixmap; span start plus offset is the
    unclamped start, 16 pixels before the pointer, and the offset is 0
    exactly when nothing was clamped. *)
Theorem magnifier_source_stays_in_pixmap st mouse extent :
  magSide <= extent ->
  let raw := toInt (mouse * devicePixelRatio st - ofInt magPixels)%Q in
  let mag := fst (magnifierAxis st mouse extent) in
  let offset := snd (magnifierAxis st mouse extent) in
  0 <= mag /\ mag + magSide <= extent /\ mag + offset = raw
  /\ (offset = 0 <-> 0 <= raw <= extent - magSide).
Proof.
  intros He raw mag offset. subst mag offset. unfold magnifierAxis. fold raw.
  unfold magSide in *. generalize dependent raw. intros raw.
  destruct (Z.ltb_spec raw 0); [cbn [fst snd]; lia|].
  destruct (Z.ltb_spec (extent - (2 * magPixels + 1)) raw); cbn [fst snd]; lia.
Qed.

Lemma magnifier_source_stays_in_pixmap_witness :
  fst (magnifierAxis hundredSquare 995%Q 1000) + magSide <= 1000
  /\ fst (magnifierAxis hundredSquare 995%Q 1000) + snd (magnifierAxis hundredSquare 995%Q 1000)
     = 979.
Proof.
  destruct (magnifier_source_stays_in_pixmap hundredSquare 995%Q 1000) as (_ & H1 & H2 & _).
  - vm_compute. congruence.
  - split; [exact H1 | exact H2].
Defined.

(** X19.  In a widget at least [2 * (magOffset + 2 * magHalf)] wide (or high), the
    centre of the magnifier is at least half the magnified square away from
    both ends: it is drawn before the pointer whenever it would pass the far
    end after it. *)
Theorem magnifier_is_drawn_inside_widget mouse extent :
  2 * (magOffset + 2 * magHalf) <= extent ->
  (0 <= mouse)%Q -> (mouse <= ofInt extent)%Q ->
  (ofInt magHalf <= magnifierDrawPos mouse extent)%Q
  /\ (magnifierDrawPos mouse extent <= ofInt (extent - magHalf))%Q.
Proof.
  intros He H0 H1. unfold magnifierDrawPos.
  change (Z.quot ((2 * magPixels + 1) * magZoom) 2) with magHalf.
  assert (Hx : ofInt (extent - magHalf) = (ofInt extent - ofInt magHalf)%Q).
  { unfold ofInt, Zminus. rewrite inject_Z_plus, inject_Z_opp. reflexivity. }
  assert (Hq : (ofInt (2 * (magOffset + 2 * magHalf)) <= ofInt extent)%Q)
    by (unfold ofInt; rewrite <- Zle_Qle; exact He).
  rewrite Hx. clear Hx He. change (ofInt (2 * (magOffset + 2 * magHalf))) with 392%Q in Hq.
  change (ofInt magHalf) with 82%Q. change (ofInt magOffset) with 32%Q.
  generalize dependent (ofInt extent). intros e H1 Hq.
  destruct (qltb (e - 82)%Q (mouse + 32 + 82)%Q) eqn:E.
  - apply qltb_true in E. split; lra.
  - apply qltb_false in E. split; lra.
Qed.

Lemma magnifier_is_drawn_inside_widget_witness :
  (82 <= magnifierDrawPos 950%Q 1000)%Q /\ (magnifierDrawPos 950%Q 1000 <= 918)%Q.
Proof.
  apply (magnifier_is_drawn_inside_widget 950%Q 1000); vm_compute; congruence.
Defined.

(** X20.  For a selection of at least 100x100 that lies within the widget's width
    and is wider than the label's box and higher than it by twice the
    padding, the box of the size label lies within the selection on both
    axes. *)
Theorem size_label_sits_inside_a_large_selection st textW textH dragHandlesVisible :
  let sel := mSelection st in
  selectionSizeThreshold <= QRect.width sel -> selectionSizeThreshold <= QRect.height sel ->
  0 <= QRect.x sel -> QRect.x sel + QRect.width sel <= width_ st ->
  0 <= textW -> selectionBoxWidth textW <= QRect.width sel ->
  0 <= textH -> selectionBoxHeight textH + selectionBoxPaddingY * 2 <= QRect.height sel ->
  let X := selectionBoxX st textW in
  let Y := selectionBoxY st textH dragHandlesVisible in
  QRect.x sel <= X /\ X + selectionBoxWidth textW <= QRect.x sel + QRect.width sel
  /\ QRect.y sel <= Y /\ Y + selectionBoxHeight textH <= QRect.y sel + QRect.height sel.
Proof.
  intros sel Hw Hh Hx0 Hx1 Htw Hbw Hth Hbh X Y. subst X Y.
  unfold selectionBoxX, selectionBoxY, qBound, selectionBoxWidth, selectionBoxHeight,
    selectionSizeThreshold, selectionBoxPaddingX, selectionBoxPaddingY in *. fold sel.
  apply Z.leb_le in Hw, Hh. rewrite Hw, Hh. cbn [andb].
  rewrite !Z.quot_div_nonneg by lia.
  pose proof (Z.div_mod (QRect.width sel - textW) 2 ltac:(lia)).
  pose proof (Z.mod_pos_bound (QRect.width sel - textW) 2 ltac:(lia)).
  pose proof (Z.div_mod (QRect.height sel - textH) 2 ltac:(lia)).
  pose proof (Z.mod_pos_bound (QRect.height sel - textH) 2 ltac:(lia)).
  lia.
Qed.

Lemma size_label_sits_inside_a_large_selection_witness :
  200 <= selectionBoxX hundredSquare 60
  /\ selectionBoxX hundredSquare 60 + selectionBoxWidth 60 <= 200 + 100
  /\ 200 <= selectionBoxY hundredSquare 16 true
  /\ selectionBoxY hundredSquare 16 true + selectionBoxHeight 16 <= 200 + 100.
Proof.
  apply (size_label_sits_inside_a_large_selection hundredSquare 60 16 true);
    vm_compute; congruence.
Defined.

End Painting.

(** ** The screens' rectangle and the painted images *)

Module Compositor.
Import Notions QuickNotions Scenario RectFacts.

Lemma contains_self b : QRect.isEmpty b = false -> QRect.contains b b = true.
Proof.
  intros Hb. apply (contains_spec b b Hb). pose proof (nonEmpty_notNull b Hb).
  apply nonEmpty_bounds in Hb. unfold xspan, yspan.
  rewrite !span_valid by lia. cbn [fst snd]. repeat split; try assumption; lia.
Qed.

Lemma contains_united_l a b c :
  QRect.isEmpty c = false -> QRect.contains a c = true ->
  QRect.contains (QRect.united a b) c = true.
Proof.
  intros Hc Ha. pose proof (proj1 (contains_spec a c Hc) Ha) as (Na & A1 & A2 & A3 & A4).
  pose proof (nonEmpty_bounds c Hc) as [Cx Cy].
  unfold QRect.united. rewrite Na. destruct (QRect.isNull b); [exact Ha|].
  unfold xspan, yspan in *.
  destruct (QRect.span (x1 a) (x2 a)) as [l1 r1], (QRect.span (x1 b) (x2 b)) as [l2 r2],
           (QRect.span (y1 a) (y2 a)) as [t1 b1], (QRect.span (y1 b) (y2 b)) as [t2 b2].
  cbn [fst snd] in *. apply (contains_spec _ c Hc). unfold xspan, yspan, QRect.isNull.
  cbn [x1 x2 y1 y2]. rewrite !span_valid by lia. cbn [fst snd].
  repeat split; try lia.
  all: destruct (Z.eqb_spec (Z.max r1 r2) (Z.min l1 l2 - 1)); [lia|reflexivity].
Qed.

Lemma contains_united_r a b :
  QRect.isEmpty b = false -> QRect.contains (QRect.united a b) b = true.
Proof.
  intros Hb. pose proof (nonEmpty_notNull b Hb) as Nb.
  pose proof (nonEmpty_bounds b Hb) as [Bx By].
  unfold QRect.united. destruct (QRect.isNull a); [apply contains_self, Hb|]. rewrite Nb.
  pose proof (Drag.span_ordered (x1 a) (x2 a)). pose proof (Drag.span_ordered (y1 a) (y2 a)).
  rewrite (span_valid (x1 b) (x2 b)), (span_valid (y1 b) (y2 b)) by lia.
  destruct (QRect.span (x1 a) (x2 a)) as [l1 r1], (QRect.span (y1 a) (y2 a)) as [t1 b1].
  cbn [fst snd] in *. apply (contains_spec _ b Hb). unfold xspan, yspan, QRect.isNull.
  cbn [x1 x2 y1 y2]. rewrite !span_valid by lia. cbn [fst snd].
  repeat split; try lia.
  all: destruct (Z.eqb_spec (Z.max r1 (x2 b)) (Z.min l1 (x1 b) - 1)); [lia|reflexivity].
Qed.

Lemma united_fold_covers {A : Type} (f : A -> QRect) (l : list A) (c : QRect) :
  QRect.isEmpty c = false ->
  forall acc,
    QRect.contains acc c = true \/ (exists a, In a l /\ f a = c) ->
    QRect.contains (fold_left (fun acc a => QRect.united acc (f a)) l acc) c = true.
Proof.
  intros Hc. induction l as [|a l IH]; intros acc H; cbn [fold_left].
  - destruct H as [H|[a [[] _]]]. exact H.
  - apply IH. destruct H as [H|[a' [[->|Hin] Ha']]].
    + left. apply contains_united_l; assumption.
    + left. rewrite Ha'. apply contains_united_r, Hc.
    + right. exists a'. split; assumption.
Qed.

Lemma preparePaint_rect pf imgs :
  snd (QuickEditor.preparePaint pf imgs)
  = fold_left (fun acc a => QRect.united acc (QuickEditor.virtualScreenRect pf (fst a) (snd a)))
              imgs QRect.null.
Proof.
  unfold QuickEditor.preparePaint. cbn [snd]. generalize QRect.null.
  induction imgs as [|[s img] l IH]; intros acc; cbn [fold_left fst snd]; [reflexivity|apply IH].
Qed.

Lemma construct_screensRect lt env cfg :
  QuickEditor.mScreensRect (QuickEditor.construct lt env cfg)
  = snd (QuickEditor.preparePaint (QuickEditor.platform env) (QuickEditor.images cfg))
  /\ QuickEditor.mImages (QuickEditor.construct lt env cfg) = QuickEditor.images cfg
  /\ QuickEditor.mScreenToDpr (QuickEditor.construct lt env cfg)
     = fst (QuickEditor.preparePaint (QuickEditor.platform env) (QuickEditor.images cfg)).
Proof.
  unfold QuickEditor.construct.
  destruct (QuickEditor.preparePaint _ _) as [screenToDpr screensRect].
  destruct (match QuickEditor.platform env with X11 => _ | Wayland => _ end) as [w h].
  repeat split.
Qed.

Lemma preparePaintWith_rect ratio sizeOver pf imgs :
  snd (QuickEditor.preparePaintWith ratio sizeOver pf imgs)
  = fold_left (fun acc a => QRect.united acc
                              (QuickEditor.virtualScreenRectWith ratio sizeOver pf (fst a) (snd a)))
              imgs QRect.null.
Proof.
  unfold QuickEditor.preparePaintWith. cbn [snd]. generalize QRect.null.
  induction imgs as [|[s img] l IH]; intros acc; cbn [fold_left fst snd]; [reflexivity|apply IH].
Qed.

Lemma preparePaintWith_exact pf images :
  QuickEditor.preparePaintWith QuickEditor.exactRatio size_div pf images
  = QuickEditor.preparePaint pf images.
Proof. reflexivity. Qed.

(** X21.  However the [double] quotient [image.width() / geometry.width()] and
    [QSize / qreal] come out, the rectangle that [preparePaint] builds
    contains the virtual rectangle, computed with the same two operations,
    of every screen that has an image. *)
Theorem screens_rect_covers_every_screen ratio sizeOver pf images s img :
  In (s, img) images ->
  QRect.isEmpty (QuickEditor.virtualScreenRectWith ratio sizeOver pf s img) = false ->
  QRect.contains (snd (QuickEditor.preparePaintWith ratio sizeOver pf images))
                 (QuickEditor.virtualScreenRectWith ratio sizeOver pf s img) = true.
Proof.
  intros Hin He. rewrite preparePaintWith_rect.
  apply (united_fold_covers
           (fun a => QuickEditor.virtualScreenRectWith ratio sizeOver pf (fst a) (snd a)) _ _ He).
  right. exists (s, img). split; [exact Hin | reflexivity].
Qed.

Lemma screens_rect_covers_every_screen_witness :
  QRect.contains (QuickEditor.mScreensRect mixedStart) (mkRect 1920 0 3839 1079) = true.
Proof.
  apply (screens_rect_covers_every_screen QuickEditor.exactRatio size_div Wayland
           [(screenHi, imageHi); (screenB, imageB)] screenB imageB).
  - right. left. reflexivity.
  - reflexivity.
Defined.

Section KeyOrder.

Variable pointLt : QPoint -> QPoint -> bool.
Hypothesis lt_irrefl : forall a, pointLt a a = false.
Hypothesis lt_total : forall a b, pointLt a b = false -> pointLt b a = false -> a = b.

Lemma sameKey_eq a b : QuickEditor.sameKey pointLt a b = true -> a = b.
Proof.
  unfold QuickEditor.sameKey. intros H. apply andb_prop in H. destruct H as [H1 H2].
  apply negb_true_iff in H1, H2. apply lt_total; assumption.
Qed.

Lemma sameKey_refl a : QuickEditor.sameKey pointLt a a = true.
Proof. unfold QuickEditor.sameKey. rewrite lt_irrefl. reflexivity. Qed.

Lemma qmapInsert_in {V : Type} (k : QPoint) (v : V) m :
  forall k' v', In (k', v') (QuickEditor.qmapInsert pointLt k v m) ->
                (k', v') = (k, v) \/ In (k', v') m.
Proof.
  induction m as [|[k0 v0] m IH]; intros k' v' H; cbn [QuickEditor.qmapInsert] in H.
  - destruct H as [H|[]]. left. symmetry. exact H.
  - destruct (pointLt k k0).
    + destruct H as [H|H]; [left; symmetry; exact H | right; exact H].
    + destruct (pointLt k0 k).
      * destruct H as [H|H]; [right; left; exact H|].
        destruct (IH _ _ H) as [E|E]; [left; exact E | right; right; exact E].
      * destruct H as [H|H]; [left; symmetry; exact H | right; right; exact H].
Qed.

Lemma qmapInsert_keeps {V : Type} (k : QPoint) (v : V) m a :
  hasKey m a \/ a = k -> hasKey (QuickEditor.qmapInsert pointLt k v m) a.
Proof.
  induction m as [|[k0 v0] m IH]; intros H; cbn [QuickEditor.qmapInsert].
  - destruct H as [[x []]| ->]. exists v. left. reflexivity.
  - destruct (pointLt k k0) eqn:E1.
    + destruct H as [[x Hx]| ->]; [exists x; right; exact Hx | exists v; left; reflexivity].
    + destruct (pointLt k0 k) eqn:E2.
      * destruct H as [[x [Hx|Hx]]| ->].
        -- exists x. left. exact Hx.
        -- destruct IH as [y Hy]; [left; exists x; exact Hx|]. exists y. right. exact Hy.
        -- destruct IH as [y Hy]; [right; reflexivity|]. exists y. right. exact Hy.
      * assert (k0 = k) as -> by (apply lt_total; assumption).
        destruct H as [[x [Hx|Hx]]| ->].
        -- injection Hx as <- _. exists v. left. reflexivity.
        -- exists x. right. exact Hx.
        -- exists v. left. reflexivity.
Qed.

Lemma qmapValue_identity m k : identityMap m -> hasKey m k -> QuickEditor.qmapValue pointLt m k = k.
Proof.
  induction m as [|[k0 v0] m IH]; intros Hid [v Hv]; [destruct Hv|].
  cbn [QuickEditor.qmapValue]. destruct (QuickEditor.sameKey pointLt k0 k) eqn:E.
  - apply sameKey_eq in E. subst k0. apply (Hid k v0). left. reflexivity.
  - destruct Hv as [Hv|Hv].
    + injection Hv as -> _. rewrite sameKey_refl in E. discriminate.
    + apply IH; [intros a b Hab; apply (Hid a b); right; exact Hab | exists v; exact Hv].
Qed.

Lemma qmapInsert_identity m k : identityMap m -> identityMap (QuickEditor.qmapInsert pointLt k k m).
Proof.
  intros Hid a b H. destruct (qmapInsert_in _ _ _ _ _ H) as [E|E].
  - injection E as -> ->. reflexivity.
  - apply (Hid _ _ E).
Qed.

Lemma qmapFrom_sub {V : Type} (m : list (QPoint * V)) k e :
  In e (QuickEditor.qmapFrom pointLt m k) -> In e m.
Proof.
  induction m as [|[k0 v0] m IH]; cbn [QuickEditor.qmapFrom]; [intros []|].
  destruct (QuickEditor.sameKey pointLt k0 k); [exact (fun H => H)|].
  intros H. right. apply IH, H.
Qed.

Lemma shiftOne_identity p w h m (e2 : QPoint * (qreal * QSize)) :
  identityMap m -> covers m [e2] ->
  QuickEditor.shiftOne pointLt p w h 0 0 m e2
  = QuickEditor.qmapInsert pointLt (fst e2) (fst e2) m.
Proof.
  intros Hid Hc. unfold QuickEditor.shiftOne.
  rewrite (qmapValue_identity m (fst e2) Hid) by (apply Hc; left; reflexivity).
  destruct (_ <=? _), (_ <=? _); rewrite ?setX_same, ?setY_same; reflexivity.
Qed.

Lemma shift_fold_invariant (keys : list (QPoint * (qreal * QSize))) p w h l :
  forall m, identityMap m -> covers m keys -> (forall e, In e l -> In e keys) ->
    let m' := fold_left (QuickEditor.shiftOne pointLt p w h 0 0) l m in
    identityMap m' /\ covers m' keys.
Proof.
  induction l as [|e l IH]; intros m Hid Hc Hl; cbn [fold_left]; [split; assumption|].
  rewrite shiftOne_identity by
    (try assumption; intros a [<-|[]]; apply Hc, Hl; left; reflexivity).
  apply IH.
  - apply qmapInsert_identity, Hid.
  - intros a Ha. apply qmapInsert_keeps. left. apply Hc, Ha.
  - intros a Ha. apply Hl. right. exact Ha.
Qed.

Lemma computeCoordinates_identity outputsRect :
  let m := QuickEditor.computeCoordinatesAfterScaling pointLt outputsRect in
  identityMap m /\ covers m outputsRect.
Proof.
  unfold QuickEditor.computeCoordinatesAfterScaling.
  assert (H0 : identityMap [] /\ covers [] (@nil (QPoint * (qreal * QSize)))).
  { split; [intros k v [] | intros e []]. }
  assert (H1 : let m := fold_left (fun m e => QuickEditor.qmapInsert pointLt (fst e) (fst e) m)
                                  outputsRect [] in
               identityMap m /\ covers m outputsRect).
  { cbn zeta.
    assert (G : forall l m, identityMap m ->
                  let m' := fold_left (fun m e => QuickEditor.qmapInsert pointLt (fst e) (fst e) m)
                                      l m in
                  identityMap m' /\ (forall e : QPoint * (qreal * QSize),
                                        In e l \/ hasKey m (fst e) -> hasKey m' (fst e))).
    { induction l as [|e l IH]; intros m Hid; cbn [fold_left].
      - split; [exact Hid|]. intros e [[]|H]. exact H.
      - destruct (IH _ (qmapInsert_identity m (fst e) Hid)) as [I1 I2]. split; [exact I1|].
        intros a [[->|Ha]|Ha].
        + apply I2. right. apply qmapInsert_keeps. right. reflexivity.
        + apply I2. left. exact Ha.
        + apply I2. right. apply qmapInsert_keeps. left. exact Ha. }
    destruct (G outputsRect [] (proj1 H0)) as [G1 G2]. split; [exact G1|].
    intros e He. apply G2. left. exact He. }
  cbn zeta in H1. destruct H1 as [Hid Hc].
  assert (G : forall l m, (forall e, In e l -> In e outputsRect) ->
                identityMap m -> covers m outputsRect ->
                identityMap (fold_left (QuickEditor.shiftAfter pointLt outputsRect) l m)
                /\ covers (fold_left (QuickEditor.shiftAfter pointLt outputsRect) l m) outputsRect).
  { induction l as [|e l IH]; intros m Hsub Hi Hk; cbn [fold_left]; [split; assumption|].
    assert (Hstep : identityMap (QuickEditor.shiftAfter pointLt outputsRect m e)
                    /\ covers (QuickEditor.shiftAfter pointLt outputsRect m e) outputsRect).
    { unfold QuickEditor.shiftAfter. destruct (negb _); [|split; assumption].
      rewrite !Z.sub_diag. apply (shift_fold_invariant outputsRect); try assumption.
      intros a Ha. apply (qmapFrom_sub _ _ _ Ha). }
    destruct Hstep as [S1 S2].
    apply IH; [intros a Ha; apply Hsub; right; exact Ha | exact S1 | exact S2]. }
  apply G; [auto | exact Hid | exact Hc].
Qed.

Lemma scalingInput_keys imgs s img :
  In (s, img) imgs ->
  hasKey (QuickEditor.scalingInput pointLt imgs) (QRect.topLeft (QuickEditor.geometry s)).
Proof.
  unfold QuickEditor.scalingInput.
  assert (G : forall l m,
             In (s, img) l \/ hasKey m (QRect.topLeft (QuickEditor.geometry s)) ->
             hasKey (fold_left (fun m '(s, img) =>
                                  QuickEditor.qmapInsert pointLt
                                    (QRect.topLeft (QuickEditor.geometry s))
                                    (QuickEditor.imageDpr s img, img_size img) m) l m)
                    (QRect.topLeft (QuickEditor.geometry s))).
  { induction l as [|[s0 i0] l IH]; intros m H; cbn [fold_left].
    - destruct H as [[]|H]. exact H.
    - apply IH. destruct H as [[H|H]|H].
      + injection H as -> ->. right. apply qmapInsert_keeps. right. reflexivity.
      + left. exact H.
      + right. apply qmapInsert_keeps. left. exact H. }
  intros H. apply G. left. exact H.
Qed.

Lemma createPixmap_draws screensRect imgs :
  cv_draws (QuickEditor.createPixmapFromScreens pointLt screensRect imgs)
  = map (fun e => DrawAt (pt_sub (QRect.topLeft (QuickEditor.geometry (fst e)))
                                 (QRect.topLeft screensRect)) (snd e)) imgs.
Proof.
  unfold QuickEditor.createPixmapFromScreens. cbn [cv_draws].
  destruct (computeCoordinates_identity (QuickEditor.scalingInput pointLt imgs)) as [Hid Hc].
  apply map_ext_in. intros [s img] Hin. cbn [fst snd].
  rewrite (qmapValue_identity _ _ Hid); [reflexivity|].
  destruct (scalingInput_keys imgs s img Hin) as [v Hv]. apply (Hc _ Hv).
Qed.

End KeyOrder.

Lemma span_translated a b d :
  QRect.span (a + d) (b + d) = (fst (QRect.span a b) + d, snd (QRect.span a b) + d).
Proof.
  unfold QRect.span. replace (b + d - (a + d) + 1) with (b - a + 1) by lia.
  destruct (b - a + 1 <? 0); reflexivity.
Qed.

Lemma contains_translated r s d :
  QRect.contains (QRect.translated r d) (QRect.translated s d) = QRect.contains r s.
Proof.
  unfold QRect.contains, QRect.isNull, QRect.translated. cbn [x1 x2 y1 y2].
  rewrite !span_translated.
  destruct (QRect.span (x1 r) (x2 r)) as [l1 r1], (QRect.span (x1 s) (x2 s)) as [l2 r2],
           (QRect.span (y1 r) (y2 r)) as [t1 b1], (QRect.span (y1 s) (y2 s)) as [t2 b2].
  cbn [fst snd].
  replace (x2 r + px d =? x1 r + px d - 1) with (x2 r =? x1 r - 1) by lia.
  replace (y2 r + py d =? y1 r + py d - 1) with (y2 r =? y1 r - 1) by lia.
  replace (x2 s + px d =? x1 s + px d - 1) with (x2 s =? x1 s - 1) by lia.
  replace (y2 s + py d =? y1 s + py d - 1) with (y2 s =? y1 s - 1) by lia.
  replace (l2 + px d <? l1 + px d) with (l2 <? l1) by lia.
  replace (r1 + px d <? r2 + px d) with (r1 <? r2) by lia.
  replace (t2 + py d <? t1 + py d) with (t2 <? t1) by lia.
  replace (b1 + py d <? b2 + py d) with (b1 <? b2) by lia.
  reflexivity.
Qed.

Lemma isEmpty_translated r d : QRect.isEmpty (QRect.translated r d) = QRect.isEmpty r.
Proof. unfold QRect.isEmpty, QRect.translated. cbn [x1 x2 y1 y2]. lia. Qed.

Lemma translated_to_origin r :
  QRect.translated r (pt_neg (QRect.topLeft r)) = QRect.ofPointSize (mkPoint 0 0) (QRect.size r).
Proof.
  unfold QRect.translated, pt_neg, QRect.topLeft, QRect.ofPointSize, QRect.make, QRect.size,
    QRect.width, QRect.height. cbn [px py wd ht]. f_equal; lia.
Qed.

Lemma ofPointSize_translated p q sz :
  QRect.ofPointSize (pt_sub p q) sz = QRect.translated (QRect.ofPointSize p sz) (pt_neg q).
Proof.
  unfold QRect.ofPointSize, QRect.make, QRect.translated, pt_sub, pt_neg. cbn [px py x1 x2 y1 y2].
  f_equal; lia.
Qed.

(** X22.  Whatever the device-pixel ratios, [createPixmapFromScreens] paints every
    image at its screen's own top-left corner relative to the corner of the
    screens' rectangle: [computeCoordinatesAfterScaling] moves no screen
    (its deltas are always 0).  The key order is assumed irreflexive and
    total. *)
Theorem images_are_painted_unshifted pointLt env cfg :
  (forall a, pointLt a a = false) ->
  (forall a b, pointLt a b = false -> pointLt b a = false -> a = b) ->
  let st := QuickEditor.construct pointLt env cfg in
  cv_draws (QuickEditor.mPixmap st)
  = map (fun e => DrawAt (pt_sub (QRect.topLeft (QuickEditor.geometry (fst e)))
                                 (QRect.topLeft (QuickEditor.mScreensRect st))) (snd e))
        (QuickEditor.images cfg).
Proof.
  intros H1 H2. cbn zeta. unfold QuickEditor.construct.
  destruct (QuickEditor.preparePaint _ _) as [screenToDpr screensRect].
  destruct (match QuickEditor.platform env with X11 => _ | Wayland => _ end) as [w h].
  cbn [QuickEditor.mPixmap QuickEditor.mScreensRect].
  apply createPixmap_draws; assumption.
Qed.

Lemma byXThenY_irrefl a : byXThenY a a = false.
Proof. unfold byXThenY. lia. Qed.

Lemma byXThenY_total a b : byXThenY a b = false -> byXThenY b a = false -> a = b.
Proof.
  unfold byXThenY. destruct a as [ax ay], b as [bx by_]. cbn [px py]. intros H1 H2.
  assert (ax = bx /\ ay = by_) as [-> ->] by lia. reflexivity.
Qed.

Lemma images_are_painted_unshifted_witness :
  cv_draws (QuickEditor.mPixmap mixedStart)
  = [DrawAt (mkPoint 0 0) imageHi; DrawAt (mkPoint 1920 0) imageB].
Proof.
  apply (images_are_painted_unshifted byXThenY (QuickEditor.mkEnv Wayland [screenHi; screenB])
           (QuickEditor.mkConfig [(screenHi, imageHi); (screenB, imageB)]
                                 true 1%Q false QRect.null false)
           byXThenY_irrefl byXThenY_total).
Defined.

(** X23.  On X11 every image that [createPixmapFromScreens] paints lies within the
    pixmap. *)
Theorem x11_pixmap_holds_every_image pointLt env cfg :
  (forall a, pointLt a a = false) ->
  (forall a b, pointLt a b = false -> pointLt b a = false -> a = b) ->
  QuickEditor.platform env = X11 ->
  let st := QuickEditor.construct pointLt env cfg in
  Forall (drawnInside (QuickEditor.mPixmap st)) (cv_draws (QuickEditor.mPixmap st)).
Proof.
  intros H1 H2 Hx. cbn zeta.
  pose proof (construct_screensRect pointLt env cfg) as (Hsr & _).
  unfold QuickEditor.construct in *.
  destruct (QuickEditor.preparePaint _ _) as [screenToDpr screensRect] eqn:Hp.
  destruct (match QuickEditor.platform env with X11 => _ | Wayland => _ end) as [w h].
  cbn [QuickEditor.mPixmap QuickEditor.mScreensRect snd] in *.
  rewrite (createPixmap_draws pointLt H1 H2). apply Forall_forall. intros d Hd.
  apply in_map_iff in Hd. destruct Hd as [[s img] [<- Hin]]. cbn [fst snd].
  unfold drawnInside, canvasRect, QuickEditor.createPixmapFromScreens. cbn [cv_size drawnRect].
  rewrite ofPointSize_translated, isEmpty_translated, <- translated_to_origin, contains_translated.
  intros He.
  assert (Hsr' : screensRect = snd (QuickEditor.preparePaint X11 (QuickEditor.images cfg)))
    by (rewrite <- Hx, Hp; reflexivity).
  rewrite Hsr', preparePaint_rect.
  apply (united_fold_covers (fun a => QuickEditor.virtualScreenRect X11 (fst a) (snd a)) _ _ He).
  right. exists (s, img). split; [exact Hin | reflexivity].
Qed.

Lemma x11_pixmap_holds_every_image_witness :
  Forall (drawnInside (QuickEditor.mPixmap sideBySideX11))
         (cv_draws (QuickEditor.mPixmap sideBySideX11)).
Proof.
  apply (x11_pixmap_holds_every_image byXThenY (QuickEditor.mkEnv X11 [screenA; screenB])
           (QuickEditor.mkConfig [(screenA, imageA); (screenB, imageB)]
                                 false 1%Q false QRect.null false)
           byXThenY_irrefl byXThenY_total eq_refl).
Defined.

End Compositor.

(** ** Screen images, commit and arrow keys (SelectionEditor) *)

Module SelectionCommit.
Import Notions QuickNotions Scenario RectFacts Compositor SelectionEditor.

Lemma paintScreens_unshifted origin imgs :
  paintScreens origin imgs (translatedPoints imgs)
  = map (fun c => DrawAt (pt_sub (screenPos c) origin)
                         (QImage.setDevicePixelRatio (ci_image c) 1%Q)) imgs.
Proof.
  rewrite BuildStep.translatedPoints_unshifted. unfold paintScreens.
  induction imgs as [|c l IH]; cbn [map combine]; [reflexivity|]. rewrite IH. reflexivity.
Qed.

(** X24.  On X11 every image that [setScreenImages] paints lies within the
    combined image. *)
Theorem x11_canvas_holds_every_image st imgs :
  let canvas := image (fst (setScreenImages X11 st imgs)) in
  Forall (drawnInside canvas) (cv_draws canvas).
Proof.
  cbn zeta. unfold setScreenImages. cbn [fst image cv_draws].
  rewrite paintScreens_unshifted. apply Forall_forall. intros d Hd.
  apply in_map_iff in Hd. destruct Hd as [c [<- Hin]].
  unfold drawnInside, canvasRect. cbn [cv_size drawnRect img_size QImage.setDevicePixelRatio].
  rewrite ofPointSize_translated, isEmpty_translated, <- translated_to_origin, contains_translated.
  intros He. unfold unitedScreensRect.
  apply (united_fold_covers (virtualScreenRect X11) _ _ He).
  right. exists c. split; [exact Hin | reflexivity].
Qed.

Lemma qFuzzyCompare_refl x : qFuzzyCompare x x = true.
Proof.
  unfold qFuzzyCompare. apply Qle_bool_iff.
  assert (H : (Qabs (x - x) == 0)%Q).
  { assert (E : (x - x == 0)%Q) by ring. rewrite E. reflexivity. }
  rewrite H, Qmult_0_l. apply Q.min_glb; apply Qabs_nonneg.
Qed.

Lemma rectF_eqb_refl r : rectF_eqb r r = true.
Proof. unfold rectF_eqb. rewrite !qFuzzyCompare_refl. reflexivity. Qed.

(** X25.  Setting the same screen images again changes nothing and announces only
    [screenImagesChanged]: the screens' rectangle is not reported as changed
    a second time. *)
Theorem setScreenImages_twice pf st imgs :
  let st1 := fst (setScreenImages pf st imgs) in
  setScreenImages pf st1 imgs = (st1, [ScreenImagesChanged]).
Proof.
  cbn zeta. unfold setScreenImages. cbn [fst screensRect selection devicePixelRatio devicePixel
                                          disableArrowKeys].
  destruct (rectF_eqb (screensRect st) (QRectF.ofRect (unitedScreensRect pf imgs))) eqn:E;
    cbn [negb]; [rewrite E | rewrite rectF_eqb_refl]; reflexivity.
Qed.

Lemma commit_effects rectClipped env st actions :
  screenImages st <> [] ->
  exists g,
    snd (acceptSelection rectClipped env st actions)
    = (if rememberAlways env
       then [SetCropRegion (toAlignedRect (QRectF.normalized (selection st)))] else [])
      ++ [CropCanvas (if QRectF.isEmpty (QRectF.normalized (selection st))
                      then screensRect st else QRectF.normalized (selection st));
          GrabDone g actions].
Proof.
  intros Hne. unfold acceptSelection.
  destruct (screenImages st) as [|c cs] eqn:E; [congruence|].
  destruct (platform env); [destruct (negb _)|]; cbn [snd]; eexists; reflexivity.
Qed.

(** X26.  When the region is always remembered, a commit saves exactly one crop
    region, first of all effects, and that region covers the normalized
    selection: its left and top are not after the selection's, its right
    and bottom not before. *)
Theorem saved_region_covers_the_selection rectClipped env st actions :
  screenImages st <> [] -> rememberAlways env = true ->
  let sel := QRectF.normalized (selection st) in
  exists r rest,
    snd (acceptSelection rectClipped env st actions) = SetCropRegion r :: rest
    /\ (ofInt (QRect.left r) <= QRectF.left sel)%Q
    /\ (QRectF.right sel <= ofInt (QRect.right r + 1))%Q
    /\ (ofInt (QRect.top r) <= QRectF.top sel)%Q
    /\ (QRectF.bottom sel <= ofInt (QRect.bottom r + 1))%Q
    /\ Forall (fun e => match e with SetCropRegion _ => False | _ => True end) rest.
Proof.
  intros Hne Hr. cbn zeta.
  destruct (commit_effects rectClipped env st actions Hne) as [g Hg].
  rewrite Hg, Hr. cbn [app]. do 2 eexists. split; [reflexivity|].
  unfold toAlignedRect, QRect.make, QRect.left, QRect.right, QRect.top, QRect.bottom,
    QRectF.left, QRectF.right, QRectF.top, QRectF.bottom, ofInt. cbn [x1 x2 y1 y2].
  repeat split.
  - apply Qfloor_le.
  - match goal with |- (_ <= inject_Z ?z)%Q =>
      replace z with (Qceiling (xp (QRectF.normalized (selection st))
                                + fw (QRectF.normalized (selection st)))) by lia end.
    apply Qle_ceiling.
  - apply Qfloor_le.
  - match goal with |- (_ <= inject_Z ?z)%Q =>
      replace z with (Qceiling (yp (QRectF.normalized (selection st))
                                + fh (QRectF.normalized (selection st)))) by lia end.
    apply Qle_ceiling.
  - repeat constructor.
Qed.

Lemma saved_region_covers_the_selection_witness :
  exists r rest,
    snd (acceptSelection (fun r _ => r) (mkEnv Wayland 1%Q true) regionOnFullHd 0)
    = SetCropRegion r :: rest
    /\ (ofInt (QRect.left r) <= 100)%Q /\ (100 + 50 <= ofInt (QRect.right r + 1))%Q.
Proof.
  destruct (saved_region_covers_the_selection (fun r _ => r) (mkEnv Wayland 1%Q true)
              regionOnFullHd 0) as (r & rest & H & H1 & H2 & _).
  - discriminate.
  - reflexivity.
  - exists r, rest. split; [exact H|]. split; [exact H1 | exact H2].
Defined.

(** X28.  An arrow key without Alt hands [Geometry::rectBounded] the selection
    moved along one axis, with its size unchanged, to a whole number of
    device pixels: never negative for Left and Up, and never beyond
    [realMaxX] or [realMaxY] for Right and Down. *)
Theorem moved_position_is_clamped dprRound rectBounded st key shift :
  disableArrowKeys st = false ->
  exists (moved : QRectF) (newPos : Z),
    handleArrowKey dprRound rectBounded st key shift false
    = Some (rectBounded moved (screensRect st))
    /\ fw moved = fw (selection st) /\ fh moved = fh (selection st)
    /\ match key with
       | Key_Left => xp moved = (devicePixel st * ofInt newPos)%Q /\ yp moved = yp (selection st)
                     /\ 0 <= newPos
       | Key_Right => xp moved = (devicePixel st * ofInt newPos)%Q /\ yp moved = yp (selection st)
                      /\ newPos <= realMaxX st
       | Key_Up => yp moved = (devicePixel st * ofInt newPos)%Q /\ xp moved = xp (selection st)
                   /\ 0 <= newPos
       | Key_Down => yp moved = (devicePixel st * ofInt newPos)%Q /\ xp moved = xp (selection st)
                     /\ newPos <= realMaxY st
       end.
Proof.
  intros Hen. unfold handleArrowKey. rewrite Hen.
  destruct key; do 2 eexists; (split; [reflexivity|]); cbn [fw fh xp yp moveLeftF moveTopF];
    repeat split.
  all: unfold boundsLeft, boundsRight, boundsUp, boundsDown; fold (realMaxX st); fold (realMaxY st).
  all: match goal with |- context [?a <? ?b] => destruct (Z.ltb_spec a b) end; lia.
Qed.

Lemma moved_position_is_clamped_witness :
  exists (moved : QRectF) (newPos : Z),
    handleArrowKey (fun v _ => v) (fun r _ => r) regionOnFullHd Key_Left false false
    = Some moved
    /\ xp moved = (1 * ofInt newPos)%Q /\ 0 <= newPos.
Proof.
  destruct (moved_position_is_clamped (fun v _ => v) (fun r _ => r) regionOnFullHd Key_Left false
              eq_refl) as (moved & newPos & H & _ & _ & Hx & _ & Hp).
  exists moved, newPos. split; [exact H|]. split; [exact Hx | exact Hp].
Defined.

End SelectionCommit.

(** ** The OpenCV helpers *)

Module QtCVFacts.
Import QtCV.

Lemma lor_one n : Z.lor n 1 = 2 * Z.div2 n + 1.
Proof.
  apply Z.bits_inj'. intros i Hi. rewrite Z.lor_spec.
  destruct (Z.eq_dec i 0) as [->|Hne].
  - rewrite Z.testbit_odd_0. rewrite orb_true_r. reflexivity.
  - replace i with (Z.succ (i - 1)) by lia.
    rewrite Z.testbit_odd_succ by lia. rewrite Z.div2_spec, Z.shiftr_spec by lia.
    replace (i - 1 + 1) with (Z.succ (i - 1)) by lia.
    replace (Z.testbit 1 (Z.succ (i - 1))) with false; [apply orb_false_r|].
    symmetry. apply Z.bits_above_log2; cbn; lia.
Qed.

(** X29.  [sigmaToKSize] always returns an odd number: the rounded value itself
    when that is odd, the next integer otherwise. *)
Theorem kernel_size_is_odd (cvRound : qreal -> Z) (value : qreal) :
  let n := cvRound (value + 1)%Q in
  Z.odd (sigmaToKSize cvRound value) = true
  /\ sigmaToKSize cvRound value = (if Z.odd n then n else n + 1).
Proof.
  cbn zeta. unfold sigmaToKSize. generalize (cvRound (value + 1)%Q). intros n.
  rewrite lor_one. split.
  - apply Z.odd_odd.
  - pose proof (Z.div2_odd n) as H. destruct (Z.odd n); cbn [Z.b2z] in H; lia.
Qed.

Lemma matType_spec pixelFormat :
  (matType pixelFormat = INVALID_MAT_TYPE
   <-> typeInterpretation pixelFormat = UnsignedInteger)
  /\ (typeInterpretation pixelFormat <> UnsignedInteger ->
      Z.land (matType pixelFormat) CV_MAT_DEPTH_MASK
      = matTypeOf (typeInterpretation pixelFormat)
      /\ Z.shiftr (matType pixelFormat) CV_CN_SHIFT + 1 = channelCount pixelFormat).
Proof.
  unfold matType, CV_MAKETYPE, CV_MAT_DEPTH_MASK, CV_CN_SHIFT, INVALID_MAT_TYPE.
  destruct pixelFormat as [t cn]. cbn [typeInterpretation channelCount].
  rewrite !Z.shiftl_mul_pow2 by lia. change (2 ^ 3) with 8. change (1 * 8 - 1) with 7.
  assert (Hland : forall b, 0 <= b < 8 -> Z.land (b + (cn - 1) * 8) 7 = b).
  { intros b Hb. change 7 with (Z.ones 3). rewrite Z.land_ones by lia.
    change (2 ^ 3) with 8. rewrite Z.mod_add by lia. apply Z.mod_small, Hb. }
  assert (Hshr : forall b, 0 <= b < 8 -> Z.shiftr (b + (cn - 1) * 8) 3 = cn - 1).
  { intros b Hb. rewrite Z.shiftr_div_pow2 by lia. change (2 ^ 3) with 8.
    rewrite Z.div_add by lia. rewrite Z.div_small by lia. lia. }
  destruct t; cbn [matTypeOf]; unfold CV_8U, CV_16U, CV_32F, INVALID_MAT_TYPE;
    cbn [Z.eqb Pos.eqb].
  - split; [split; reflexivity|]. intros H. exfalso. apply H. reflexivity.
  - change (Z.land 2 7) with 2. split; [split; intros H; [exfalso; lia | discriminate]|].
    intros _. rewrite (Hland 2), (Hshr 2) by lia. split; [reflexivity | lia].
  - change (Z.land 0 7) with 0. split; [split; intros H; [exfalso; lia | discriminate]|].
    intros _. rewrite (Hland 0), (Hshr 0) by lia. split; [reflexivity | lia].
  - change (Z.land 5 7) with 5. split; [split; intros H; [exfalso; lia | discriminate]|].
    intros _. rewrite (Hland 5), (Hshr 5) by lia. split; [reflexivity | lia].
Qed.

(** X30.  [qImageToMat] yields no matrix exactly for a pixel format whose type
    interpretation is not byte, short or floating point; for every other
    format the matrix has the image's size and stride, and its type gives
    back the depth code and the channel count. *)
Theorem qImageToMat_fails_only_for_unsupported_formats width height bytesPerLine pixelFormat :
  (qImageToMat width height bytesPerLine pixelFormat = Datatypes.None
   <-> typeInterpretation pixelFormat = UnsignedInteger)
  /\ (typeInterpretation pixelFormat <> UnsignedInteger ->
      exists type,
        qImageToMat width height bytesPerLine pixelFormat
        = Some (mkMatHeader width height type bytesPerLine)
        /\ Z.land type CV_MAT_DEPTH_MASK = matTypeOf (typeInterpretation pixelFormat)
        /\ Z.shiftr type CV_CN_SHIFT + 1 = channelCount pixelFormat).
Proof.
  destruct (matType_spec pixelFormat) as [Hinv Hok]. unfold qImageToMat.
  destruct (Z.eqb_spec (matType pixelFormat) INVALID_MAT_TYPE) as [E|E].
  - split; [split; [intros _; apply Hinv, E | reflexivity]|].
    intros Hn. exfalso. apply Hn, Hinv, E.
  - split; [split; [discriminate | intros H; exfalso; apply E, Hinv, H]|].
    intros Hn. eexists. split; [reflexivity|]. apply Hok, Hn.
Qed.

End QtCVFacts.

(** ** The direct crop of QuickEditor, and evaluations on the scenarios *)

Module Siblings.
Import Notions QuickNotions Scenario RectFacts.

Lemma inside_drag_stays_within_when_smaller_witness :
  QRect.contains (QuickEditor.translatedScreensRect pressedInsideHundred)
                 (QuickEditor.dragInside pressedInsideHundred (ptF_ofPoint (mkPoint 990 990)))
  = true.
Proof.
  apply (Drag.inside_drag_stays_within_when_smaller pressedInsideHundred
           (ptF_ofPoint (mkPoint 990 990)) (Qeq_refl 1) (Qeq_refl 1) eq_refl eq_refl eq_refl).
Defined.

Lemma nativeRect_whole part pos dpr k :
  (dpr == inject_Z k)%Q ->
  nativeRect part pos dpr
  = QRect.make (k * (x1 part - px pos)) (k * (y1 part - py pos))
               (k * QRect.width part) (k * QRect.height part).
Proof.
  intros H. unfold nativeRect, ofInt.
  rewrite (qRound_int _ (k * (x1 part - px pos))), (qRound_int _ (k * (y1 part - py pos))),
    (Gesture.toInt_int _ (k * QRect.width part)), (Gesture.toInt_int _ (k * QRect.height part));
    try reflexivity; rewrite H, inject_Z_mult; ring.
Qed.

(** X12.  On Wayland, when the selection is not empty and lies within the
    geometry of a screen (the first such screen) whose ratio is a whole
    number [k], [QuickEditor] hands over exactly one image and builds no
    composite: the screen's image cut at the selection's corner relative to
    the screen's corner, times [k], with the selection's width and height
    times [k]. *)
Theorem contained_selection_is_cut_at_native_pixels env st l1 screen dpr l2 k :
  QuickEditor.platform env = Wayland ->
  QuickEditor.mScreenToDpr st = l1 ++ (screen, dpr) :: l2 ->
  (dpr == inject_Z k)%Q ->
  QRect.isEmpty (QuickEditor.mSelection st) = false ->
  QRect.contains (QuickEditor.geometry screen) (QuickEditor.mSelection st) = true ->
  Forall (fun t => QRect.contains (QuickEditor.geometry (fst t)) (QuickEditor.mSelection st) = false)
         l1 ->
  let sel := QuickEditor.mSelection st in
  let geo := QuickEditor.geometry screen in
  grabbedQ (QuickEditor.acceptSelection env st)
  = [GrabImage (QImage.copy (QuickEditor.imageOf (QuickEditor.mImages st) screen)
                            (QRect.make (k * (QRect.left sel - QRect.left geo))
                                        (k * (QRect.top sel - QRect.top geo))
                                        (k * QRect.width sel) (k * QRect.height sel)))].
Proof.
  intros Hpf Hl Hk Hs Hc Hl1 sel geo.
  rewrite (CommitCrop.contained_selection_is_cut_from_its_screen_quick env st l1 (screen, dpr) l2
             Hpf Hl Hs Hc Hl1).
  unfold directCropQ, cropRectQ. cbn [fst snd].
  rewrite Crop.pixelOnScreen_written_out, (nativeRect_whole _ _ _ k Hk). reflexivity.
Qed.

Lemma contained_selection_is_cut_at_native_pixels_witness :
  grabbedQ (QuickEditor.acceptSelection twoScreens withinB2)
  = [GrabImage (QImage.copy imageB2 (QRect.make 160 200 100 100))].
Proof.
  apply (contained_selection_is_cut_at_native_pixels twoScreens withinB2
           [(screenA, QuickEditor.imageDpr screenA imageA)] screenB2
           (QuickEditor.imageDpr screenB2 imageB2) [] 2
           eq_refl eq_refl eq_refl eq_refl eq_refl).
  repeat constructor.
Defined.


End Siblings.
